(** * A BASIC interpreter behind a debug adapter: model and properties

    The development embeds the interpreter (lexer, parser, runtime, function
    and variable tables, line-at-a-time session) and the debug-protocol engine
    of the repository as Rocq functions, in the order of the sources:

    - [Lexer]              interpreter/lexer.cpp
    - [Parser]             interpreter/parser.cpp
    - [Variables]          interpreter/variables.cpp
    - [Functions]          interpreter/functions.cpp
    - [Runtime]            interpreter/runtime.cpp
    - [BasicInterpreter]   interpreter/basic_interpreter.cpp
    - [DAPServer]          dap/dap_server.cpp

    C++ [int] is a [Z] (with the wrap-around written where the code computes
    on it), [double] is a binary64 primitive float, [std::string] is a
    [string], [std::map] is a [gmap], [std::set] a [gset], and an exception is
    an explicit outcome that carries the state reached when it was thrown. *)

From Stdlib Require Import ZArith String Ascii List Floats Uint63 Lia Bool.
From stdpp Require Import base option gmap strings list sorting.
Import ListNotations.

Local Open Scope string_scope.
Local Open Scope Z_scope.

(** ** Values *)

(** [using Value = std::variant<int, double, std::string, bool>]; the order of
    the constructors is the order of the alternatives, so that [index] is the
    variant's. *)
Inductive Value : Type :=
| VInt (v : Z)
| VDouble (v : float)
| VString (v : string)
| VBool (v : bool).

Definition index (v : Value) : nat :=
  match v with VInt _ => 0 | VDouble _ => 1 | VString _ => 2 | VBool _ => 3 end%nat.

(** [Value{}]: the first alternative, value-initialised. *)
Definition Value_default : Value := VInt 0.

(** Two's complement wrap-around of a 32-bit [int]. *)
Definition wrap32 (z : Z) : Z := (z + 2 ^ 31) mod 2 ^ 32 - 2 ^ 31.

Definition INT_MAX : Z := 2 ^ 31 - 1.
Definition INT_MIN : Z := - 2 ^ 31.

(** [static_cast<double>(int)]: every 32-bit integer is a binary64 number. *)
Definition int_to_double (z : Z) : float :=
  if z <? 0 then PrimFloat.opp (PrimFloat.of_uint63 (Uint63.of_Z (- z)))
  else PrimFloat.of_uint63 (Uint63.of_Z z).

(** [static_cast<int>(double)]: truncation toward zero.  The conversion is
    undefined in C++ when the truncated value is not an [int]; the model
    answers [INT_MIN] there, as the x86 conversion instruction does. *)
Definition double_to_int (d : float) : Z :=
  match Prim2SF d with
  | S754_zero _ => 0
  | S754_finite s m e =>
      let mag := if (0 <=? e) then Z.shiftl (Zpos m) e else Z.shiftr (Zpos m) (- e) in
      let z := if s then - mag else mag in
      if (INT_MIN <=? z) && (z <=? INT_MAX) then z else INT_MIN
  | _ => INT_MIN
  end.

(** ** Functions of the C and C++ libraries

    The interpreter calls these and the repository does not define them; their
    results are taken as given.  [ext_stod] is [None] where [std::stod]
    throws; [ext_format_double] is [operator<<] of an [ostream] on a
    [double]; [ext_valueToString] is the interpreter's own [valueToString],
    which the sources declare and never define. *)
Record Externals : Type := {
  ext_fmod : float -> float -> float;
  ext_pow : float -> float -> float;
  ext_sin : float -> float;
  ext_cos : float -> float;
  ext_tan : float -> float;
  ext_log : float -> float;
  ext_exp : float -> float;
  ext_stod : string -> option float;
  ext_format_double : float -> string;
  ext_valueToString : Value -> string
}.

(** ** Outcomes *)

(** A pure helper either returns or throws [std::runtime_error(what)]. *)
Inductive Except (A : Type) : Type :=
| Return (a : A)
| Raise (what : string).
Arguments Return {A} a.
Arguments Raise {A} what.

(** A computation on a state [S] returns a result and a state, throws with the
    state it had reached, or does not come back within the steps it was
    given. *)
Inductive Outcome (S A : Type) : Type :=
| Ok (a : A) (s : S)
| Throw (what : string) (s : S)
| OutOfFuel.
Arguments Ok {S A} a s.
Arguments Throw {S A} what s.
Arguments OutOfFuel {S A}.

Definition M (S A : Type) : Type := S -> Outcome S A.

Definition ret {S A} (a : A) : M S A := fun s => Ok a s.

Definition bind {S A B} (m : M S A) (k : A -> M S B) : M S B :=
  fun s =>
    match m s with
    | Ok a s' => k a s'
    | Throw w s' => Throw w s'
    | OutOfFuel => OutOfFuel
    end.

Definition throw {S A} (what : string) : M S A := fun s => Throw what s.

Definition get_state {S} : M S S := fun s => Ok s s.

Definition modify {S} (f : S -> S) : M S unit := fun s => Ok tt (f s).

Definition lift_except {S A} (e : Except A) : M S A :=
  match e with
  | Return a => ret a
  | Raise w => throw w
  end.

(** [try { m } catch (...) { h }]. *)
Definition try_catch {S A} (m : M S A) (h : string -> M S A) : M S A :=
  fun s =>
    match m s with
    | Ok a s' => Ok a s'
    | Throw w s' => h w s'
    | OutOfFuel => OutOfFuel
    end.

Notation "'let*' x := m 'in' k" := (bind m (fun x => k))
  (at level 10, x binder, m at level 100, k at level 200).

(** ** Runtime helpers (interpreter/runtime.cpp) *)

Module RuntimeOps.

(** The visitor used for the bounds of [FOR]: [int] and [double] convert,
    every other alternative gives [dflt]. *)
Definition numeric_or (dflt : float) (v : Value) : float :=
  match v with
  | VInt n => int_to_double n
  | VDouble d => d
  | _ => dflt
  end.

Definition is_numeric (v : Value) : bool :=
  match v with VInt _ | VDouble _ => true | _ => false end.

Definition isTruthy (value : Value) : bool :=
  match value with
  | VBool v => v
  | VInt v => negb (v =? 0)
  | VDouble v => negb (PrimFloat.eqb v 0%float)
  | VString v => negb (String.eqb v "")
  end.

(** When the two alternatives differ, [isEqual], [isLessThan] and
    [isGreaterThan] compare [da] and [db], which start at [0.0] and are
    assigned only from an [int] or a [double]. *)
Definition isEqual (a b : Value) : bool :=
  match a, b with
  | VString va, VString vb => String.eqb va vb
  | VInt va, VInt vb => PrimFloat.eqb (int_to_double va) (int_to_double vb)
  | VDouble va, VDouble vb => PrimFloat.eqb va vb
  | VBool va, VBool vb => Bool.eqb va vb
  | _, _ => PrimFloat.eqb (numeric_or 0%float a) (numeric_or 0%float b)
  end.

Definition isLessThan (a b : Value) : bool :=
  match a, b with
  | VInt va, VInt vb => va <? vb
  | VDouble va, VDouble vb => PrimFloat.ltb va vb
  | VString va, VString vb => String.ltb va vb
  | VBool va, VBool vb => negb va && vb
  | _, _ => PrimFloat.ltb (numeric_or 0%float a) (numeric_or 0%float b)
  end.

Definition isGreaterThan (a b : Value) : bool :=
  match a, b with
  | VInt va, VInt vb => vb <? va
  | VDouble va, VDouble vb => PrimFloat.ltb vb va
  | VString va, VString vb => String.ltb vb va
  | VBool va, VBool vb => va && negb vb
  | _, _ => PrimFloat.ltb (numeric_or 0%float b) (numeric_or 0%float a)
  end.

Definition add (a b : Value) : Value :=
  match a, b with
  | VString va, VString vb => VString (va +:+ vb)
  | (VInt _ | VDouble _), (VInt _ | VDouble _) =>
      VDouble (numeric_or 0%float a + numeric_or 0%float b)%float
  | _, _ => VDouble 0%float
  end.

Definition subtract (a b : Value) : Value :=
  match a, b with
  | (VInt _ | VDouble _), (VInt _ | VDouble _) =>
      VDouble (numeric_or 0%float a - numeric_or 0%float b)%float
  | _, _ => VDouble 0%float
  end.

Definition multiply (a b : Value) : Value :=
  match a, b with
  | (VInt _ | VDouble _), (VInt _ | VDouble _) =>
      VDouble (numeric_or 0%float a * numeric_or 0%float b)%float
  | _, _ => VDouble 0%float
  end.

Definition divide (a b : Value) : Except Value :=
  match a, b with
  | (VInt _ | VDouble _), (VInt _ | VDouble _) =>
      let da := numeric_or 0%float a in
      let db := numeric_or 0%float b in
      if PrimFloat.eqb db 0%float then Raise "Division by zero"
      else Return (VDouble (da / db)%float)
  | _, _ => Return (VDouble 0%float)
  end.

Definition modulo (E : Externals) (a b : Value) : Except Value :=
  match a, b with
  | (VInt _ | VDouble _), (VInt _ | VDouble _) =>
      let da := numeric_or 0%float a in
      let db := numeric_or 0%float b in
      if PrimFloat.eqb db 0%float then Raise "Modulo by zero"
      else Return (VDouble (ext_fmod E da db))
  | _, _ => Return (VDouble 0%float)
  end.

Definition power (E : Externals) (a b : Value) : Value :=
  match a, b with
  | (VInt _ | VDouble _), (VInt _ | VDouble _) =>
      VDouble (ext_pow E (numeric_or 0%float a) (numeric_or 0%float b))
  | _, _ => VDouble 0%float
  end.

End RuntimeOps.

(** ** Tokens (interpreter/basic_interpreter.h) *)

Inductive TokenType : Set :=
(* Keywords *)
| LET | IF | THEN | ELSE | FOR | TO | STEP | NEXT | WHILE | WEND | DO | LOOP | UNTIL
| SUB | END | FUNCTION | RETURN | PRINT | INPUT | READ | DATA | RESTORE | DIM
(* Operators *)
| PLUS | MINUS | MULTIPLY | DIVIDE | MOD | POWER
| EQUAL | NOT_EQUAL | LESS | LESS_EQUAL | GREATER | GREATER_EQUAL
| AND | OR | NOT
(* Delimiters *)
| LPAREN | RPAREN | COMMA | SEMICOLON | COLON | ASSIGN
(* Literals *)
| NUMBER | STRING | IDENTIFIER
(* Special *)
| NEWLINE | EOF_TOKEN | UNKNOWN.

Scheme Equality for TokenType.

Record Token : Type := mkToken {
  tok_type : TokenType;
  tok_value : string;
  tok_line : Z;
  tok_column : Z
}.

(** ** Characters ([<cctype>] in the "C" locale) *)

Module Char.

Definition code (c : ascii) : N := N_of_ascii c.

Definition quote : ascii := "034"%char.
Definition newline : ascii := "010"%char.
Definition tab : ascii := "009"%char.
Definition cr : ascii := "013"%char.

Definition isspace (c : ascii) : bool :=
  ((9 <=? code c) && (code c <=? 13) || (code c =? 32))%N.

Definition isdigit (c : ascii) : bool :=
  ((48 <=? code c) && (code c <=? 57))%N.

Definition isalpha (c : ascii) : bool :=
  ((65 <=? code c) && (code c <=? 90) || (97 <=? code c) && (code c <=? 122))%N.

Definition isalnum (c : ascii) : bool := isalpha c || isdigit c.

End Char.

(** [std::string(1, ch)]. *)
Definition string_of_char (c : ascii) : string := String c EmptyString.

Definition strlen (s : string) : Z := Z.of_nat (String.length s).

(** [s.find(c) != std::string::npos]. *)
Fixpoint contains_char (c : ascii) (s : string) : bool :=
  match s with
  | EmptyString => false
  | String x rest => Ascii.eqb x c || contains_char c rest
  end.

(** ** Lexer (interpreter/lexer.cpp) *)

Module Lexer.

(** [setupKeywords]. *)
Definition keywords_ : list (string * TokenType) :=
  [ ("LET", LET); ("IF", IF); ("THEN", THEN); ("ELSE", ELSE); ("FOR", FOR);
    ("TO", TO); ("STEP", STEP); ("NEXT", NEXT); ("WHILE", WHILE);
    ("WEND", WEND); ("DO", DO); ("LOOP", LOOP); ("UNTIL", UNTIL);
    ("SUB", SUB); ("END", END); ("FUNCTION", FUNCTION); ("RETURN", RETURN);
    ("PRINT", PRINT); ("INPUT", INPUT); ("READ", READ); ("DATA", DATA);
    ("RESTORE", RESTORE); ("DIM", DIM) ].

Fixpoint find_keyword (table : list (string * TokenType)) (identifier : string)
  : option TokenType :=
  match table with
  | [] => None
  | (k, t) :: rest => if String.eqb k identifier then Some t else find_keyword rest identifier
  end.

(** The comment loop: [pos] moves to the next ['\n'] or to the end. *)
Fixpoint skip_comment (input : string) : string :=
  match input with
  | EmptyString => EmptyString
  | String ch rest => if Ascii.eqb ch Char.newline then input else skip_comment rest
  end.

(** The number loop: digits, and one ['.'] as long as [hasDecimal] is false.
    Returns the lexeme and what is remaining of the input. *)
Fixpoint scan_number (input : string) (hasDecimal : bool) : string * string :=
  match input with
  | EmptyString => (EmptyString, EmptyString)
  | String ch rest =>
      if Char.isdigit ch then
        let '(number, remaining) := scan_number rest hasDecimal in (String ch number, remaining)
      else if Ascii.eqb ch "." && negb hasDecimal then
        let '(number, remaining) := scan_number rest true in (String ch number, remaining)
      else (EmptyString, input)
  end.

(** The body of a string literal, from after the opening quote: the decoded
    text, the number of characters passed, and the input from the closing
    quote on (empty when the literal is not closed). *)
Fixpoint scan_string (input : string) : string * Z * string :=
  match input with
  | EmptyString => (EmptyString, 0, EmptyString)
  | String ch rest =>
      if Ascii.eqb ch Char.quote then (EmptyString, 0, input)
      else if Ascii.eqb ch "\" then
        match rest with
        | String e rest' =>
            let piece :=
              if Ascii.eqb e "n" then string_of_char Char.newline
              else if Ascii.eqb e "t" then string_of_char Char.tab
              else if Ascii.eqb e "r" then string_of_char Char.cr
              else if Ascii.eqb e Char.quote then string_of_char Char.quote
              else if Ascii.eqb e "\" then "\"
              else String "\" (string_of_char e) in
            let '(str, n, remaining) := scan_string rest' in (piece +:+ str, n + 2, remaining)
        | EmptyString => ("\", 1, EmptyString)
        end
      else
        let '(str, n, remaining) := scan_string rest in (String ch str, n + 1, remaining)
  end.

(** The identifier loop: letters, digits and ['_']. *)
Fixpoint scan_identifier (input : string) : string * string :=
  match input with
  | EmptyString => (EmptyString, EmptyString)
  | String ch rest =>
      if Char.isalnum ch || Ascii.eqb ch "_" then
        let '(identifier, remaining) := scan_identifier rest in (String ch identifier, remaining)
      else (EmptyString, input)
  end.

(** The [switch] on operators and delimiters: the token type, its text and
    the input after it; [None] is the [default] case. *)
Definition scan_operator (ch : ascii) (rest : string) : option (TokenType * string * string) :=
  if Ascii.eqb ch "+" then Some (PLUS, "+", rest)
  else if Ascii.eqb ch "-" then Some (MINUS, "-", rest)
  else if Ascii.eqb ch "*" then Some (MULTIPLY, "*", rest)
  else if Ascii.eqb ch "/" then Some (DIVIDE, "/", rest)
  else if Ascii.eqb ch "%" then Some (MOD, "%", rest)
  else if Ascii.eqb ch "^" then Some (POWER, "^", rest)
  else if Ascii.eqb ch "(" then Some (LPAREN, "(", rest)
  else if Ascii.eqb ch ")" then Some (RPAREN, ")", rest)
  else if Ascii.eqb ch "," then Some (COMMA, ",", rest)
  else if Ascii.eqb ch ";" then Some (SEMICOLON, ";", rest)
  else if Ascii.eqb ch ":" then Some (COLON, ":", rest)
  else if Ascii.eqb ch "=" then Some (ASSIGN, "=", rest)
  else if Ascii.eqb ch "<" then
    match rest with
    | String "=" rest' => Some (LESS_EQUAL, "<=", rest')
    | String ">" rest' => Some (NOT_EQUAL, "<>", rest')
    | _ => Some (LESS, "<", rest)
    end
  else if Ascii.eqb ch ">" then
    match rest with
    | String "=" rest' => Some (GREATER_EQUAL, ">=", rest')
    | _ => Some (GREATER, ">", rest)
    end
  else None.

Definition emit (t : Token) (r : option (Except (list Token))) : option (Except (list Token)) :=
  match r with
  | Some (Return tokens) => Some (Return (t :: tokens))
  | other => other
  end.

(** The main loop of [tokenize]: [input] is the text from [pos] on.  One turn
    of the loop costs one unit of [fuel]; [None] when the fuel runs out. *)
Fixpoint tokenize_loop (fuel : nat) (input : string) (line column : Z)
  : option (Except (list Token)) :=
  match fuel with
  | O => None
  | S fuel' =>
      match input with
      | EmptyString => Some (Return [mkToken EOF_TOKEN "" line column])
      | String ch rest =>
          if Char.isspace ch then
            if Ascii.eqb ch Char.newline then tokenize_loop fuel' rest (line + 1) 1
            else tokenize_loop fuel' rest line (column + 1)
          else if Ascii.eqb ch "'" then
            tokenize_loop fuel' (skip_comment input) line column
          else if Char.isdigit ch || Ascii.eqb ch "." then
            let '(number, remaining) := scan_number input false in
            emit (mkToken NUMBER number line column)
                 (tokenize_loop fuel' remaining line (column + strlen number))
          else if Ascii.eqb ch Char.quote then
            let '(str, n, remaining) := scan_string rest in
            match remaining with
            | String _ remaining' =>
                emit (mkToken STRING str line column)
                     (tokenize_loop fuel' remaining' line (column + 1 + n + 1))
            | EmptyString =>
                emit (mkToken STRING str line column)
                     (tokenize_loop fuel' EmptyString line (column + 1 + n))
            end
          else if Char.isalpha ch || Ascii.eqb ch "_" then
            let '(identifier, remaining) := scan_identifier input in
            let t := match find_keyword keywords_ identifier with
                     | Some k => k
                     | None => IDENTIFIER
                     end in
            emit (mkToken t identifier line column)
                 (tokenize_loop fuel' remaining line (column + strlen identifier))
          else
            match scan_operator ch rest with
            | Some (tokenType, value, remaining) =>
                emit (mkToken tokenType value line column)
                     (tokenize_loop fuel' remaining line (column + strlen value))
            | None => Some (Raise ("Unknown character: " +:+ string_of_char ch))
            end
      end
  end.

(** [Lexer::tokenize].  Every turn of the loop consumes a character, so the
    length of the text and one more turn for the end-of-input token are fuel
    enough ([tokenize_loop_fuel] below). *)
Definition tokenize (input : string) : Except (list Token) :=
  match tokenize_loop (S (String.length input)) input 1 1 with
  | Some r => r
  | None => Raise "tokenize: out of fuel"
  end.

End Lexer.

(** ** [std::stoi] and [std::to_string] on [int] *)

Fixpoint skip_spaces (s : string) : string :=
  match s with
  | String c rest => if Char.isspace c then skip_spaces rest else s
  | EmptyString => EmptyString
  end.

Definition digit_value (c : ascii) : Z := Z.of_N (Char.code c) - 48.

(** The value of the longest prefix of decimal digits, after [acc]. *)
Fixpoint digits_value (acc : Z) (s : string) : Z :=
  match s with
  | String c rest =>
      if Char.isdigit c then digits_value (10 * acc + digit_value c) rest else acc
  | EmptyString => acc
  end.

(** [std::stoi(s)]: blanks, a sign, then decimal digits up to the first other
    character.  [None] where it throws: [std::invalid_argument] when no digit
    is there, [std::out_of_range] when the number is not an [int]. *)
Definition stoi (s : string) : option Z :=
  let s1 := skip_spaces s in
  let '(negative, s2) :=
    match s1 with
    | String c rest =>
        if Ascii.eqb c "-" then (true, rest)
        else if Ascii.eqb c "+" then (false, rest)
        else (false, s1)
    | EmptyString => (false, s1)
    end in
  match s2 with
  | String c _ =>
      if Char.isdigit c then
        let v := digits_value 0 s2 in
        let z := if negative then - v else v in
        if (INT_MIN <=? z) && (z <=? INT_MAX) then Some z else None
      else None
  | EmptyString => None
  end.

Definition digit_char (d : Z) : ascii := ascii_of_N (Z.to_N (48 + d)).

(** The decimal digits of a natural number, most significant first; [fuel]
    bounds the number of digits. *)
Fixpoint digits_of (fuel : nat) (n : Z) (acc : string) : string :=
  match fuel with
  | O => acc
  | S fuel' =>
      let acc' := String (digit_char (n mod 10)) acc in
      if n <? 10 then acc' else digits_of fuel' (n / 10) acc'
  end.

(** [std::to_string(int)], which is also [operator<<] on an [int]. *)
Definition int_to_string (z : Z) : string :=
  if z <? 0 then String "-" (digits_of (Z.to_nat (- z)) (- z) EmptyString)
  else digits_of (S (Z.to_nat z)) z EmptyString.

(** ** Syntax trees (interpreter/parser.h)

    A [std::unique_ptr<ASTNode>] that the parser may leave or set null (the
    result of [parseStatement], the optional [stepValue]) is an [option].
    [line] is the field of the base class, kept on the nodes whose parsing
    function assigns it. *)
#[local] Unset Elimination Schemes.
Inductive ASTNode : Type :=
| ProgramNode (statements : list ASTNode)
| LetStatementNode (line : Z) (variableName : string) (value : ASTNode)
| IfStatementNode (line : Z) (condition : ASTNode)
    (thenStatement elseStatement : option ASTNode)
| ForStatementNode (line : Z) (variableName : string) (startValue endValue : ASTNode)
    (stepValue : option ASTNode) (body : option ASTNode)
| NextStatementNode
| WhileStatementNode (line : Z) (condition : ASTNode) (body : option ASTNode)
| PrintStatementNode (line : Z) (expressions : list ASTNode)
| InputStatementNode (line : Z) (prompt variableName : string)
| FunctionCallNode (functionName : string) (arguments : list ASTNode)
| BinaryExpressionNode (operator_ : TokenType) (lhs rhs : ASTNode)
| UnaryExpressionNode (operator_ : TokenType) (operand : ASTNode)
| LiteralNode (value : Value)
| IdentifierNode (name : string).
#[local] Set Elimination Schemes.

(** ** Parser (interpreter/parser.cpp)

    The parser's state is [current_], an index in [tokens_]; a parsing
    function is a computation on it.  A thrown [std::runtime_error] leaves
    [current_] where it was, which is where [synchronize] starts from. *)

Module Parser.

Section WithTokens.

Variable E : Externals.
Variable tokens_ : list Token.

Definition P (A : Type) : Type := M nat A.

(** [tokens_[i]]; reading past the end is undefined in C++ and gives an
    end-of-input token here (it does not happen when [tokens_] ends with the
    end-of-input token, as the lexer's result does). *)
Definition token_at (i : nat) : Token :=
  nth i tokens_ (mkToken EOF_TOKEN "" 0 0).

Definition current : P Token := fun cur => Ok (token_at cur) cur.

Definition last : P Token :=
  fun cur => if (0 <? cur)%nat then Ok (token_at (cur - 1)) cur else Ok (token_at cur) cur.

Definition isAtEnd : P bool :=
  fun cur =>
    Ok ((length tokens_ <=? cur)%nat
        || TokenType_beq (tok_type (token_at cur)) EOF_TOKEN) cur.

Definition check (type : TokenType) : P bool :=
  let* e := isAtEnd in
  if e then ret false
  else let* t := current in ret (TokenType_beq (tok_type t) type).

Definition advance : P unit :=
  let* e := isAtEnd in
  if e then ret tt else modify S.

Definition match_ (type : TokenType) : P bool :=
  let* c := check type in
  if c then let* _ := advance in ret true else ret false.

(** [match(t1) || match(t2) || ...], with the short circuit. *)
Fixpoint match_any (types : list TokenType) : P bool :=
  match types with
  | [] => ret false
  | t :: rest => let* m := match_ t in if m then ret true else match_any rest
  end.

Definition consume (type : TokenType) (message : string) : P unit :=
  let* c := check type in
  if c then advance else throw message.

(** The loop of [synchronize]; it advances at every turn, so the number of
    tokens bounds its turns. *)
Fixpoint synchronize_loop (n : nat) : P unit :=
  match n with
  | O => fun _ => OutOfFuel
  | S n' =>
      let* e := isAtEnd in
      if e then ret tt
      else
        let* t := current in
        match tok_type t with
        | SEMICOLON => advance
        | LET | IF | FOR | WHILE | PRINT | INPUT => ret tt
        | _ => let* _ := advance in synchronize_loop n'
        end
  end.

Definition synchronize : P unit :=
  let* _ := advance in synchronize_loop (S (length tokens_)).

(** The [try] block of the [NUMBER] case of [parsePrimary]: the test for a
    decimal point reads [current()], the token after the number, and the
    conversion reads [last()], the number. *)
Definition number_literal (currentValue lastValue : string) : Value :=
  if contains_char "." currentValue then
    match ext_stod E lastValue with
    | Some d => VDouble d
    | None => VInt 0
    end
  else
    match stoi lastValue with
    | Some n => VInt n
    | None => VInt 0
    end.

Definition additive_operators : list TokenType :=
  [PLUS; MINUS; EQUAL; NOT_EQUAL; LESS; LESS_EQUAL; GREATER; GREATER_EQUAL].

Definition multiplicative_operators : list TokenType := [MULTIPLY; DIVIDE; MOD].

Definition parseInputStatement : P ASTNode :=
  let* t := current in
  let* c := check STRING in
  let* prompt :=
    (if c then
       let* p := current in
       let* _ := advance in
       let* m := match_ COMMA in
       if negb m then throw "Expected comma after INPUT prompt"
       else ret (tok_value p)
     else ret EmptyString) in
  let* c := check IDENTIFIER in
  if negb c then throw "Expected variable name in INPUT statement" else
  let* v := current in
  let* _ := advance in
  ret (InputStatementNode (tok_line t) prompt (tok_value v)).

(** The parsing functions call each other; [fuel] bounds the depth of the
    calls, each call and each turn of a loop taking one unit. *)
Fixpoint parseStatement (fuel : nat) : P (option ASTNode) :=
  match fuel with
  | O => fun _ => OutOfFuel
  | S fuel' =>
      let* e := isAtEnd in
      if e then ret None
      else
        try_catch
          (let* m := match_ LET in
           if m then let* n := parseLetStatement fuel' in ret (Some n) else
           let* m := match_ IF in
           if m then let* n := parseIfStatement fuel' in ret (Some n) else
           let* m := match_ FOR in
           if m then let* n := parseForStatement fuel' in ret (Some n) else
           let* m := match_ NEXT in
           if m then ret (Some NextStatementNode) else
           let* m := match_ WHILE in
           if m then let* n := parseWhileStatement fuel' in ret (Some n) else
           let* m := match_ PRINT in
           if m then let* n := parsePrintStatement fuel' in ret (Some n) else
           let* m := match_ INPUT in
           if m then let* n := parseInputStatement in ret (Some n) else
           let* c := check IDENTIFIER in
           if c then
             let* _ := advance in
             let* m := match_ ASSIGN in
             if m then
               let* t := current in
               let* v := parseExpression fuel' in
               ret (Some (LetStatementNode 0 (tok_value t) v))
             else
               let* _ := modify Nat.pred in
               let* n := parseFunctionCall fuel' in ret (Some n)
           else
             let* n := parseExpression fuel' in ret (Some n))
          (fun _ => let* _ := synchronize in ret None)
  end

with parseLetStatement (fuel : nat) : P ASTNode :=
  match fuel with
  | O => fun _ => OutOfFuel
  | S fuel' =>
      let* t := current in
      let* c := check IDENTIFIER in
      if negb c then throw "Expected identifier after LET" else
      let* _ := advance in
      let* m := match_ ASSIGN in
      if negb m then throw "Expected '=' after variable name" else
      let* v := parseExpression fuel' in
      ret (LetStatementNode (tok_line t) (tok_value t) v)
  end

with parseIfStatement (fuel : nat) : P ASTNode :=
  match fuel with
  | O => fun _ => OutOfFuel
  | S fuel' =>
      let* t := current in
      let* condition := parseExpression fuel' in
      let* m := match_ THEN in
      if negb m then throw "Expected THEN after IF condition" else
      let* thenStatement := parseStatement fuel' in
      let* m := match_ ELSE in
      if m then
        let* elseStatement := parseStatement fuel' in
        ret (IfStatementNode (tok_line t) condition thenStatement elseStatement)
      else ret (IfStatementNode (tok_line t) condition thenStatement None)
  end

with parseForStatement (fuel : nat) : P ASTNode :=
  match fuel with
  | O => fun _ => OutOfFuel
  | S fuel' =>
      let* t := current in
      let* c := check IDENTIFIER in
      if negb c then throw "Expected identifier after FOR" else
      let* _ := advance in
      let* m := match_ ASSIGN in
      if negb m then throw "Expected '=' after FOR variable" else
      let* startValue := parseExpression fuel' in
      let* m := match_ TO in
      if negb m then throw "Expected TO in FOR statement" else
      let* endValue := parseExpression fuel' in
      let* m := match_ STEP in
      let* stepValue :=
        (if m then let* s := parseExpression fuel' in ret (Some s) else ret None) in
      let* body := parseStatement fuel' in
      ret (ForStatementNode (tok_line t) (tok_value t) startValue endValue stepValue body)
  end

with parseWhileStatement (fuel : nat) : P ASTNode :=
  match fuel with
  | O => fun _ => OutOfFuel
  | S fuel' =>
      let* t := current in
      let* condition := parseExpression fuel' in
      let* body := parseStatement fuel' in
      ret (WhileStatementNode (tok_line t) condition body)
  end

with parsePrintStatement (fuel : nat) : P ASTNode :=
  match fuel with
  | O => fun _ => OutOfFuel
  | S fuel' =>
      let* t := current in
      let* expressions := parsePrintStatement_loop fuel' in
      ret (PrintStatementNode (tok_line t) expressions)
  end

with parsePrintStatement_loop (fuel : nat) : P (list ASTNode) :=
  match fuel with
  | O => fun _ => OutOfFuel
  | S fuel' =>
      let* e := isAtEnd in
      let* semicolon := check SEMICOLON in
      let* colon := check COLON in
      if negb e && negb semicolon && negb colon then
        let* expression := parseExpression fuel' in
        let* _ := match_ COMMA in
        let* more := parsePrintStatement_loop fuel' in
        ret (expression :: more)
      else ret []
  end

with parseFunctionCall (fuel : nat) : P ASTNode :=
  match fuel with
  | O => fun _ => OutOfFuel
  | S fuel' =>
      let* c := check IDENTIFIER in
      if negb c then throw "Expected function name" else
      let* t := current in
      let* _ := advance in
      let* m := match_ LPAREN in
      if m then
        let* arguments := parseFunctionCall_loop fuel' in
        let* _ := consume RPAREN "Expected ')' after function arguments" in
        ret (FunctionCallNode (tok_value t) arguments)
      else ret (FunctionCallNode (tok_value t) [])
  end

with parseFunctionCall_loop (fuel : nat) : P (list ASTNode) :=
  match fuel with
  | O => fun _ => OutOfFuel
  | S fuel' =>
      let* rparen := check RPAREN in
      let* e := isAtEnd in
      if negb rparen && negb e then
        let* argument := parseExpression fuel' in
        let* m := match_ COMMA in
        if negb m then ret [argument]
        else
          let* more := parseFunctionCall_loop fuel' in
          ret (argument :: more)
      else ret []
  end

with parseExpression (fuel : nat) : P ASTNode :=
  match fuel with
  | O => fun _ => OutOfFuel
  | S fuel' =>
      let* lhs := parseTerm fuel' in
      parseExpression_loop fuel' lhs
  end

with parseExpression_loop (fuel : nat) (lhs : ASTNode) : P ASTNode :=
  match fuel with
  | O => fun _ => OutOfFuel
  | S fuel' =>
      let* m := match_any additive_operators in
      if m then
        let* t := current in
        let* rhs := parseTerm fuel' in
        parseExpression_loop fuel' (BinaryExpressionNode (tok_type t) lhs rhs)
      else ret lhs
  end

with parseTerm (fuel : nat) : P ASTNode :=
  match fuel with
  | O => fun _ => OutOfFuel
  | S fuel' =>
      let* lhs := parseFactor fuel' in
      parseTerm_loop fuel' lhs
  end

with parseTerm_loop (fuel : nat) (lhs : ASTNode) : P ASTNode :=
  match fuel with
  | O => fun _ => OutOfFuel
  | S fuel' =>
      let* m := match_any multiplicative_operators in
      if m then
        let* t := current in
        let* rhs := parseFactor fuel' in
        parseTerm_loop fuel' (BinaryExpressionNode (tok_type t) lhs rhs)
      else ret lhs
  end

with parseFactor (fuel : nat) : P ASTNode :=
  match fuel with
  | O => fun _ => OutOfFuel
  | S fuel' =>
      let* lhs := parsePrimary fuel' in
      parseFactor_loop fuel' lhs
  end

with parseFactor_loop (fuel : nat) (lhs : ASTNode) : P ASTNode :=
  match fuel with
  | O => fun _ => OutOfFuel
  | S fuel' =>
      let* m := match_ POWER in
      if m then
        let* rhs := parsePrimary fuel' in
        parseFactor_loop fuel' (BinaryExpressionNode POWER lhs rhs)
      else ret lhs
  end

with parsePrimary (fuel : nat) : P ASTNode :=
  match fuel with
  | O => fun _ => OutOfFuel
  | S fuel' =>
      let* m := match_ NUMBER in
      if m then
        let* c := current in
        let* l := last in
        ret (LiteralNode (number_literal (tok_value c) (tok_value l)))
      else
      let* m := match_ STRING in
      if m then let* l := last in ret (LiteralNode (VString (tok_value l))) else
      let* m := match_ IDENTIFIER in
      if m then let* l := last in ret (IdentifierNode (tok_value l)) else
      let* m := match_ LPAREN in
      if m then
        let* expr := parseExpression fuel' in
        let* _ := consume RPAREN "Expected ')' after expression" in
        ret expr
      else
        let* t := current in
        throw ("Unexpected token: " +:+ tok_value t)
  end.

End WithTokens.
End Parser.

Module ParserEntry.

(** Depth allowance for a token vector: no chain of calls is longer than a
    few calls per token. *)
Definition depth (tokens : list Token) : nat := 8 * length tokens + 16.

(** [Parser::parseProgram]: statements until the end of input, null results
    skipped. *)
Fixpoint parseProgram_loop (E : Externals) (tokens : list Token) (n : nat)
  : Parser.P (list ASTNode) :=
  match n with
  | O => fun _ => OutOfFuel
  | S n' =>
      let* e := Parser.isAtEnd tokens in
      if e then ret []
      else
        let* statement := Parser.parseStatement E tokens (depth tokens) in
        let* more := parseProgram_loop E tokens n' in
        ret (match statement with Some st => st :: more | None => more end)
  end.

(** [Parser::parse]: [tokens_ = tokens; current_ = 0; parseProgram()]. *)
Definition parse (E : Externals) (tokens : list Token) : Outcome nat ASTNode :=
  (let* statements := parseProgram_loop E tokens (S (length tokens)) in
   ret (ProgramNode statements)) 0%nat.

(** [Parser::parseLine]: [tokens_ = tokens; current_ = 0; parseStatement()]. *)
Definition parseLine (E : Externals) (tokens : list Token) : Outcome nat (option ASTNode) :=
  Parser.parseStatement E tokens (depth tokens) 0%nat.

End ParserEntry.

(** ** Variables (interpreter/variables.cpp) *)

Module Variables.

Definition set (name : string) (value : Value) (variables_ : gmap string Value)
  : gmap string Value :=
  <[name := value]> variables_.

(** Default value (0) for undefined variables. *)
Definition get (name : string) (variables_ : gmap string Value) : Value :=
  match variables_ !! name with
  | Some v => v
  | None => VInt 0
  end.

Definition exists_ (name : string) (variables_ : gmap string Value) : bool :=
  bool_decide (is_Some (variables_ !! name)).

Definition clear (variables_ : gmap string Value) : gmap string Value := ∅.

End Variables.

(** ** What a [std::ostream] writes for a value *)

(** [oss << v] for each alternative of a [Value]; a [bool] is written as [1]
    or [0]. *)
Definition stream_value (E : Externals) (v : Value) : string :=
  match v with
  | VInt n => int_to_string n
  | VDouble d => ext_format_double E d
  | VString s => s
  | VBool b => if b then "1" else "0"
  end.

(** ** Functions (interpreter/functions.cpp) *)

Module Functions.

Section WithExternals.

Variable E : Externals.

Definition arity_error (name : string) : string :=
  name +:+ " function requires exactly 1 argument".

(** The common shape of the one-argument mathematical built-ins. *)
Definition math1 (name : string) (f : float -> Except Value) (args : list Value)
  : Except Value :=
  match args with
  | [a] =>
      match a with
      | VInt _ | VDouble _ => f (RuntimeOps.numeric_or 0%float a)
      | _ => Return (VDouble 0%float)
      end
  | _ => Raise (arity_error name)
  end.

Definition abs (args : list Value) : Except Value :=
  match args with
  | [VInt v] => Return (VInt (wrap32 (Z.abs v)))
  | [VDouble v] => Return (VDouble (PrimFloat.abs v))
  | [_] => Return (VInt 0)
  | _ => Raise (arity_error "ABS")
  end.

Definition sin := math1 "SIN" (fun d => Return (VDouble (ext_sin E d))).
Definition cos := math1 "COS" (fun d => Return (VDouble (ext_cos E d))).
Definition tan := math1 "TAN" (fun d => Return (VDouble (ext_tan E d))).

Definition sqrt :=
  math1 "SQRT" (fun val =>
    if PrimFloat.ltb val 0%float then Raise "SQRT of negative number"
    else Return (VDouble (PrimFloat.sqrt val))).

Definition log :=
  math1 "LOG" (fun val =>
    if PrimFloat.leb val 0%float then Raise "LOG of non-positive number"
    else Return (VDouble (ext_log E val))).

Definition exp := math1 "EXP" (fun d => Return (VDouble (ext_exp E d))).

Definition len (args : list Value) : Except Value :=
  match args with
  | [VString v] => Return (VInt (wrap32 (strlen v)))
  | [_] => Return (VInt 0)
  | _ => Raise (arity_error "LEN")
  end.

(** The visitors of [mid], [left], [right] and [val] on their arguments. *)
Definition string_or_empty (v : Value) : string :=
  match v with VString s => s | _ => EmptyString end.

Definition int_or_zero (v : Value) : Z :=
  match v with
  | VInt n => n
  | VDouble d => double_to_int d
  | _ => 0
  end.

(** [s.substr(pos, count)] for [pos <= s.length()]. *)
Definition substr (s : string) (pos count : Z) : string :=
  String.substring (Z.to_nat pos) (Z.to_nat (Z.min count (strlen s - pos))) s.

(** [size_t] arithmetic is modulo [2^64]. *)
Definition wrap_size (z : Z) : Z := z mod 2 ^ 64.

Definition mid (args : list Value) : Except Value :=
  match args with
  | a0 :: a1 :: rest =>
      match rest with
      | [] | [_] =>
          let str := string_or_empty a0 in
          let start := int_or_zero a1 in
          let length :=
            match rest with
            | [a2] => int_or_zero a2
            | _ => wrap32 (wrap_size (strlen str - start + 1))
            end in
          if (start <? 1) || (wrap32 (strlen str) <? start) then Return (VString EmptyString)
          else
            let startPos := start - 1 in
            let endPos := Z.min (wrap_size (startPos + length)) (strlen str) in
            Return (VString (substr str startPos (wrap_size (endPos - startPos))))
      | _ => Raise "MID function requires 2 or 3 arguments"
      end
  | _ => Raise "MID function requires 2 or 3 arguments"
  end.

Definition left (args : list Value) : Except Value :=
  match args with
  | [a0; a1] =>
      let str := string_or_empty a0 in
      let length := int_or_zero a1 in
      if length <=? 0 then Return (VString EmptyString)
      else if wrap32 (strlen str) <=? length then Return (VString str)
      else Return (VString (substr str 0 length))
  | _ => Raise "LEFT function requires exactly 2 arguments"
  end.

Definition right (args : list Value) : Except Value :=
  match args with
  | [a0; a1] =>
      let str := string_or_empty a0 in
      let length := int_or_zero a1 in
      if length <=? 0 then Return (VString EmptyString)
      else if wrap32 (strlen str) <=? length then Return (VString str)
      else Return (VString (substr str (strlen str - length) (strlen str)))
  | _ => Raise "RIGHT function requires exactly 2 arguments"
  end.

Definition val (args : list Value) : Except Value :=
  match args with
  | [a0] =>
      let str := string_or_empty a0 in
      if contains_char "." str then
        match ext_stod E str with
        | Some d => Return (VDouble d)
        | None => Return (VInt 0)
        end
      else
        match stoi str with
        | Some n => Return (VInt n)
        | None => Return (VInt 0)
        end
  | _ => Raise (arity_error "VAL")
  end.

Definition str (args : list Value) : Except Value :=
  match args with
  | [v] => Return (VString (stream_value E v))
  | _ => Raise (arity_error "STR")
  end.

(** [callBuiltin]; an "empty" [Value{}] stands for "not a built-in". *)
Definition callBuiltin (name : string) (args : list Value) : Except Value :=
  if String.eqb name "ABS" then abs args
  else if String.eqb name "SIN" then sin args
  else if String.eqb name "COS" then cos args
  else if String.eqb name "TAN" then tan args
  else if String.eqb name "SQRT" then sqrt args
  else if String.eqb name "LOG" then log args
  else if String.eqb name "EXP" then exp args
  else if String.eqb name "LEN" then len args
  else if String.eqb name "MID" then mid args
  else if String.eqb name "LEFT" then left args
  else if String.eqb name "RIGHT" then right args
  else if String.eqb name "VAL" then val args
  else if String.eqb name "STR" then str args
  else Return Value_default.

(** [Functions::call].  The test for "not a built-in" is [index() != 0]: the
    result of a built-in is returned when it is not an [int]. *)
Definition call (functions_ : gmap string string) (name : string) (args : list Value)
    (variables : gmap string Value) : Except Value :=
  match callBuiltin name args with
  | Raise w => Raise w
  | Return builtinResult =>
      if negb (index builtinResult =? 0)%nat then Return builtinResult
      else if bool_decide (is_Some (functions_ !! name)) then Return (VInt 0)
      else
        match args with
        | [] =>
            if Variables.exists_ name variables then Return (Variables.get name variables)
            else Raise ("Symbol '" +:+ name +:+ "' not defined")
        | _ => Raise ("Function '" +:+ name +:+ "' not defined")
        end
  end.

End WithExternals.
End Functions.

(** ** Runtime (interpreter/runtime.cpp) *)

(** What the program has written: text on [std::cout], or a call
    [sendOutputEvent(category, output)] on the attached debug server. *)
Inductive Output : Type :=
| ToConsole (text : string)
| ToDebugServer (category output : string).

(** What [executePrintStatement] does with the text it has built.  With a
    debug server attached and running it calls
    [sendOutputEvent(oss.str(), "stdout")]: the text is the first argument,
    which [sendOutputEvent(category, output)] takes as the category, and
    ["stdout"] the second, taken as the output.  Otherwise the text goes to
    [std::cout]. *)
Definition sink (dap_running : bool) (text : string) : Output :=
  if dap_running then ToDebugServer text "stdout" else ToConsole text.

(** The state a statement runs on: the variable store, the lines still to be
    read on [std::cin], and what was written so far, oldest first. *)
Record RtState : Type := mkRtState {
  rt_variables : gmap string Value;
  rt_cin : list string;
  rt_out : list Output
}.

Module Runtime.

Import RuntimeOps.

Section WithExternals.

Variable E : Externals.
(** The function table, which no statement changes. *)
Variable functions : gmap string string.
(** [g_dapServer && g_dapServer->isRunning()]. *)
Variable dap_running : bool.

Definition R (A : Type) : Type := M RtState A.

Definition set_variable (name : string) (value : Value) : R unit :=
  modify (fun s => mkRtState (Variables.set name value (rt_variables s)) (rt_cin s) (rt_out s)).

Definition get_variable (name : string) : R Value :=
  fun s => Ok (Variables.get name (rt_variables s)) s.

Definition write (o : Output) : R unit :=
  modify (fun s => mkRtState (rt_variables s) (rt_cin s) (rt_out s ++ [o])).

(** [std::getline(std::cin, input)]: the next line, or the empty string at
    the end of the input. *)
Definition getline : R string :=
  fun s =>
    match rt_cin s with
    | l :: rest => Ok l (mkRtState (rt_variables s) rest (rt_out s))
    | [] => Ok EmptyString s
    end.

(** The text [executePrintStatement] builds in [oss]: the values separated by
    one space, then [std::endl]. *)
Fixpoint join_values (values : list Value) : string :=
  match values with
  | [] => EmptyString
  | [v] => stream_value E v
  | v :: rest => stream_value E v +:+ " " +:+ join_values rest
  end.

Definition print_text (values : list Value) : string :=
  join_values values +:+ string_of_char Char.newline.

Definition unary (operator_ : TokenType) (operand : Value) : Value :=
  match operator_ with
  | MINUS =>
      match operand with
      | VInt v => VInt (wrap32 (- v))
      | VDouble v => VDouble (PrimFloat.opp v)
      | _ => VInt 0
      end
  | NOT => VBool (negb (isTruthy operand))
  | _ => operand
  end.

(** The [switch] of [executeBinaryExpression] on two evaluated operands. *)
Definition binary (operator_ : TokenType) (l r : Value) : Except Value :=
  match operator_ with
  | PLUS => Return (add l r)
  | MINUS => Return (subtract l r)
  | MULTIPLY => Return (multiply l r)
  | DIVIDE => divide l r
  | MOD => modulo E l r
  | POWER => Return (power E l r)
  | EQUAL => Return (VBool (isEqual l r))
  | NOT_EQUAL => Return (VBool (negb (isEqual l r)))
  | LESS => Return (VBool (isLessThan l r))
  | LESS_EQUAL => Return (VBool (isLessThan l r || isEqual l r))
  | GREATER => Return (VBool (isGreaterThan l r))
  | GREATER_EQUAL => Return (VBool (isGreaterThan l r || isEqual l r))
  | _ => Return Value_default
  end.

(** The conversion of the line read by [INPUT]. *)
Definition input_value (input : string) : Value :=
  if contains_char "." input then
    match ext_stod E input with
    | Some d => VDouble d
    | None => VString input
    end
  else
    match stoi input with
    | Some n => VInt n
    | None => VString input
    end.

(** Evaluation of a list of nodes in order. *)
Fixpoint execute_all (exec : option ASTNode -> R Value) (nodes : list ASTNode)
  : R (list Value) :=
  match nodes with
  | [] => ret []
  | n :: rest =>
      let* v := exec (Some n) in
      let* vs := execute_all exec rest in
      ret (v :: vs)
  end.

(** [executeProgram]: the value of the last statement, [Value{}] when there
    is none. *)
Fixpoint execute_sequence (exec : option ASTNode -> R Value) (result : Value)
    (statements : list ASTNode) : R Value :=
  match statements with
  | [] => ret result
  | st :: rest =>
      let* v := exec (Some st) in
      execute_sequence exec v rest
  end.

(** [Runtime::execute] and the functions it dispatches to, first with the
    calls they make to each other left open. *)
Section Calls.

Variable execute : option ASTNode -> R Value.
Variable for_loop : string -> float -> float -> option ASTNode -> R Value.
Variable while_loop : ASTNode -> option ASTNode -> R Value.

(** The [switch] of [execute] and the [execute...] function of each case. *)
Definition execute_node (node : option ASTNode) : R Value :=
  match node with
  | None => ret Value_default
  | Some (ProgramNode statements) =>
      execute_sequence execute Value_default statements
  | Some (LetStatementNode _ variableName value) =>
      let* v := execute (Some value) in
      let* _ := set_variable variableName v in
      ret v
  | Some (IfStatementNode _ condition thenStatement elseStatement) =>
      let* c := execute (Some condition) in
      if isTruthy c then execute thenStatement
      else
        match elseStatement with
        | Some _ => execute elseStatement
        | None => ret Value_default
        end
  | Some (ForStatementNode _ variableName startValue endValue stepValue body) =>
      let* start := execute (Some startValue) in
      let* end_ := execute (Some endValue) in
      let* step :=
        match stepValue with
        | Some _ => execute stepValue
        | None => ret (VInt 1)
        end in
      let startVal := numeric_or 0%float start in
      let endVal := numeric_or 0%float end_ in
      let stepVal := numeric_or 1%float step in
      let* _ := set_variable variableName (VDouble startVal) in
      for_loop variableName endVal stepVal body
  | Some NextStatementNode => ret Value_default
  | Some (WhileStatementNode _ condition body) =>
      while_loop condition body
  | Some (PrintStatementNode _ expressions) =>
      let* values := execute_all execute expressions in
      let text := print_text values in
      let* _ := write (sink dap_running text) in
      ret Value_default
  | Some (InputStatementNode _ prompt variableName) =>
      let* _ :=
        (if negb (String.eqb prompt EmptyString) then write (ToConsole prompt)
         else ret tt) in
      let* input := getline in
      let* _ := set_variable variableName (input_value input) in
      ret Value_default
  | Some (FunctionCallNode functionName arguments) =>
      let* args := execute_all execute arguments in
      let* s := get_state in
      lift_except (Functions.call E functions functionName args (rt_variables s))
  | Some (BinaryExpressionNode operator_ lhs rhs) =>
      let* l := execute (Some lhs) in
      let* r := execute (Some rhs) in
      lift_except (binary operator_ l r)
  | Some (UnaryExpressionNode operator_ operand) =>
      let* v := execute (Some operand) in
      ret (unary operator_ v)
  | Some (LiteralNode value) => ret value
  | Some (IdentifierNode name) => get_variable name
  end.

(** One turn of the [while (true)] of [executeForStatement], from the reading
    of the loop variable. *)
Definition for_turn (variableName : string) (endVal stepVal : float)
    (body : option ASTNode) : R Value :=
  let* current := get_variable variableName in
  let currentVal := numeric_or 0%float current in
  if PrimFloat.ltb 0%float stepVal && PrimFloat.ltb endVal currentVal then ret Value_default
  else if PrimFloat.ltb stepVal 0%float && PrimFloat.ltb currentVal endVal then ret Value_default
  else
    let* _ := execute body in
    let* _ := set_variable variableName (VDouble (currentVal + stepVal)%float) in
    for_loop variableName endVal stepVal body.

(** One turn of the loop of [executeWhileStatement]. *)
Definition while_turn (condition : ASTNode) (body : option ASTNode) : R Value :=
  let* c := execute (Some condition) in
  if isTruthy c then
    let* _ := execute body in
    while_loop condition body
  else ret Value_default.

End Calls.

(** The calls closed: [fuel] bounds the depth of the calls and the turns of
    the loops of [FOR] and [WHILE]. *)
Fixpoint execute (fuel : nat) (node : option ASTNode) : R Value :=
  match fuel with
  | O => fun _ => OutOfFuel
  | S fuel' => execute_node (execute fuel') (for_loop fuel') (while_loop fuel') node
  end

with for_loop (fuel : nat) (variableName : string) (endVal stepVal : float)
    (body : option ASTNode) : R Value :=
  match fuel with
  | O => fun _ => OutOfFuel
  | S fuel' => for_turn (execute fuel') (for_loop fuel') variableName endVal stepVal body
  end

with while_loop (fuel : nat) (condition : ASTNode) (body : option ASTNode) : R Value :=
  match fuel with
  | O => fun _ => OutOfFuel
  | S fuel' => while_turn (execute fuel') (while_loop fuel') condition body
  end.

End WithExternals.
End Runtime.

(** ** The interpreter session (interpreter/basic_interpreter.cpp) *)

(** [std::getline] on a [std::istringstream], to the end: the text between
    the ['\n'], with no empty last line after a final ['\n']. *)
Fixpoint split_lines_from (current : string) (source : string) : list string :=
  match source with
  | EmptyString =>
      if String.eqb current EmptyString then [] else [current]
  | String ch rest =>
      if Ascii.eqb ch Char.newline then current :: split_lines_from EmptyString rest
      else split_lines_from (current +:+ string_of_char ch) rest
  end.

Definition split_lines (source : string) : list string :=
  split_lines_from EmptyString source.

Fixpoint span_while (p : ascii -> bool) (s : string) : string * string :=
  match s with
  | String c rest =>
      if p c then let '(a, b) := span_while p rest in (String c a, b) else (EmptyString, s)
  | EmptyString => (EmptyString, EmptyString)
  end.

(** A line terminator of the regular-expression grammar, which [.] does not
    match. *)
Definition is_line_terminator (c : ascii) : bool :=
  Ascii.eqb c Char.newline || Ascii.eqb c Char.cr.

(** [std::regex_match] of the line with the expression of [executeLine]
    (blanks, a group of one or more digits, blanks, a group of any
    characters): the second group when the line matches.  The greedy blanks and digits are followed by a
    rest that [.*] matches whole exactly when it has no line terminator. *)
Definition match_line_number (line : string) : option string :=
  let '(_, s1) := span_while Char.isspace line in
  let '(digits, s2) := span_while Char.isdigit s1 in
  if String.eqb digits EmptyString then None
  else
    let '(_, s3) := span_while Char.isspace s2 in
    let '(body, terminated) := span_while (fun c => negb (is_line_terminator c)) s3 in
    if String.eqb terminated EmptyString then Some body else None.

Module BasicInterpreter.

Record t : Type := mk {
  source_ : string;
  lines_ : list string;
  currentLine_ : Z;
  running_ : bool;
  lastError_ : string;
  debugging_ : bool;
  breakpoints_ : gset Z;
  paused_ : bool;
  variables_ : gmap string Value;
  functions_ : gmap string string
}.

(** [BasicInterpreter::BasicInterpreter()]. *)
Definition initial : t :=
  mk EmptyString [] 0 false EmptyString false ∅ false ∅ ∅.

Definition with_lastError_ (e : string) (i : t) : t :=
  mk (source_ i) (lines_ i) (currentLine_ i) (running_ i) e (debugging_ i)
     (breakpoints_ i) (paused_ i) (variables_ i) (functions_ i).

Definition with_paused_ (p : bool) (i : t) : t :=
  mk (source_ i) (lines_ i) (currentLine_ i) (running_ i) (lastError_ i) (debugging_ i)
     (breakpoints_ i) p (variables_ i) (functions_ i).

Definition with_currentLine_ (l : Z) (i : t) : t :=
  mk (source_ i) (lines_ i) l (running_ i) (lastError_ i) (debugging_ i)
     (breakpoints_ i) (paused_ i) (variables_ i) (functions_ i).

Definition with_variables_ (v : gmap string Value) (i : t) : t :=
  mk (source_ i) (lines_ i) (currentLine_ i) (running_ i) (lastError_ i) (debugging_ i)
     (breakpoints_ i) (paused_ i) v (functions_ i).

Definition with_breakpoints_ (b : gset Z) (i : t) : t :=
  mk (source_ i) (lines_ i) (currentLine_ i) (running_ i) (lastError_ i) (debugging_ i)
     b (paused_ i) (variables_ i) (functions_ i).

Definition with_functions_ (f : gmap string string) (i : t) : t :=
  mk (source_ i) (lines_ i) (currentLine_ i) (running_ i) (lastError_ i) (debugging_ i)
     (breakpoints_ i) (paused_ i) (variables_ i) f.

(** The interpreter together with the streams its statements read and write:
    the lines to come on [std::cin] and what was written, oldest first. *)
Record Session : Type := mkSession {
  interp : t;
  cin : list string;
  written : list Output
}.

Definition S' (A : Type) : Type := M Session A.

Definition on_interp (f : t -> t) : S' unit :=
  modify (fun s => mkSession (f (interp s)) (cin s) (written s)).

(** Runs a computation of the runtime on the session's variables and
    streams. *)
Definition run_runtime {A} (m : Runtime.R A) : S' A :=
  fun s =>
    match m (mkRtState (variables_ (interp s)) (cin s) (written s)) with
    | Ok a r =>
        Ok a (mkSession (with_variables_ (rt_variables r) (interp s)) (rt_cin r) (rt_out r))
    | Throw w r =>
        Throw w (mkSession (with_variables_ (rt_variables r) (interp s)) (rt_cin r) (rt_out r))
    | OutOfFuel => OutOfFuel
    end.

Section WithExternals.

Variable E : Externals.
(** [g_dapServer && g_dapServer->isRunning()]. *)
Variable dap_running : bool.
(** The steps allowed to the statement that is run. *)
Variable fuel : nat.

(** [loadProgram]: the lines are split, the cursor is reset, and the program
    is lexed and parsed for its errors only. *)
Definition loadProgram (source : string) : S' bool :=
  let* _ := on_interp (fun i =>
    mk source (split_lines source) 0 (running_ i) EmptyString (debugging_ i)
       (breakpoints_ i) (paused_ i) (variables_ i) (functions_ i)) in
  match Lexer.tokenize source with
  | Raise w => let* _ := on_interp (with_lastError_ w) in ret false
  | Return tokens =>
      match ParserEntry.parse E tokens with
      | Ok _ _ => ret true
      | Throw w _ => let* _ := on_interp (with_lastError_ w) in ret false
      | OutOfFuel => fun _ => OutOfFuel
      end
  end.

(** The [try] block of [executeLine]. *)
Definition executeLine_body (line : string) : S' bool :=
  let code := match match_line_number line with Some c => c | None => line end in
  match code with
  | EmptyString => ret true
  | String c _ =>
      if Ascii.eqb c "'" then ret true
      else
        let* tokens := lift_except (Lexer.tokenize code) in
        match tokens with
        | [] => ret true
        | _ =>
            match ParserEntry.parseLine E tokens with
            | Ok None _ =>
                let* _ := on_interp (with_lastError_ ("Failed to parse line: " +:+ line)) in
                ret false
            | Ok (Some ast) _ =>
                let* s := get_state in
                let* _ := run_runtime
                  (Runtime.execute E (functions_ (interp s)) dap_running fuel (Some ast)) in
                ret true
            | Throw w _ => throw w
            | OutOfFuel => fun _ => OutOfFuel
            end
        end
  end.

Definition executeLine (line : string) : S' bool :=
  if String.eqb line EmptyString then ret true
  else
    try_catch (executeLine_body line)
      (fun what =>
         let* _ := on_interp (with_lastError_ ("Error executing line: " +:+ what)) in
         ret false).

(** [evaluateExpression]; its exceptions are the caller's. *)
Definition evaluateExpression (expr : string) : S' Value :=
  let* tokens := lift_except (Lexer.tokenize expr) in
  match tokens with
  | [] => throw "Empty or invalid expression"
  | _ =>
      match ParserEntry.parseLine E tokens with
      | Ok None _ => throw "Failed to parse expression"
      | Ok (Some ast) _ =>
          let* s := get_state in
          run_runtime (Runtime.execute E (functions_ (interp s)) dap_running fuel (Some ast))
      | Throw w _ => throw w
      | OutOfFuel => fun _ => OutOfFuel
      end
  end.

(** [step].  In [currentLine_ < lines_.size()] and in [lines_[currentLine_]]
    the cursor is converted to [size_t], which takes a negative cursor to a
    position from [2^63] on: no line is run there. *)
Definition step : S' unit :=
  let* s := get_state in
  if paused_ (interp s) then
    let* _ := on_interp (with_paused_ false) in
    let position := Functions.wrap_size (currentLine_ (interp s)) in
    let* _ :=
      (if position <? Z.of_nat (length (lines_ (interp s))) then
         let* _ := executeLine (nth (Z.to_nat position) (lines_ (interp s)) EmptyString) in
         on_interp (fun i => with_currentLine_ (currentLine_ i + 1) i)
       else ret tt) in
    on_interp (with_paused_ true)
  else ret tt.

End WithExternals.

Definition continueExecution (i : t) : t := with_paused_ false i.
Definition pause (i : t) : t := with_paused_ true i.
Definition setBreakpoint (line : Z) (i : t) : t := with_breakpoints_ ({[line]} ∪ breakpoints_ i) i.
Definition removeBreakpoint (line : Z) (i : t) : t := with_breakpoints_ (breakpoints_ i ∖ {[line]}) i.
Definition setVariable (name : string) (value : Value) (i : t) : t :=
  with_variables_ (Variables.set name value (variables_ i)) i.
Definition getVariable (name : string) (i : t) : Value := Variables.get name (variables_ i).
Definition defineFunction (name body : string) (i : t) : t :=
  with_functions_ (<[name := body]> (functions_ i)) i.

(** Convert to 1-based line numbers. *)
Definition getCurrentLine (i : t) : Z := currentLine_ i + 1.

(** Modelled from the spec: [BasicInterpreter::cleanup], which
    [DAPServer::handleDisconnect] calls and the sources neither declare nor
    define.  The spec has the program session "destroyed/cleared on
    disconnect" and a launch after a disconnect start from an empty variable
    store: the loaded program, the cursor, the error, the breakpoints, the
    variables and the user-defined functions are cleared.  The server below
    takes the function as a parameter; this one instantiates it in closed
    examples. *)
Definition cleanup_by_spec (i : t) : t := initial.

End BasicInterpreter.

(** ** JSON documents (the part of nlohmann::json the server uses)

    Numbers are the integers; an object keeps its members in the order they
    were added.  The accessors throw where the library throws
    ([json::type_error]); the [const] subscript on an object that lacks the
    key is an assertion of the library, which ends the computation as an
    exception does. *)

#[local] Unset Elimination Schemes.
Inductive json : Type :=
| JNull
| JBool (b : bool)
| JNumber (n : Z)
| JString (s : string)
| JArray (items : list json)
| JObject (members : list (string * json)).
#[local] Set Elimination Schemes.

Module Json.

Definition type_name (j : json) : string :=
  match j with
  | JNull => "null"
  | JBool _ => "boolean"
  | JNumber _ => "number"
  | JString _ => "string"
  | JArray _ => "array"
  | JObject _ => "object"
  end.

Fixpoint lookup (key : string) (members : list (string * json)) : option json :=
  match members with
  | [] => None
  | (k, v) :: rest => if String.eqb k key then Some v else lookup key rest
  end.

Fixpoint assign (key : string) (v : json) (members : list (string * json))
  : list (string * json) :=
  match members with
  | [] => [(key, v)]
  | (k, x) :: rest => if String.eqb k key then (k, v) :: rest else (k, x) :: assign key v rest
  end.

Definition is_null (j : json) : bool := match j with JNull => true | _ => false end.
Definition is_string (j : json) : bool := match j with JString _ => true | _ => false end.
Definition is_object (j : json) : bool := match j with JObject _ => true | _ => false end.

(** [j.empty()]. *)
Definition empty (j : json) : bool :=
  match j with
  | JNull | JArray [] | JObject [] => true
  | _ => false
  end.

(** [j.contains(key)]. *)
Definition contains (j : json) (key : string) : bool :=
  match j with
  | JObject members => bool_decide (is_Some (lookup key members))
  | _ => false
  end.

(** [j[key]] on a [const json&]. *)
Definition at_ (j : json) (key : string) : Except json :=
  match j with
  | JObject members =>
      match lookup key members with
      | Some v => Return v
      | None => Raise "assertion failed: key not found"
      end
  | _ =>
      Raise ("[json.exception.type_error.305] cannot use operator[] with a string argument with "
             +:+ type_name j)
  end.

(** [j[key] = v] on a [json] that is null or an object. *)
Definition set (key : string) (v : json) (j : json) : json :=
  match j with
  | JObject members => JObject (assign key v members)
  | _ => JObject [(key, v)]
  end.

(** [j.push_back(v)] on a [json] that is null or an array. *)
Definition push_back (v : json) (j : json) : json :=
  match j with
  | JArray items => JArray (items ++ [v])
  | _ => JArray [v]
  end.

(** The conversion to [std::string]. *)
Definition get_string (j : json) : Except string :=
  match j with
  | JString s => Return s
  | _ => Raise ("[json.exception.type_error.302] type must be string, but is " +:+ type_name j)
  end.

(** The conversion to [int]. *)
Definition get_int (j : json) : Except Z :=
  match j with
  | JNumber n => Return (wrap32 n)
  | JBool b => Return (if b then 1 else 0)
  | _ => Raise ("[json.exception.type_error.302] type must be number, but is " +:+ type_name j)
  end.

(** [j[key]] on a [json] that is not [const]: a missing member reads as
    null. *)
Definition at_mutable (j : json) (key : string) : Except json :=
  match j with
  | JObject members =>
      match lookup key members with
      | Some v => Return v
      | None => Return JNull
      end
  | JNull => Return JNull
  | _ =>
      Raise ("[json.exception.type_error.305] cannot use operator[] with a string argument with "
             +:+ type_name j)
  end.

(** The elements a range-based [for] visits. *)
Definition elements (j : json) : list json :=
  match j with
  | JNull => []
  | JArray items => items
  | JObject members => map snd members
  | _ => [j]
  end.

End Json.

(** ** The debug adapter (dap/dap_server.h, dap/dap_server.cpp) *)

Inductive DAPMessageType : Set := REQUEST | RESPONSE | EVENT.

Record DAPMessage : Type := mkDAPMessage {
  msg_type : DAPMessageType;
  msg_command : string;
  msg_arguments : json;
  msg_id : json;
  msg_result : json;
  msg_error : json;
  msg_event : string;
  msg_body : json
}.

Record Breakpoint : Type := mkBreakpoint {
  bp_id : Z;
  bp_verified : bool;
  bp_message : string;
  bp_line : Z;
  bp_column : Z;
  bp_source : string
}.

(** What the server has sent: text on [std::cout], or a framed message (the
    [Content-Length] header and the document) on [std::cout] or on the client
    socket. *)
Inductive Wire : Type :=
| StdoutText (text : string)
| StdoutFrame (content : json)
| SocketFrame (content : json).

(** What the operating system answers to the calls of [start(port)]. *)
Record NetEnv : Type := mkNetEnv {
  net_socket : Z;
  net_setsockopt : Z;
  net_bind : Z;
  net_listen : Z;
  net_accept : Z
}.

Record Server : Type := mkServer {
  running_ : bool;
  debugging_ : bool;
  paused_ : bool;
  currentThread_ : Z;
  currentLine_ : Z;
  currentSource_ : string;
  serverSocket_ : Z;
  clientSocket_ : Z;
  useNetwork_ : bool;
  port_ : Z;
  checkConnection_ : bool;
  enableLogging_ : bool;
  stepMode_ : bool;
  runTillStop_ : bool;
  breakpoints_ : gmap string (gset Z);
  breakpointMap_ : gmap Z Breakpoint;
  nextBreakpointId_ : Z;
  sources_ : gmap string string
}.

(** The server, the interpreter that [main] registers with [setInterpreter]
    (so that [getInterpreter()] is not null), and their environment: the
    lines to come on [std::cin], what was sent, the files that can be read
    and the network.  [std::cerr] is not modelled. *)
Record World : Type := mkWorld {
  server : Server;
  interpreter : BasicInterpreter.t;
  w_cin : list string;
  w_out : list Wire;
  w_files : gmap string string;
  w_net : NetEnv
}.

Module DAPServer.

Definition set_running_ (x : bool) (s : Server) : Server :=
  mkServer x (debugging_ s) (paused_ s) (currentThread_ s) (currentLine_ s)
    (currentSource_ s) (serverSocket_ s) (clientSocket_ s) (useNetwork_ s) (port_ s)
    (checkConnection_ s) (enableLogging_ s) (stepMode_ s) (runTillStop_ s) (breakpoints_
    s) (breakpointMap_ s) (nextBreakpointId_ s) (sources_ s).
Definition set_debugging_ (x : bool) (s : Server) : Server :=
  mkServer (running_ s) x (paused_ s) (currentThread_ s) (currentLine_ s)
    (currentSource_ s) (serverSocket_ s) (clientSocket_ s) (useNetwork_ s) (port_ s)
    (checkConnection_ s) (enableLogging_ s) (stepMode_ s) (runTillStop_ s) (breakpoints_
    s) (breakpointMap_ s) (nextBreakpointId_ s) (sources_ s).
Definition set_paused_ (x : bool) (s : Server) : Server :=
  mkServer (running_ s) (debugging_ s) x (currentThread_ s) (currentLine_ s)
    (currentSource_ s) (serverSocket_ s) (clientSocket_ s) (useNetwork_ s) (port_ s)
    (checkConnection_ s) (enableLogging_ s) (stepMode_ s) (runTillStop_ s) (breakpoints_
    s) (breakpointMap_ s) (nextBreakpointId_ s) (sources_ s).
Definition set_currentLine_ (x : Z) (s : Server) : Server :=
  mkServer (running_ s) (debugging_ s) (paused_ s) (currentThread_ s) x
    (currentSource_ s) (serverSocket_ s) (clientSocket_ s) (useNetwork_ s) (port_ s)
    (checkConnection_ s) (enableLogging_ s) (stepMode_ s) (runTillStop_ s) (breakpoints_
    s) (breakpointMap_ s) (nextBreakpointId_ s) (sources_ s).
Definition set_currentSource_ (x : string) (s : Server) : Server :=
  mkServer (running_ s) (debugging_ s) (paused_ s) (currentThread_ s) (currentLine_ s)
    x (serverSocket_ s) (clientSocket_ s) (useNetwork_ s) (port_ s) (checkConnection_ s)
    (enableLogging_ s) (stepMode_ s) (runTillStop_ s) (breakpoints_ s) (breakpointMap_
    s) (nextBreakpointId_ s) (sources_ s).
Definition set_serverSocket_ (x : Z) (s : Server) : Server :=
  mkServer (running_ s) (debugging_ s) (paused_ s) (currentThread_ s) (currentLine_ s)
    (currentSource_ s) x (clientSocket_ s) (useNetwork_ s) (port_ s) (checkConnection_
    s) (enableLogging_ s) (stepMode_ s) (runTillStop_ s) (breakpoints_ s)
    (breakpointMap_ s) (nextBreakpointId_ s) (sources_ s).
Definition set_clientSocket_ (x : Z) (s : Server) : Server :=
  mkServer (running_ s) (debugging_ s) (paused_ s) (currentThread_ s) (currentLine_ s)
    (currentSource_ s) (serverSocket_ s) x (useNetwork_ s) (port_ s) (checkConnection_
    s) (enableLogging_ s) (stepMode_ s) (runTillStop_ s) (breakpoints_ s)
    (breakpointMap_ s) (nextBreakpointId_ s) (sources_ s).
Definition set_useNetwork_ (x : bool) (s : Server) : Server :=
  mkServer (running_ s) (debugging_ s) (paused_ s) (currentThread_ s) (currentLine_ s)
    (currentSource_ s) (serverSocket_ s) (clientSocket_ s) x (port_ s) (checkConnection_
    s) (enableLogging_ s) (stepMode_ s) (runTillStop_ s) (breakpoints_ s)
    (breakpointMap_ s) (nextBreakpointId_ s) (sources_ s).
Definition set_port_ (x : Z) (s : Server) : Server :=
  mkServer (running_ s) (debugging_ s) (paused_ s) (currentThread_ s) (currentLine_ s)
    (currentSource_ s) (serverSocket_ s) (clientSocket_ s) (useNetwork_ s) x
    (checkConnection_ s) (enableLogging_ s) (stepMode_ s) (runTillStop_ s) (breakpoints_
    s) (breakpointMap_ s) (nextBreakpointId_ s) (sources_ s).
Definition set_checkConnection_ (x : bool) (s : Server) : Server :=
  mkServer (running_ s) (debugging_ s) (paused_ s) (currentThread_ s) (currentLine_ s)
    (currentSource_ s) (serverSocket_ s) (clientSocket_ s) (useNetwork_ s) (port_ s) x
    (enableLogging_ s) (stepMode_ s) (runTillStop_ s) (breakpoints_ s) (breakpointMap_
    s) (nextBreakpointId_ s) (sources_ s).
Definition set_enableLogging_ (x : bool) (s : Server) : Server :=
  mkServer (running_ s) (debugging_ s) (paused_ s) (currentThread_ s) (currentLine_ s)
    (currentSource_ s) (serverSocket_ s) (clientSocket_ s) (useNetwork_ s) (port_ s)
    (checkConnection_ s) x (stepMode_ s) (runTillStop_ s) (breakpoints_ s)
    (breakpointMap_ s) (nextBreakpointId_ s) (sources_ s).
Definition set_runTillStop_ (x : bool) (s : Server) : Server :=
  mkServer (running_ s) (debugging_ s) (paused_ s) (currentThread_ s) (currentLine_ s)
    (currentSource_ s) (serverSocket_ s) (clientSocket_ s) (useNetwork_ s) (port_ s)
    (checkConnection_ s) (enableLogging_ s) (stepMode_ s) x (breakpoints_ s)
    (breakpointMap_ s) (nextBreakpointId_ s) (sources_ s).
Definition set_breakpoints_ (x : gmap string (gset Z)) (s : Server) : Server :=
  mkServer (running_ s) (debugging_ s) (paused_ s) (currentThread_ s) (currentLine_ s)
    (currentSource_ s) (serverSocket_ s) (clientSocket_ s) (useNetwork_ s) (port_ s)
    (checkConnection_ s) (enableLogging_ s) (stepMode_ s) (runTillStop_ s) x
    (breakpointMap_ s) (nextBreakpointId_ s) (sources_ s).
Definition set_breakpointMap_ (x : gmap Z Breakpoint) (s : Server) : Server :=
  mkServer (running_ s) (debugging_ s) (paused_ s) (currentThread_ s) (currentLine_ s)
    (currentSource_ s) (serverSocket_ s) (clientSocket_ s) (useNetwork_ s) (port_ s)
    (checkConnection_ s) (enableLogging_ s) (stepMode_ s) (runTillStop_ s) (breakpoints_
    s) x (nextBreakpointId_ s) (sources_ s).
Definition set_nextBreakpointId_ (x : Z) (s : Server) : Server :=
  mkServer (running_ s) (debugging_ s) (paused_ s) (currentThread_ s) (currentLine_ s)
    (currentSource_ s) (serverSocket_ s) (clientSocket_ s) (useNetwork_ s) (port_ s)
    (checkConnection_ s) (enableLogging_ s) (stepMode_ s) (runTillStop_ s) (breakpoints_
    s) (breakpointMap_ s) x (sources_ s).
Definition set_sources_ (x : gmap string string) (s : Server) : Server :=
  mkServer (running_ s) (debugging_ s) (paused_ s) (currentThread_ s) (currentLine_ s)
    (currentSource_ s) (serverSocket_ s) (clientSocket_ s) (useNetwork_ s) (port_ s)
    (checkConnection_ s) (enableLogging_ s) (stepMode_ s) (runTillStop_ s) (breakpoints_
    s) (breakpointMap_ s) (nextBreakpointId_ s) x.

(** [DAPServer::DAPServer()], before [setupHandlers]. *)
Definition initial : Server :=
  mkServer false false false 1 0 EmptyString (-1) (-1) false 4711 false false false false
    ∅ ∅ 1 ∅.

Definition H (A : Type) : Type := M World A.

Definition on_server (f : Server -> Server) : H unit :=
  modify (fun w => mkWorld (f (server w)) (interpreter w) (w_cin w) (w_out w) (w_files w) (w_net w)).

Definition on_interpreter (f : BasicInterpreter.t -> BasicInterpreter.t) : H unit :=
  modify (fun w => mkWorld (server w) (f (interpreter w)) (w_cin w) (w_out w) (w_files w) (w_net w)).

Definition emit (items : list Wire) : H unit :=
  modify (fun w => mkWorld (server w) (interpreter w) (w_cin w) (w_out w ++ items) (w_files w) (w_net w)).

Definition the_server : H Server := fun w => Ok (server w) w.

Definition the_interpreter : H BasicInterpreter.t := fun w => Ok (interpreter w) w.

Definition the_network : H NetEnv := fun w => Ok (w_net w) w.

Definition jobject (members : list (string * json)) : json := JObject members.

(** [sendEvent]: the document goes to the socket in network mode (and is
    dropped by [sendNetwork] when no client is connected), to [std::cout]
    otherwise. *)
Definition event_document (event : string) (body : json) : json :=
  jobject [("type", JString "event"); ("event", JString event); ("body", body)].

Definition sendEvent (event : string) (body : json) : H unit :=
  let* s := the_server in
  if useNetwork_ s then
    if 0 <=? clientSocket_ s then emit [SocketFrame (event_document event body)] else ret tt
  else emit [StdoutFrame (event_document event body)].

(** The document [sendMessage] builds. *)
Definition message_document (message : DAPMessage) : json :=
  match msg_type message with
  | RESPONSE =>
      let r := jobject [("seq", JNumber 1); ("type", JString "response");
                        ("request_seq", msg_id message)] in
      let r := if negb (String.eqb (msg_command message) EmptyString)
               then Json.set "command" (JString (msg_command message)) r else r in
      let r := if negb (Json.is_null (msg_result message))
               then Json.set "body" (msg_result message) r else r in
      if negb (Json.is_null (msg_error message))
      then Json.set "message" (msg_error message) (Json.set "success" (JBool false) r)
      else Json.set "success" (JBool true) r
  | EVENT =>
      let r := jobject [("seq", JNumber 1); ("type", JString "event");
                        ("event", JString (msg_event message))] in
      if negb (Json.is_null (msg_body message)) then Json.set "body" (msg_body message) r else r
  | REQUEST => JNull
  end.

Definition sendMessage (message : DAPMessage) : H unit :=
  let* s := the_server in
  if useNetwork_ s && (0 <=? clientSocket_ s)
  then emit [SocketFrame (message_document message)]
  else emit [StdoutFrame (message_document message)].

Definition empty_message (type : DAPMessageType) : DAPMessage :=
  mkDAPMessage type EmptyString JNull JNull JNull JNull EmptyString JNull.

Definition createResponse (id result : json) : DAPMessage :=
  mkDAPMessage RESPONSE EmptyString JNull id result JNull EmptyString JNull.

Definition createErrorResponse (id : json) (code : Z) (message : string) : DAPMessage :=
  mkDAPMessage RESPONSE EmptyString JNull id JNull
    (jobject [("code", JNumber code); ("message", JString message)]) EmptyString JNull.

(** *** Events *)

Definition sendInitializedEvent : H unit := sendEvent "initialized" (jobject []).

Definition sendStoppedEvent (reason : string) (threadId line : Z) : H unit :=
  sendEvent "stopped"
    (jobject [("reason", JString reason); ("threadId", JNumber threadId);
              ("allThreadsStopped", JBool true); ("line", JNumber line)]).

Definition sendContinuedEvent (threadId : Z) : H unit :=
  sendEvent "continued"
    (jobject [("threadId", JNumber threadId); ("allThreadsContinued", JBool true)]).

Definition sendExitedEvent (exitCode : Z) : H unit :=
  sendEvent "exited" (jobject [("exitCode", JNumber exitCode)]).

Definition sendTerminatedEvent : H unit := sendEvent "terminated" (jobject []).

Definition sendOutputEvent (category output : string) : H unit :=
  sendEvent "output" (jobject [("category", JString category); ("output", JString output)]).

Definition Source_toJson (name path : string) (sourceReference : Z) : json :=
  let j := jobject [("name", JString name)] in
  let j := if negb (String.eqb path EmptyString) then Json.set "path" (JString path) j else j in
  if 0 <? sourceReference then Json.set "sourceReference" (JNumber sourceReference) j else j.

Definition sendLoadedSourceEvent (reason : string) (source : json) : H unit :=
  sendEvent "loadedSource" (jobject [("reason", JString reason); ("source", source)]).

Definition sendProcessEvent (name : string) (systemProcessId : Z) : H unit :=
  sendEvent "process"
    (jobject [("name", JString name); ("systemProcessId", JNumber systemProcessId);
              ("isLocalProcess", JBool true); ("startMethod", JString "launch")]).

(** *** Sources and breakpoints *)

Definition addSource (path content : string) : H unit :=
  on_server (fun s => set_currentSource_ path (set_sources_ (<[path := content]> (sources_ s)) s)).

Definition getSource (path : string) (s : Server) : string :=
  match sources_ s !! path with
  | Some content => content
  | None => EmptyString
  end.

(** [readFileContent]: the content of the file, empty when it cannot be
    opened. *)
Definition readFileContent (path : string) : H string :=
  fun w => Ok (match w_files w !! path with Some c => c | None => EmptyString end) w.

Definition setBreakpoint (source : string) (line : Z) : H unit :=
  on_server (fun s =>
    let lines := match breakpoints_ s !! source with Some l => l | None => ∅ end in
    let id := nextBreakpointId_ s in
    set_breakpointMap_ (<[id := mkBreakpoint id true EmptyString line 0 source]> (breakpointMap_ s))
      (set_nextBreakpointId_ (wrap32 (id + 1))
        (set_breakpoints_ (<[source := {[line]} ∪ lines]> (breakpoints_ s)) s))).

Definition removeBreakpoint (source : string) (line : Z) : H unit :=
  on_server (fun s =>
    match breakpoints_ s !! source with
    | Some lines => set_breakpoints_ (<[source := lines ∖ {[line]}]> (breakpoints_ s)) s
    | None => s
    end).

Definition clearBreakpoints : H unit :=
  on_server (fun s => set_breakpointMap_ ∅ (set_breakpoints_ ∅ s)).

Definition hasBreakpoint (source : string) (line : Z) (s : Server) : bool :=
  match breakpoints_ s !! source with
  | Some lines => bool_decide (line ∈ lines)
  | None => false
  end.

(** Returns true if we should pause at this line: step mode, or a breakpoint
    at this line in any source. *)
Definition shouldPauseAt (line : Z) (s : Server) : bool :=
  stepMode_ s
  || bool_decide (Exists (fun entry => line ∈ entry.2) (map_to_list (breakpoints_ s))).


(** *** The interpreter under the server *)

(** What a statement wrote reaches the client as the runtime addressed it:
    text on [std::cout], or [sendOutputEvent]. *)
Fixpoint deliver (written : list Output) : H unit :=
  match written with
  | [] => ret tt
  | ToConsole text :: rest => let* _ := emit [StdoutText text] in deliver rest
  | ToDebugServer category output :: rest =>
      let* _ := sendOutputEvent category output in deliver rest
  end.

Definition with_session (session : BasicInterpreter.Session) (w : World) : World :=
  mkWorld (server w) (BasicInterpreter.interp session) (BasicInterpreter.cin session)
    (w_out w) (w_files w) (w_net w).

(** Runs an operation of the interpreter on the server's world. *)
Definition run_session {A} (m : BasicInterpreter.S' A) : H A :=
  fun w =>
    match m (BasicInterpreter.mkSession (interpreter w) (w_cin w) []) with
    | Ok a session =>
        (let* _ := deliver (BasicInterpreter.written session) in ret a)
          (with_session session w)
    | Throw what session =>
        (let* _ := deliver (BasicInterpreter.written session) in throw what)
          (with_session session w)
    | OutOfFuel => OutOfFuel
    end.

Section WithExternals.

Variable E : Externals.
(** The steps allowed to a statement or an expression that a request runs. *)
Variable fuel : nat.
(** [BasicInterpreter::cleanup], which the sources call and do not define. *)
Variable cleanup : BasicInterpreter.t -> BasicInterpreter.t.

Definition interpreter_step : H unit :=
  let* s := the_server in
  run_session (BasicInterpreter.step E (running_ s) fuel).

Definition interpreter_loadProgram (content : string) : H bool :=
  let* s := the_server in
  run_session (BasicInterpreter.loadProgram E content).

Definition interpreter_evaluateExpression (expression : string) : H Value :=
  let* s := the_server in
  run_session (BasicInterpreter.evaluateExpression E (running_ s) fuel expression).

(** *** Starting and stopping *)

(** [start(bool)]: standard input and output. *)
Definition start_stdio (enableLogging : bool) : H unit :=
  let* _ := on_server (fun s =>
    set_enableLogging_ enableLogging (set_useNetwork_ false (set_running_ true s))) in
  emit [StdoutText ("Content-Type: application/vnd.microsoft.lsp-jsonrpc; charset=utf-8"
                    +:+ String Char.cr (String Char.newline (String Char.cr (string_of_char Char.newline))))].

(** [start(int, bool)]: a listening socket and one accepted client. *)
Definition start_network (port : Z) (enableLogging : bool) : H unit :=
  let* _ := on_server (fun s =>
    set_enableLogging_ enableLogging (set_port_ port (set_useNetwork_ true (set_running_ true s)))) in
  let* net := the_network in
  let* _ := on_server (set_serverSocket_ (net_socket net)) in
  if net_socket net <? 0 then ret tt
  else if net_setsockopt net <? 0 then ret tt
  else if net_bind net <? 0 then ret tt
  else if net_listen net <? 0 then ret tt
  else
    let* _ := emit [StdoutText ("DAP server listening on port " +:+ int_to_string port
                                +:+ string_of_char Char.newline)] in
    let* _ := on_server (set_clientSocket_ (net_accept net)) in
    if net_accept net <? 0 then ret tt
    else emit [StdoutText ("Client connected" +:+ string_of_char Char.newline)].

Definition stop : H unit :=
  let* _ := on_server (set_running_ false) in
  let* s := the_server in
  if useNetwork_ s then
    let* _ := (if 0 <=? clientSocket_ s then on_server (set_clientSocket_ (-1)) else ret tt) in
    let* s := the_server in
    if 0 <=? serverSocket_ s then on_server (set_serverSocket_ (-1)) else ret tt
  else ret tt.

(** *** Request handlers *)

Definition handleInitialize (arguments : json) : H json :=
  let capabilities := jobject [
    ("supportsConfigurationDoneRequest", JBool true);
    ("supportsFunctionBreakpoints", JBool false);
    ("supportsConditionalBreakpoints", JBool false);
    ("supportsHitConditionalBreakpoints", JBool false);
    ("supportsEvaluateForHovers", JBool true);
    ("exceptionBreakpointFilters", JArray []);
    ("supportsSetBreakpoints", JBool true);
    ("supportsStepBack", JBool false);
    ("supportsSetVariable", JBool true);
    ("supportsRestartFrame", JBool false);
    ("supportsGotoTargetsRequest", JBool false);
    ("supportsStepInTargetsRequest", JBool true);
    ("supportsCompletionsRequest", JBool false);
    ("completionTriggerCharacters", JArray []);
    ("supportsModulesRequest", JBool false);
    ("additionalModuleColumns", JArray []);
    ("supportedChecksumAlgorithms", JArray []);
    ("supportsRestartRequest", JBool true);
    ("supportsExceptionOptions", JBool false);
    ("supportsValueFormattingOptions", JBool false);
    ("supportsExceptionInfoRequest", JBool false);
    ("supportTerminateDebuggee", JBool true);
    ("supportsDelayedStackTraceLoading", JBool false);
    ("supportsLoadedSourcesRequest", JBool true);
    ("supportsLogPoints", JBool false);
    ("supportsTerminateThreadsRequest", JBool false);
    ("supportsSetExpression", JBool false);
    ("supportsTerminateRequest", JBool true);
    ("supportsDataBreakpoints", JBool false);
    ("supportsReadMemoryRequest", JBool false);
    ("supportsWriteMemoryRequest", JBool false);
    ("supportsDisassembleRequest", JBool false);
    ("supportsBreakpointLocationsRequest", JBool true) ] in
  ret (jobject [("capabilities", capabilities)]).

(** The three ways [handleLaunch] finds the program; each loads a source
    whose content is not empty. *)
Definition launch_source (arguments : json) : H unit :=
  let load (path content : string) : H unit :=
    if negb (String.eqb content EmptyString) then
      let* _ := addSource path content in
      on_server (set_currentSource_ path)
    else ret tt in
  if Json.contains arguments "program" then
    let* program := lift_except (Json.at_ arguments "program") in
    if Json.is_string program then
      let* programPath := lift_except (Json.get_string program) in
      let* content := readFileContent programPath in
      load programPath content
    else if Json.is_object program then
      if Json.contains program "path" then
        let* p := lift_except (Json.at_ program "path") in
        let* programPath := lift_except (Json.get_string p) in
        let* content :=
          (if Json.contains program "content" then
             let* c := lift_except (Json.at_ program "content") in
             lift_except (Json.get_string c)
           else readFileContent programPath) in
        load programPath content
      else ret tt
    else if Json.contains arguments "programPath" then
      let* p := lift_except (Json.at_ arguments "programPath") in
      if Json.is_string p then
        let* programPath := lift_except (Json.get_string p) in
        let* content := readFileContent programPath in
        load programPath content
      else ret tt
    else ret tt
  else if Json.contains arguments "programPath" then
    let* p := lift_except (Json.at_ arguments "programPath") in
    if Json.is_string p then
      let* programPath := lift_except (Json.get_string p) in
      let* content := readFileContent programPath in
      load programPath content
    else ret tt
  else ret tt.

Definition handleLaunch (arguments : json) : H json :=
  let* _ := on_server (fun s => set_currentLine_ 0 (set_debugging_ true s)) in
  let* _ := launch_source arguments in
  let* s := the_server in
  let content := getSource (currentSource_ s) s in
  let* _ :=
    (if negb (String.eqb content EmptyString) then
       (* Load the program into basic interpretter *)
       let* _ := interpreter_loadProgram content in
       on_interpreter BasicInterpreter.pause
     else ret tt) in
  let* _ := sendInitializedEvent in
  let* _ := sendProcessEvent "BASIC Interpreter" 1 in
  let* s := the_server in
  let* _ := sendStoppedEvent "entry" (currentThread_ s) (currentLine_ s) in
  ret (jobject []).

Definition handleAttach (arguments : json) : H json :=
  let* _ := on_server (set_debugging_ true) in
  let* _ := sendInitializedEvent in
  let* s := the_server in
  let* _ := sendStoppedEvent "entry" (currentThread_ s) (currentLine_ s) in
  ret (jobject []).

Definition handleDisconnect (arguments : json) : H json :=
  let* _ := on_server (fun s =>
    set_currentSource_ EmptyString
      (set_currentLine_ 0
        (set_sources_ (delete (currentSource_ s) (sources_ s))
          (set_paused_ false (set_debugging_ false s))))) in
  let* _ := on_interpreter cleanup in
  ret (jobject []).

Definition handleTerminate (arguments : json) : H json :=
  let* _ := on_server (fun s => set_paused_ false (set_debugging_ false s)) in
  let* _ := sendTerminatedEvent in
  ret (jobject []).

Definition handleRestart (arguments : json) : H json :=
  (* Restart debugging session *)
  let* _ := on_server (fun s =>
    set_debugging_ true (set_currentLine_ 0 (set_paused_ false (set_debugging_ false s)))) in
  let* _ := sendInitializedEvent in
  let* s := the_server in
  let* _ := sendStoppedEvent "restart" (currentThread_ s) (currentLine_ s) in
  ret (jobject []).

(** The loop of [handleSetBreakpoints] over the requested breakpoints. *)
Fixpoint setBreakpoints_loop (source : string) (breakpoints : list json) (response : json)
  : H json :=
  match breakpoints with
  | [] => ret response
  | bp :: rest =>
      let* l := lift_except (Json.at_ bp "line") in
      let* line := lift_except (Json.get_int l) in
      let* _ := setBreakpoint source line in
      let* s := the_server in
      let id := nextBreakpointId_ s in
      let* _ := on_server (set_nextBreakpointId_ (wrap32 (id + 1))) in
      let breakpoint :=
        jobject [("id", JNumber id); ("verified", JBool true); ("line", JNumber line)] in
      setBreakpoints_loop source rest (Json.push_back breakpoint response)
  end.

Definition handleSetBreakpoints (arguments : json) : H json :=
  let* src := lift_except (Json.at_ arguments "source") in
  let* p := lift_except (Json.at_ src "path") in
  let* source := lift_except (Json.get_string p) in
  let* breakpoints := lift_except (Json.at_ arguments "breakpoints") in
  let* response := setBreakpoints_loop source (Json.elements breakpoints) (JArray []) in
  ret (jobject [("breakpoints", response)]).

Definition handleSetFunctionBreakpoints (arguments : json) : H json :=
  ret (jobject [("breakpoints", JArray [])]).

Definition handleSetExceptionBreakpoints (arguments : json) : H json :=
  ret (jobject []).

Definition handleContinue (arguments : json) : H json :=
  let* _ := on_server (fun s => set_runTillStop_ true (set_paused_ false s)) in
  let* s := the_server in
  let* _ := sendContinuedEvent (currentThread_ s) in
  ret (jobject []).

Definition handleNext (arguments : json) : H json :=
  let* _ := on_server (fun s => set_currentLine_ (wrap32 (currentLine_ s + 1)) s) in
  let* _ := interpreter_step in
  let* i := the_interpreter in
  let* _ := on_server (set_currentLine_ (BasicInterpreter.getCurrentLine i)) in
  let* s := the_server in
  let* _ := sendStoppedEvent "step" (currentThread_ s) (currentLine_ s) in
  ret (jobject []).

Definition handleStepIn (arguments : json) : H json :=
  (* Simulate stepping into the next statement *)
  let* _ := on_server (fun s => set_currentLine_ (wrap32 (currentLine_ s + 1)) s) in
  let* s := the_server in
  let* _ := sendStoppedEvent "step" (currentThread_ s) (currentLine_ s) in
  ret (jobject []).

Definition handleStepOut (arguments : json) : H json :=
  let* _ := on_server (fun s => set_currentLine_ (wrap32 (currentLine_ s + 1)) s) in
  let* s := the_server in
  let* _ := sendStoppedEvent "step" (currentThread_ s) (currentLine_ s) in
  ret (jobject []).

Definition handlePause (arguments : json) : H json :=
  let* _ := on_server (set_paused_ true) in
  let* s := the_server in
  let* _ := sendStoppedEvent "pause" (currentThread_ s) (currentLine_ s) in
  ret (jobject []).

Definition handleStackTrace (arguments : json) : H json :=
  let* s := the_server in
  let source := jobject [("name", JString (currentSource_ s)); ("path", JString (currentSource_ s));
                         ("sourceReference", JNumber 0)] in
  let frame := jobject [("id", JNumber 1); ("name", JString "main");
                        ("line", JNumber (currentLine_ s)); ("column", JNumber 0);
                        ("source", source)] in
  ret (jobject [("stackFrames", JArray [frame]); ("totalFrames", JNumber 1)]).

Definition Scope_toJson (name : string) (variablesReference namedVariables : Z) : json :=
  jobject [("name", JString name); ("presentationHint", JString EmptyString);
           ("variablesReference", JNumber variablesReference);
           ("namedVariables", JNumber namedVariables);
           ("indexedVariables", JNumber 0); ("expensive", JBool false)].

Definition handleScopes (arguments : json) : H json :=
  ret (jobject [("scopes", JArray [Scope_toJson "Local" 1 5; Scope_toJson "Global" 2 3])]).

(** The type tag of a value, as [handleVariables] and [handleEvaluate] infer
    it. *)
Definition type_tag (value : Value) : string :=
  match value with
  | VInt _ | VDouble _ => "number"
  | VString _ => "string"
  | VBool _ => "boolean"
  end.

Definition entry_le {A} (a b : string * A) : Prop := String.leb a.1 b.1 = true.

#[local] Instance entry_le_dec {A} (a b : string * A) : Decision (entry_le a b) :=
  decide (String.leb a.1 b.1 = true).

(** The entries of a [std::map] in the order of its iteration. *)
Definition entries {A} (m : gmap string A) : list (string * A) :=
  merge_sort entry_le (map_to_list m).

Definition Variable_toJson (name : string) (value : Value) : json :=
  jobject [("name", JString name); ("value", JString (ext_valueToString E value));
           ("variablesReference", JNumber 0); ("type", JString (type_tag value))].

Definition handleVariables (arguments : json) : H json :=
  let* r := lift_except (Json.at_ arguments "variablesReference") in
  let* variablesReference := lift_except (Json.get_int r) in
  let* i := the_interpreter in
  let allVars := entries (BasicInterpreter.variables_ i) in
  let variables :=
    if (variablesReference =? 1) || (variablesReference =? 2)
    then map (fun entry => Variable_toJson entry.1 entry.2) allVars
    else [] in
  ret (jobject [("variables", JArray variables)]).

Definition handleEvaluate (arguments : json) : H json :=
  let* e := lift_except (Json.at_ arguments "expression") in
  let* expression := lift_except (Json.get_string e) in
  try_catch
    (let* value := interpreter_evaluateExpression expression in
     ret (jobject [("result", JString (ext_valueToString E value));
                   ("type", JString (type_tag value));
                   ("variablesReference", JNumber 0)]))
    (fun what =>
       ret (jobject [("result", JString ("[DAP] Exception: " +:+ what));
                     ("type", JString "error");
                     ("variablesReference", JNumber 0)])).

Definition handleSetVariable (arguments : json) : H json :=
  let* n := lift_except (Json.at_ arguments "name") in
  let* name := lift_except (Json.get_string n) in
  let* v := lift_except (Json.at_ arguments "value") in
  let* value := lift_except (Json.get_string v) in
  (* In a real implementation, you'd actually set the variable *)
  ret (jobject [("value", JString value); ("type", JString "string");
                ("variablesReference", JNumber 0)]).

Definition handleSource (arguments : json) : H json :=
  let* path :=
    (if Json.contains arguments "path" then
       let* p := lift_except (Json.at_ arguments "path") in
       lift_except (Json.get_string p)
     else if Json.contains arguments "source" then
       let* src := lift_except (Json.at_ arguments "source") in
       if Json.contains src "path" then
         let* p := lift_except (Json.at_ src "path") in
         lift_except (Json.get_string p)
       else ret EmptyString
     else ret EmptyString) in
  let* s := the_server in
  ret (jobject [("content", JString (getSource path s))]).

Definition handleThreads (arguments : json) : H json :=
  ret (jobject [("threads", JArray [jobject [("id", JNumber 1); ("name", JString "Main Thread")]])]).

Definition handleModules (arguments : json) : H json :=
  ret (jobject [("modules", JArray [])]).

Definition handleLoadedSources (arguments : json) : H json :=
  let* s := the_server in
  ret (jobject [("sources",
                 JArray (map (fun entry => Source_toJson entry.1 entry.1 0) (entries (sources_ s))))]).

Definition handleExceptionInfo (arguments : json) : H json :=
  ret (jobject []).

Definition handleLoadSource (arguments : json) : H json :=
  let* p := lift_except (Json.at_ arguments "path") in
  let* sourcePath := lift_except (Json.get_string p) in
  let* c := lift_except (Json.at_ arguments "content") in
  let* content := lift_except (Json.get_string c) in
  let* _ := addSource sourcePath content in
  (* Optionally send a loadedSource event *)
  let* _ := sendLoadedSourceEvent "new" (Source_toJson sourcePath EmptyString 0) in
  ret (jobject [("success", JBool true); ("path", JString sourcePath)]).

(** [setupHandlers]: the request handlers, by command name. *)
Definition requestHandlers_ : list (string * (json -> H json)) :=
  [ ("initialize", handleInitialize);
    ("launch", handleLaunch);
    ("attach", handleAttach);
    ("disconnect", handleDisconnect);
    ("terminate", handleTerminate);
    ("restart", handleRestart);
    ("setBreakpoints", handleSetBreakpoints);
    ("setFunctionBreakpoints", handleSetFunctionBreakpoints);
    ("setExceptionBreakpoints", handleSetExceptionBreakpoints);
    ("continue", handleContinue);
    ("next", handleNext);
    ("stepIn", handleStepIn);
    ("stepOut", handleStepOut);
    ("pause", handlePause);
    ("stackTrace", handleStackTrace);
    ("scopes", handleScopes);
    ("variables", handleVariables);
    ("evaluate", handleEvaluate);
    ("setVariable", handleSetVariable);
    ("source", handleSource);
    ("threads", handleThreads);
    ("modules", handleModules);
    ("loadedSources", handleLoadedSources);
    ("exceptionInfo", handleExceptionInfo);
    ("loadSource", handleLoadSource) ].

Fixpoint find_handler (handlers : list (string * (json -> H json))) (command : string)
  : option (json -> H json) :=
  match handlers with
  | [] => None
  | (name, handler) :: rest =>
      if String.eqb name command then Some handler else find_handler rest command
  end.

(** [DAPServer::processMessage]. *)
Definition processMessage (message : DAPMessage) : H unit :=
  match msg_type message with
  | REQUEST =>
      match find_handler requestHandlers_ (msg_command message) with
      | Some handler =>
          let* result := handler (msg_arguments message) in
          sendMessage (createResponse (msg_id message) result)
      | None =>
          if negb (String.eqb (msg_command message) EmptyString) then
            sendMessage (createErrorResponse (msg_id message) (-32601) "Method not found")
          else
            let* s := the_server in
            if checkConnection_ s then
              (* Restart the socket server *)
              let* _ := on_server (set_checkConnection_ false) in
              let* _ := stop in
              let* s := the_server in
              start_network (port_ s) (enableLogging_ s)
            else ret tt
      end
  | _ => ret tt
  end.

(** The part of [receiveMessage] after the framing: a pending [continue] is
    passed to the interpreter, and the document is read into a message; a
    document that cannot be read gives the empty request. *)
Definition decode (j : json) : Except DAPMessage :=
  let optional (key : string) : json :=
    if Json.contains j key then
      match Json.at_mutable j key with Return v => v | Raise _ => JNull end
    else JNull in
  match Json.at_mutable j "type" with
  | Raise w => Raise w
  | Return (JString "request") =>
      match Json.at_mutable j "command" with
      | Raise w => Raise w
      | Return c =>
          match Json.get_string c with
          | Raise w => Raise w
          | Return command =>
              Return (mkDAPMessage REQUEST command (optional "arguments") (optional "seq")
                        JNull JNull EmptyString JNull)
          end
      end
  | Return (JString "response") =>
      match Json.at_mutable j "command" with
      | Raise w => Raise w
      | Return c =>
          match Json.get_string c with
          | Raise w => Raise w
          | Return command =>
              Return (mkDAPMessage RESPONSE command JNull (optional "request_seq")
                        (optional "body") (optional "message") EmptyString JNull)
          end
      end
  | Return (JString "event") =>
      match Json.at_mutable j "event" with
      | Raise w => Raise w
      | Return e =>
          match Json.get_string e with
          | Raise w => Raise w
          | Return event =>
              Return (mkDAPMessage EVENT EmptyString JNull JNull JNull JNull event
                        (optional "body"))
          end
      end
  | Return _ => Return (empty_message REQUEST)
  end.

Definition receiveMessage (content : json) : H DAPMessage :=
  let* s := the_server in
  let* _ :=
    (if runTillStop_ s then
       let* _ := on_server (set_runTillStop_ false) in
       on_interpreter BasicInterpreter.continueExecution
     else ret tt) in
  match decode content with
  | Return message => ret message
  | Raise _ => ret (empty_message REQUEST)
  end.

End WithExternals.

End DAPServer.

(** ** Closed examples

    The examples below are stated on closed terms.  They reach none of the
    external functions, and hold for every [Externals]; they are stated at
    this one, which answers nothing useful. *)
Definition no_externals : Externals :=
  {| ext_fmod := fun _ _ => PrimFloat.nan;
     ext_pow := fun _ _ => PrimFloat.nan;
     ext_sin := fun _ => PrimFloat.nan;
     ext_cos := fun _ => PrimFloat.nan;
     ext_tan := fun _ => PrimFloat.nan;
     ext_log := fun _ => PrimFloat.nan;
     ext_exp := fun _ => PrimFloat.nan;
     ext_stod := fun _ => None;
     ext_format_double := fun _ => EmptyString;
     ext_valueToString := fun _ => EmptyString |}.

(** A string literal of the language: the text between double quotes. *)
Definition quoted (s : string) : string :=
  String Char.quote (s +:+ string_of_char Char.quote).

Definition endl : string := string_of_char Char.newline.

(** ** Definitions in the words of the specification *)



(** The state with the variable [name] assigned. *)
Definition assign (name : string) (value : Value) (st : RtState) : RtState :=
  mkRtState (Variables.set name value (rt_variables st)) (rt_cin st) (rt_out st).

Section ForSpecification.

Variable E : Externals.
Variable functions : gmap string string.
Variable dap_running : bool.

(** A node evaluates from [st] to the value [v] and the state [st']: the
    runtime returns them, given steps enough. *)
Definition evaluates (node : option ASTNode) (st : RtState) (v : Value) (st' : RtState) : Prop :=
  exists fuel, Runtime.execute E functions dap_running fuel node st = Ok v st'.

Variable name : string.
Variable endVal stepVal : float.
Variable body : option ASTNode.

(** The value of the loop variable, as a [double]. *)
Definition loop_value (st : RtState) : float :=
  RuntimeOps.numeric_or 0%float (Variables.get name (rt_variables st)).

(** The loop is over: the step is positive and the value is past the end, or
    the step is negative and the value is before the end. *)
Definition loop_over (value : float) : Prop :=
  (PrimFloat.ltb 0%float stepVal = true /\ PrimFloat.ltb endVal value = true)
  \/ (PrimFloat.ltb stepVal 0%float = true /\ PrimFloat.ltb value endVal = true).

(** The iterations of [FOR] from a state to the state it ends in: as long as
    the loop is not over, the body runs and the variable takes its value at
    the head of the loop plus the step. *)
Inductive for_iterates : RtState -> RtState -> Prop :=
| for_stops (st : RtState) :
    loop_over (loop_value st) ->
    for_iterates st st
| for_continues (st st1 st2 : RtState) (v : Value) :
    ~ loop_over (loop_value st) ->
    evaluates body st v st1 ->
    for_iterates (assign name (VDouble (loop_value st + stepVal)%float) st1) st2 ->
    for_iterates st st2.

End ForSpecification.

(** [FOR] in the words of the specification: start, end and step are
    evaluated once, in this order (the step is [1] when absent), and
    converted to [double]; the variable is assigned the start; then the
    iterations. *)
Definition for_statement (E : Externals) (functions : gmap string string) (dap_running : bool)
    (name : string) (startValue endValue : ASTNode) (stepValue body : option ASTNode)
    (st st' : RtState) : Prop :=
  exists (start end_ step : Value) (st1 st2 st3 : RtState),
    evaluates E functions dap_running (Some startValue) st start st1
    /\ evaluates E functions dap_running (Some endValue) st1 end_ st2
    /\ match stepValue with
       | Some _ => evaluates E functions dap_running stepValue st2 step st3
       | None => step = VInt 1 /\ st3 = st2
       end
    /\ for_iterates E functions dap_running name
         (RuntimeOps.numeric_or 0%float end_) (RuntimeOps.numeric_or 1%float step) body
         (assign name (VDouble (RuntimeOps.numeric_or 0%float start)) st3) st'.

(** [m2] returns whatever [m1] returns. *)
Definition returns_more {S A} (m1 m2 : M S A) : Prop :=
  forall s a s', m1 s = Ok a s' -> m2 s = Ok a s'.

(** The expression and statement texts of the specification's examples. *)
Definition text_len_abc : string := "LEN(" +:+ quoted "abc" +:+ ")".
Definition text_print_comma : string :=
  "PRINT " +:+ quoted "Hello, " +:+ ", " +:+ quoted "World!".
Definition text_print_semicolon : string :=
  "PRINT " +:+ quoted "Hello, " +:+ "; " +:+ quoted "World!".

(** The session after a statement has written [o]. *)
Definition session_wrote (o : Output) (s : BasicInterpreter.Session) : BasicInterpreter.Session :=
  BasicInterpreter.mkSession (BasicInterpreter.interp s) (BasicInterpreter.cin s)
    (BasicInterpreter.written s ++ [o]).

(** The interpreter as [main] constructs it, with nothing to read and nothing
    written. *)
Definition fresh_session : BasicInterpreter.Session :=
  BasicInterpreter.mkSession BasicInterpreter.initial [] [].

(** An integer literal in the form [std::to_string] writes it: decimal
    digits, at least one, with no leading zero unless it is ["0"]. *)
Fixpoint all_digits (s : string) : bool :=
  match s with
  | EmptyString => true
  | String c rest => Char.isdigit c && all_digits rest
  end.

Definition canonical_integer (s : string) : bool :=
  match s with
  | EmptyString => false
  | String c rest => all_digits s && (negb (Ascii.eqb c "0") || String.eqb rest EmptyString)
  end.

(** The digits of a literal without their leading zeros: what
    [std::to_string] writes for the value of the literal. *)
Fixpoint strip_zeros (s : string) : string :=
  match s with
  | String c rest =>
      if Ascii.eqb c "0" && negb (String.eqb rest EmptyString) then strip_zeros rest else s
  | EmptyString => EmptyString
  end.

(** The token vector of a text that is one number. *)
Definition number_tokens (s : string) : list Token :=
  [mkToken NUMBER s 1 1; mkToken EOF_TOKEN EmptyString 1 (1 + strlen s)].

(** *** Responses on the wire *)


Definition member (key : string) (j : json) : option json :=
  match j with
  | JObject members => Json.lookup key members
  | _ => None
  end.




(** A computation of the server moves the world along the relation [R],
    whether it returns or throws. *)
Definition steps_within {A} (R : World -> World -> Prop) (m : DAPServer.H A) : Prop :=
  forall w,
    match m w with
    | Ok _ w1 | Throw _ w1 => R w w1
    | OutOfFuel => True
    end.

(** A message on the channel of [sendMessage], and the world after it was
    sent. *)
Definition message_frame (doc : json) (w : World) : Wire :=
  if useNetwork_ (server w) && (0 <=? clientSocket_ (server w))
  then SocketFrame doc else StdoutFrame doc.

Definition after_message (doc : json) (w : World) : World :=
  mkWorld (server w) (interpreter w) (w_cin w) (w_out w ++ [message_frame doc w])
    (w_files w) (w_net w).

(** What [sendEvent] writes for the document [doc] of an event: nothing in
    network mode without a client. *)
Definition event_frames (doc : json) (w : World) : list Wire :=
  if useNetwork_ (server w) then
    if 0 <=? clientSocket_ (server w) then [SocketFrame doc] else []
  else [StdoutFrame doc].

(** The world after [items] were written. *)
Definition sent (items : list Wire) (w : World) : World :=
  mkWorld (server w) (interpreter w) (w_cin w) (w_out w ++ items) (w_files w) (w_net w).

(** A request. *)
Definition request (command : string) (id arguments : json) : DAPMessage :=
  mkDAPMessage REQUEST command arguments id JNull JNull EmptyString JNull.

(** The server and the interpreter as [main] constructs them, after
    [start(bool)] on standard input and output, with no file to read. *)
Definition started_world : World :=
  mkWorld (DAPServer.set_running_ true DAPServer.initial) BasicInterpreter.initial [] [] ∅
    (mkNetEnv (-1) (-1) (-1) (-1) (-1)).

(** What the session keeps of the breakpoints and of the variables. *)
Definition same_session_data (w w1 : World) : Prop :=
  breakpoints_ (server w1) = breakpoints_ (server w)
  /\ breakpointMap_ (server w1) = breakpointMap_ (server w)
  /\ nextBreakpointId_ (server w1) = nextBreakpointId_ (server w)
  /\ currentLine_ (server w1) = currentLine_ (server w)
  /\ BasicInterpreter.variables_ (interpreter w1) = BasicInterpreter.variables_ (interpreter w)
  /\ BasicInterpreter.functions_ (interpreter w1) = BasicInterpreter.functions_ (interpreter w).

(** *** A session after another *)

(** A [disconnect] request followed by a [launch] request. *)
Definition session_restart (E : Externals) (fuel : nat)
    (cleanup : BasicInterpreter.t -> BasicInterpreter.t)
    (disconnect launch : json) : DAPServer.H unit :=
  let* _ := DAPServer.processMessage E fuel cleanup (request "disconnect" (JNumber 1) disconnect) in
  DAPServer.processMessage E fuel cleanup (request "launch" (JNumber 2) launch).

(** The arguments of a [launch] that carries the program, and of a
    [setBreakpoints] for one line. *)
Definition launch_arguments (path content : string) : json :=
  JObject [("program", JObject [("path", JString path); ("content", JString content)])].

Definition breakpoint_arguments (path : string) (line : Z) : json :=
  JObject [("source", JObject [("path", JString path)]);
           ("breakpoints", JArray [JObject [("line", JNumber line)]])].

(** A first session on the started server: a breakpoint is set at line 2 of
    [old.bas], and [old.bas] is launched. *)
Definition first_session (E : Externals) (fuel : nat)
    (cleanup : BasicInterpreter.t -> BasicInterpreter.t) : DAPServer.H unit :=
  let* _ := DAPServer.processMessage E fuel cleanup
              (request "setBreakpoints" (JNumber 1) (breakpoint_arguments "old.bas" 2)) in
  DAPServer.processMessage E fuel cleanup
    (request "launch" (JNumber 2) (launch_arguments "old.bas" "10 LET A = 1")).

(** The world a computation of the server ends in. *)
Definition world_after {A} (m : DAPServer.H A) (w : World) : World :=
  match m w with
  | Ok _ w1 | Throw _ w1 => w1
  | OutOfFuel => w
  end.

(** The world after the first session, and after [disconnect] and a launch
    of [new.bas] from there. *)
Definition previous_world : World :=
  world_after (first_session no_externals 8 BasicInterpreter.cleanup_by_spec) started_world.

Definition restarted_world : World :=
  world_after
    (session_restart no_externals 8 BasicInterpreter.cleanup_by_spec JNull
       (launch_arguments "new.bas" "10 PRINT 1"))
    previous_world.

(** ** Properties of the lexer's result *)

(** The token types [tokenize] gives to the text before the end of input:
    all but [EQUAL], [AND], [OR], [NOT], [NEWLINE], [UNKNOWN] and the
    end-of-input type. *)
Definition lexed_type (t : TokenType) : bool :=
  match t with
  | EQUAL | AND | OR | NOT | NEWLINE | UNKNOWN | EOF_TOKEN => false
  | _ => true
  end.

(** A token vector that ends with its only end-of-input token. *)
Definition ends_input (tokens : list Token) : Prop :=
  exists body line column,
    tokens = (body ++ [mkToken EOF_TOKEN EmptyString line column])%list
    /\ Forall (fun t => lexed_type (tok_type t) = true) body.

(** A character none of the tests of the lexer accepts. *)
Definition unknown_character (ch : ascii) : Prop :=
  Char.isspace ch = false
  /\ Ascii.eqb ch "'" = false
  /\ Char.isdigit ch || Ascii.eqb ch "." = false
  /\ Ascii.eqb ch Char.quote = false
  /\ Char.isalpha ch || Ascii.eqb ch "_" = false
  /\ Lexer.scan_operator ch EmptyString = None.

(** What the loop of the lexer ends with, on [input]: a token vector that
    ends the input, or the exception for a character of [input] that no test
    accepts; [None], the loop still running, is excluded. *)
Definition lexed (input : string) (r : option (Except (list Token))) : Prop :=
  match r with
  | Some (Return tokens) => ends_input tokens
  | Some (Raise what) =>
      exists ch, contains_char ch input = true /\ unknown_character ch
                 /\ what = "Unknown character: " +:+ string_of_char ch
  | None => False
  end.

(** [r] is what is left of [s] after some characters. *)
Definition left_of (r s : string) : Prop := exists p, s = p +:+ r.

(** The loop of [tokenize] started at a position of the text: [tokenize] is
    [tokenize_from] at line 1, column 1. *)
Definition tokenize_from (input : string) (line column : Z) : Except (list Token) :=
  match Lexer.tokenize_loop (S (String.length input)) input line column with
  | Some r => r
  | None => Raise "tokenize: out of fuel"
  end.

(** [Lexer::tokenTypeToString]. *)
Definition tokenTypeToString (type : TokenType) : string :=
  match type with
  | LET => "LET" | IF => "IF" | THEN => "THEN" | ELSE => "ELSE" | FOR => "FOR"
  | TO => "TO" | STEP => "STEP" | NEXT => "NEXT" | WHILE => "WHILE" | WEND => "WEND"
  | DO => "DO" | LOOP => "LOOP" | UNTIL => "UNTIL" | SUB => "SUB" | END => "END"
  | FUNCTION => "FUNCTION" | RETURN => "RETURN" | PRINT => "PRINT" | INPUT => "INPUT"
  | READ => "READ" | DATA => "DATA" | RESTORE => "RESTORE" | DIM => "DIM"
  | PLUS => "PLUS" | MINUS => "MINUS" | MULTIPLY => "MULTIPLY" | DIVIDE => "DIVIDE"
  | MOD => "MOD" | POWER => "POWER" | EQUAL => "EQUAL" | NOT_EQUAL => "NOT_EQUAL"
  | LESS => "LESS" | LESS_EQUAL => "LESS_EQUAL" | GREATER => "GREATER"
  | GREATER_EQUAL => "GREATER_EQUAL" | AND => "AND" | OR => "OR" | NOT => "NOT"
  | LPAREN => "LPAREN" | RPAREN => "RPAREN" | COMMA => "COMMA" | SEMICOLON => "SEMICOLON"
  | COLON => "COLON" | ASSIGN => "ASSIGN" | NUMBER => "NUMBER" | STRING => "STRING"
  | IDENTIFIER => "IDENTIFIER" | NEWLINE => "NEWLINE" | EOF_TOKEN => "EOF"
  | UNKNOWN => "UNKNOWN"
  end.

(** The token types of the keyword table. *)
Definition is_keyword (type : TokenType) : bool :=
  existsb (fun entry => TokenType_beq entry.2 type) Lexer.keywords_.

(** ** Properties of the parser's result *)

(** The token types a primary expression starts with. *)
Definition starts_primary (t : TokenType) : bool :=
  match t with
  | NUMBER | STRING | IDENTIFIER | LPAREN => true
  | _ => false
  end.

(** A tree in which every binary node has the operator [POWER] or, as its
    operator, a token type a primary expression starts with, and which has no
    unary node. *)
Fixpoint parser_shaped (node : ASTNode) : bool :=
  let shaped_option (o : option ASTNode) : bool :=
    match o with
    | Some n => parser_shaped n
    | None => true
    end in
  match node with
  | ProgramNode statements => forallb parser_shaped statements
  | LetStatementNode _ _ value => parser_shaped value
  | IfStatementNode _ condition thenStatement elseStatement =>
      parser_shaped condition && shaped_option thenStatement && shaped_option elseStatement
  | ForStatementNode _ _ startValue endValue stepValue body =>
      parser_shaped startValue && parser_shaped endValue && shaped_option stepValue
      && shaped_option body
  | NextStatementNode => true
  | WhileStatementNode _ condition body => parser_shaped condition && shaped_option body
  | PrintStatementNode _ expressions => forallb parser_shaped expressions
  | InputStatementNode _ _ _ => true
  | FunctionCallNode _ arguments => forallb parser_shaped arguments
  | BinaryExpressionNode operator_ lhs rhs =>
      (TokenType_beq operator_ POWER || starts_primary operator_)
      && parser_shaped lhs && parser_shaped rhs
  | UnaryExpressionNode _ _ => false
  | LiteralNode _ => true
  | IdentifierNode _ => true
  end.

Definition shaped_option (o : option ASTNode) : bool :=
  match o with
  | Some n => parser_shaped n
  | None => true
  end.

(** What the parsing functions return with [fuel] units of depth: trees of
    that shape, and an expression only from a position whose token starts a
    primary expression. *)
Definition shapes_at (E : Externals) (tokens_ : list Token) (fuel : nat) : Prop :=
  let expression (f : nat -> Parser.P ASTNode) :=
    forall cur cur' n,
      f fuel cur = Ok n cur' ->
      parser_shaped n = true
      /\ starts_primary (tok_type (Parser.token_at tokens_ cur)) = true in
  let statement (f : nat -> Parser.P ASTNode) :=
    forall cur cur' n, f fuel cur = Ok n cur' -> parser_shaped n = true in
  let nodes (f : nat -> Parser.P (list ASTNode)) :=
    forall cur cur' l, f fuel cur = Ok l cur' -> forallb parser_shaped l = true in
  let loop (f : nat -> ASTNode -> Parser.P ASTNode) :=
    forall lhs cur cur' n,
      parser_shaped lhs = true -> f fuel lhs cur = Ok n cur' -> parser_shaped n = true in
  (forall cur cur' o,
      Parser.parseStatement E tokens_ fuel cur = Ok o cur' -> shaped_option o = true)
  /\ statement (Parser.parseLetStatement E tokens_)
  /\ statement (Parser.parseIfStatement E tokens_)
  /\ statement (Parser.parseForStatement E tokens_)
  /\ statement (Parser.parseWhileStatement E tokens_)
  /\ statement (Parser.parsePrintStatement E tokens_)
  /\ nodes (Parser.parsePrintStatement_loop E tokens_)
  /\ statement (Parser.parseFunctionCall E tokens_)
  /\ nodes (Parser.parseFunctionCall_loop E tokens_)
  /\ expression (Parser.parseExpression E tokens_)
  /\ loop (Parser.parseExpression_loop E tokens_)
  /\ expression (Parser.parseTerm E tokens_)
  /\ loop (Parser.parseTerm_loop E tokens_)
  /\ expression (Parser.parseFactor E tokens_)
  /\ loop (Parser.parseFactor_loop E tokens_)
  /\ expression (Parser.parsePrimary E tokens_).

(** ** Program texts *)

(** The text of a program, line by line: each line ends with a line end. *)
Fixpoint unlines (lines : list string) : string :=
  match lines with
  | [] => EmptyString
  | l :: rest => l +:+ String Char.newline (unlines rest)
  end.

(** What [executeLine] and [step] leave alone in the interpreter: all but the
    variables and the last error. *)
Definition same_program (i i' : BasicInterpreter.t) : Prop :=
  BasicInterpreter.source_ i' = BasicInterpreter.source_ i
  /\ BasicInterpreter.lines_ i' = BasicInterpreter.lines_ i
  /\ BasicInterpreter.currentLine_ i' = BasicInterpreter.currentLine_ i
  /\ BasicInterpreter.running_ i' = BasicInterpreter.running_ i
  /\ BasicInterpreter.debugging_ i' = BasicInterpreter.debugging_ i
  /\ BasicInterpreter.breakpoints_ i' = BasicInterpreter.breakpoints_ i
  /\ BasicInterpreter.paused_ i' = BasicInterpreter.paused_ i
  /\ BasicInterpreter.functions_ i' = BasicInterpreter.functions_ i.

(** Every character of [s] passes the test [p]. *)
Fixpoint all_chars (p : ascii -> bool) (s : string) : bool :=
  match s with
  | EmptyString => true
  | String c rest => p c && all_chars p rest
  end.

(** A paused session on a program of one line, which the lexer refuses. *)
Definition refused_line_session : BasicInterpreter.Session :=
  BasicInterpreter.mkSession
    (BasicInterpreter.mk "@" ["@"] 0 false EmptyString false ∅ true ∅ ∅) [] [].

(** The interpreter after [loadProgram(source)] has set the program and
    [error]: the variables, the functions and the debug state are kept. *)
Definition loaded (source error : string) (i : BasicInterpreter.t) : BasicInterpreter.t :=
  BasicInterpreter.mk source (split_lines source) 0 (BasicInterpreter.running_ i) error
    (BasicInterpreter.debugging_ i) (BasicInterpreter.breakpoints_ i)
    (BasicInterpreter.paused_ i) (BasicInterpreter.variables_ i)
    (BasicInterpreter.functions_ i).

(** ** The depth the parser needs *)

Section ParserDepth.

Variable E : Externals.
Variable tokens_ : list Token.

(** The test of [isAtEnd] at the position [cur]. *)
Definition at_end (cur : nat) : bool :=
  (length tokens_ <=? cur)%nat
  || TokenType_beq (tok_type (Parser.token_at tokens_ cur)) EOF_TOKEN.

(** A parsing computation started at [cur] comes back: with a result and a
    position that satisfy [Q], or with an exception at a position from [base]
    on. *)
Definition comes_back {A} (base : nat) (m : Parser.P A) (cur : nat)
    (Q : A -> nat -> Prop) : Prop :=
  match m cur with
  | Ok a c => Q a c
  | Throw _ c => (base <= c)%nat
  | OutOfFuel => False
  end.

(** The depth allowed for [k] calls in a row and eight more for each token
    from [cur] on. *)
Definition need (k cur : nat) : nat := 8 * (length tokens_ - cur) + k.

(** With [fuel] units of depth, each parsing function comes back from the
    positions where [fuel] is the depth it needs; the position does not move
    back, and moves on from a token where an expression was parsed. *)
Definition parses_within (fuel : nat) : Prop :=
  let forward {A} (k : nat) (f : nat -> Parser.P A) :=
    forall cur, (need k cur <= fuel)%nat ->
                comes_back cur (f fuel) cur (fun _ c => (cur <= c)%nat) in
  let onward (k : nat) (f : nat -> Parser.P ASTNode) :=
    forall cur, (need k cur <= fuel)%nat ->
                comes_back cur (f fuel) cur
                  (fun _ c => (cur < c)%nat /\ (cur < length tokens_)%nat) in
  let loop (f : nat -> ASTNode -> Parser.P ASTNode) :=
    forall lhs cur, (need 1 cur <= fuel)%nat ->
                    comes_back cur (f fuel lhs) cur (fun _ c => (cur <= c)%nat) in
  (forall cur, (need 7 cur <= fuel)%nat ->
               comes_back cur (Parser.parseStatement E tokens_ fuel) cur
                 (fun _ c => (cur <= c)%nat /\ (at_end cur = false -> (cur < c)%nat)))
  /\ forward 5%nat (Parser.parseLetStatement E tokens_)
  /\ forward 5%nat (Parser.parseIfStatement E tokens_)
  /\ forward 5%nat (Parser.parseForStatement E tokens_)
  /\ forward 5%nat (Parser.parseWhileStatement E tokens_)
  /\ forward 6%nat (Parser.parsePrintStatement E tokens_)
  /\ forward 5%nat (Parser.parsePrintStatement_loop E tokens_)
  /\ onward 6%nat (Parser.parseFunctionCall E tokens_)
  /\ forward 5%nat (Parser.parseFunctionCall_loop E tokens_)
  /\ onward 4%nat (Parser.parseExpression E tokens_)
  /\ loop (Parser.parseExpression_loop E tokens_)
  /\ onward 3%nat (Parser.parseTerm E tokens_)
  /\ loop (Parser.parseTerm_loop E tokens_)
  /\ onward 2%nat (Parser.parseFactor E tokens_)
  /\ loop (Parser.parseFactor_loop E tokens_)
  /\ onward 1%nat (Parser.parsePrimary E tokens_).

End ParserDepth.

(** ** Requests for breakpoints *)

(** The arguments of a [setBreakpoints] request for the lines [lines] of the
    source [path]. *)
Definition line_object (line : Z) : json := JObject [("line", JNumber line)].

Definition breakpoints_arguments (path : string) (lines : list Z) : json :=
  JObject [("source", JObject [("path", JString path)]);
           ("breakpoints", JArray (map line_object lines))].

(** The breakpoints [handleSetBreakpoints] reports for [lines] when [id] is
    the next id: each one under the id after the one it was stored under. *)
Fixpoint reported (id : Z) (lines : list Z) : list json :=
  match lines with
  | [] => []
  | line :: rest =>
      JObject [("id", JNumber (id + 1)); ("verified", JBool true); ("line", JNumber line)]
      :: reported (id + 2) rest
  end.

(** One turn of the loop of [handleSetBreakpoints]: [setBreakpoint] stores the
    breakpoint under the next id, and the id after it is used up for the
    report. *)
Definition breakpoint_turn (path : string) (line : Z) : DAPServer.H unit :=
  let* _ := DAPServer.setBreakpoint path line in
  DAPServer.on_server
    (fun s => DAPServer.set_nextBreakpointId_ (wrap32 (nextBreakpointId_ s + 1)) s).

(** The world [w'] after the loop has stored and reported the breakpoints of
    [lines], from the world [w]. *)
Definition looped (path : string) (lines : list Z) (w w' : World) : Prop :=
  let id := nextBreakpointId_ (server w) in
  nextBreakpointId_ (server w') = id + 2 * Z.of_nat (length lines)
  /\ (forall source' line',
         DAPServer.hasBreakpoint source' line' (server w')
         = (String.eqb source' path && bool_decide (line' ∈ lines))
           || DAPServer.hasBreakpoint source' line' (server w))
  /\ (forall i line,
         lines !! i = Some line ->
         breakpointMap_ (server w') !! (id + 2 * Z.of_nat i)
         = Some (mkBreakpoint (id + 2 * Z.of_nat i) true EmptyString line 0 path))
  /\ (forall j,
         (forall i, (i < length lines)%nat -> j <> id + 2 * Z.of_nat i) ->
         breakpointMap_ (server w') !! j = breakpointMap_ (server w) !! j)
  /\ w_out w' = w_out w
  /\ interpreter w' = interpreter w.

(** ** Events on the wire *)

(** The document of the [stopped] event of a step that ends before [line]. *)
Definition stopped_at (threadId line : Z) : json :=
  DAPServer.event_document "stopped"
    (JObject [("reason", JString "step"); ("threadId", JNumber threadId);
              ("allThreadsStopped", JBool true); ("line", JNumber line)]).

(** The started server with an interpreter that is paused on the only line of
    its program, a line the lexer refuses. *)
Definition paused_world : World :=
  mkWorld (server started_world) (BasicInterpreter.interp refused_line_session) [] [] ∅
    (w_net started_world).

(** ** Variables on the wire *)

(** The document [a] of a variable comes before [b]: both have names, in the
    order of [std::string]. *)
Definition name_before (a b : json) : Prop :=
  exists na nb,
    member "name" a = Some (JString na) /\ member "name" b = Some (JString nb)
    /\ String.leb na nb = true.
(* ================================================================== *)
(** * Properties *)
(* ================================================================== *)

(** ** Division and modulo *)

Section Arithmetic.

Import RuntimeOps.

Variable E : Externals.

Lemma numeric_cases (v : Value) :
  is_numeric v = true -> (exists n, v = VInt n) \/ (exists d, v = VDouble d).
Proof. destruct v; simpl; intros H; try discriminate; eauto. Qed.

(** [divide], [modulo] and the [switch] of [executeBinaryExpression] on
    numeric operands: a right operand that compares equal to zero throws, and
    every other one gives the quotient, or the remainder of [std::fmod], of
    the operands converted to [double]. *)
Lemma divide_modulo_by_zero (a b : Value) :
  is_numeric a = true -> is_numeric b = true ->
  let da := numeric_or 0%float a in
  let db := numeric_or 0%float b in
  (PrimFloat.eqb db 0%float = true ->
     divide a b = Raise "Division by zero"
     /\ modulo E a b = Raise "Modulo by zero"
     /\ Runtime.binary E DIVIDE a b = Raise "Division by zero"
     /\ Runtime.binary E MOD a b = Raise "Modulo by zero")
  /\ (PrimFloat.eqb db 0%float = false ->
     divide a b = Return (VDouble (da / db)%float)
     /\ modulo E a b = Return (VDouble (ext_fmod E da db))
     /\ Runtime.binary E DIVIDE a b = Return (VDouble (da / db)%float)
     /\ Runtime.binary E MOD a b = Return (VDouble (ext_fmod E da db))).
Proof.
  intros Ha Hb da db.
  destruct (numeric_cases a Ha) as [[x ->] | [x ->]];
    destruct (numeric_cases b Hb) as [[y ->] | [y ->]];
    subst da db; simpl; split; intros Hz; rewrite Hz; auto.
Qed.

End Arithmetic.

(** ** Comparisons *)

Lemma ascii_compare_refl (c : ascii) : Ascii.compare c c = Eq.
Proof. unfold Ascii.compare. apply N.compare_refl. Qed.




Section Comparisons.

Import RuntimeOps.

Variable E : Externals.


End Comparisons.



(** ** Addition *)

Section Addition.

Import RuntimeOps.

Variable E : Externals.

(** C4, as amended.  The sum of two strings is their concatenation; the sum
    of two numbers is the floating-point sum of the operands converted to
    [double], also when both are integers; every other combination gives the
    floating-point value [0.0].  No combination throws. *)
Theorem add_by_types (a b : Value) :
  Runtime.binary E PLUS a b = Return (add a b)
  /\ (forall x y : string, a = VString x -> b = VString y -> add a b = VString (x +:+ y))
  /\ (is_numeric a = true -> is_numeric b = true ->
      add a b = VDouble (numeric_or 0%float a + numeric_or 0%float b)%float)
  /\ (is_numeric a = false \/ is_numeric b = false ->
      (forall x y : string, a = VString x -> b <> VString y) ->
      add a b = VDouble 0%float).
Proof.
  split; [reflexivity | split; [| split]].
  - intros x y -> ->. reflexivity.
  - intros Ha Hb.
    destruct (numeric_cases a Ha) as [[x ->] | [x ->]];
      destruct (numeric_cases b Hb) as [[y ->] | [y ->]]; reflexivity.
  - intros Hn Hs.
    destruct a, b; simpl in *; try reflexivity.
    + destruct Hn; discriminate.
    + destruct Hn; discriminate.
    + destruct Hn; discriminate.
    + destruct Hn; discriminate.
    + exfalso. eapply Hs; reflexivity.
Qed.

End Addition.

(** A witness of C4 as amended: two strings, two integers, a string and a
    number. *)
Lemma add_by_types_witness :
  RuntimeOps.add (VString "ab") (VString "cd") = VString "abcd"
  /\ RuntimeOps.add (VInt 2) (VInt 2) = VDouble 4
  /\ RuntimeOps.add (VString "ab") (VInt 1) = VDouble 0.
Proof.
  split; [| split].
  - destruct (add_by_types no_externals (VString "ab") (VString "cd")) as (_ & H & _).
    exact (H "ab" "cd" eq_refl eq_refl).
  - destruct (add_by_types no_externals (VInt 2) (VInt 2)) as (_ & _ & H & _).
    exact (H eq_refl eq_refl).
  - destruct (add_by_types no_externals (VString "ab") (VInt 1)) as (_ & _ & _ & H).
    apply H; [left; reflexivity | intros x y _; discriminate].
Defined.

(** C4, the claim as stated fails: the sum of a string and a number, and the
    sum of a boolean and a number, evaluate to [0.0] without an error. *)
Lemma add_string_number_counterexample :
  Runtime.execute no_externals ∅ false 2
    (Some (BinaryExpressionNode PLUS (LiteralNode (VString "a")) (LiteralNode (VInt 1))))
    (mkRtState ∅ [] [])
  = Ok (VDouble 0) (mkRtState ∅ [] [])
  /\ Runtime.execute no_externals ∅ false 2
    (Some (BinaryExpressionNode PLUS (LiteralNode (VBool true)) (LiteralNode (VInt 1))))
    (mkRtState ∅ [] [])
  = Ok (VDouble 0) (mkRtState ∅ [] []).
Proof. split; reflexivity. Qed.

(** ** Undefined variables *)

Section UndefinedVariables.

Variable E : Externals.
Variable functions : gmap string string.
Variable dap_running : bool.

(** C10. Reading a name that the variable store does not hold returns the
    integer [0], by [Variables::get] and by the evaluation of an identifier;
    it does not throw, and the store (the whole state) is left as it was. *)
Theorem undefined_variable_reads_zero (fuel : nat) (name : string) (st : RtState) :
  rt_variables st !! name = None ->
  Variables.get name (rt_variables st) = VInt 0
  /\ Runtime.execute E functions dap_running (S fuel) (Some (IdentifierNode name)) st
     = Ok (VInt 0) st.
Proof.
  intros H. unfold Variables.get. simpl.
  unfold Runtime.get_variable, Variables.get. rewrite H. split; reflexivity.
Qed.

End UndefinedVariables.

(** A witness of C10: [X] in the empty store. *)
Lemma undefined_variable_reads_zero_witness :
  Variables.get "X" ∅ = VInt 0
  /\ Runtime.execute no_externals ∅ false 1 (Some (IdentifierNode "X")) (mkRtState ∅ [] [])
     = Ok (VInt 0) (mkRtState ∅ [] []).
Proof.
  exact (undefined_variable_reads_zero no_externals ∅ false 0 "X" (mkRtState ∅ [] []) eq_refl).
Defined.

(** ** FOR loops *)

Lemma returns_more_refl {S A} (m : M S A) : returns_more m m.
Proof. intros s a s' H. exact H. Qed.

Lemma returns_more_bind {S A B} (m1 m2 : M S A) (k1 k2 : A -> M S B) :
  returns_more m1 m2 -> (forall a, returns_more (k1 a) (k2 a)) ->
  returns_more (bind m1 k1) (bind m2 k2).
Proof.
  intros Hm Hk s b s' H. unfold bind in *.
  destruct (m1 s) as [a s1 | |] eqn:H1; try discriminate.
  rewrite (Hm _ _ _ H1). now apply Hk.
Qed.

Section Monotone.

Variable E : Externals.
Variable functions : gmap string string.
Variable dap_running : bool.

#[local] Abbreviation execute := (Runtime.execute E functions dap_running).
#[local] Abbreviation for_loop := (Runtime.for_loop E functions dap_running).
#[local] Abbreviation while_loop := (Runtime.while_loop E functions dap_running).

Lemma execute_all_more (exec1 exec2 : option ASTNode -> Runtime.R Value) (nodes : list ASTNode) :
  (forall n, returns_more (exec1 n) (exec2 n)) ->
  returns_more (Runtime.execute_all exec1 nodes) (Runtime.execute_all exec2 nodes).
Proof.
  intros H. induction nodes as [|n rest IH]; simpl.
  - apply returns_more_refl.
  - apply returns_more_bind; [apply H | intros v].
    apply returns_more_bind; [apply IH | intros vs; apply returns_more_refl].
Qed.

Lemma execute_sequence_more (exec1 exec2 : option ASTNode -> Runtime.R Value)
    (statements : list ASTNode) (result : Value) :
  (forall n, returns_more (exec1 n) (exec2 n)) ->
  returns_more (Runtime.execute_sequence exec1 result statements)
               (Runtime.execute_sequence exec2 result statements).
Proof.
  intros H. revert result. induction statements as [|n rest IH]; intros result; simpl.
  - apply returns_more_refl.
  - apply returns_more_bind; [apply H | intros v; apply IH].
Qed.


Lemma execute_node_more (e1 e2 : option ASTNode -> Runtime.R Value)
    (f1 f2 : string -> float -> float -> option ASTNode -> Runtime.R Value)
    (w1 w2 : ASTNode -> option ASTNode -> Runtime.R Value) (node : option ASTNode) :
  (forall n, returns_more (e1 n) (e2 n)) ->
  (forall a b c d, returns_more (f1 a b c d) (f2 a b c d)) ->
  (forall a b, returns_more (w1 a b) (w2 a b)) ->
  returns_more (Runtime.execute_node E functions dap_running e1 f1 w1 node)
               (Runtime.execute_node E functions dap_running e2 f2 w2 node).
Proof.
  intros He Hf Hw. destruct node as [[]|]; simpl;
    repeat first
      [ apply returns_more_refl
      | apply He | apply Hf | apply Hw
      | apply returns_more_bind; [| intros ?]
      | apply execute_all_more; intros ?
      | apply execute_sequence_more; intros ?
      | match goal with
        | |- returns_more (if ?c then _ else _) (if ?c then _ else _) => destruct c
        | |- returns_more (match ?x with _ => _ end) (match ?x with _ => _ end) => destruct x
        end ].
Qed.

Lemma for_turn_more (e1 e2 : option ASTNode -> Runtime.R Value)
    (f1 f2 : string -> float -> float -> option ASTNode -> Runtime.R Value)
    name endVal stepVal body :
  (forall n, returns_more (e1 n) (e2 n)) ->
  (forall a b c d, returns_more (f1 a b c d) (f2 a b c d)) ->
  returns_more (Runtime.for_turn e1 f1 name endVal stepVal body)
               (Runtime.for_turn e2 f2 name endVal stepVal body).
Proof.
  intros He Hf. unfold Runtime.for_turn.
  apply returns_more_bind; [apply returns_more_refl | intros current].
  destruct (_ && _); [apply returns_more_refl |].
  destruct (_ && _); [apply returns_more_refl |].
  apply returns_more_bind; [apply He | intros _].
  apply returns_more_bind; [apply returns_more_refl | intros _]. apply Hf.
Qed.

Lemma while_turn_more (e1 e2 : option ASTNode -> Runtime.R Value)
    (w1 w2 : ASTNode -> option ASTNode -> Runtime.R Value) condition body :
  (forall n, returns_more (e1 n) (e2 n)) ->
  (forall a b, returns_more (w1 a b) (w2 a b)) ->
  returns_more (Runtime.while_turn e1 w1 condition body)
               (Runtime.while_turn e2 w2 condition body).
Proof.
  intros He Hw. unfold Runtime.while_turn.
  apply returns_more_bind; [apply He | intros c].
  destruct (RuntimeOps.isTruthy c); [| apply returns_more_refl].
  apply returns_more_bind; [apply He | intros _]. apply Hw.
Qed.

Lemma execute_more_step (fuel : nat) :
  (forall node, returns_more (execute fuel node) (execute (S fuel) node))
  /\ (forall name endVal stepVal body,
        returns_more (for_loop fuel name endVal stepVal body)
                     (for_loop (S fuel) name endVal stepVal body))
  /\ (forall condition body,
        returns_more (while_loop fuel condition body) (while_loop (S fuel) condition body)).
Proof.
  induction fuel as [|fuel (IHe & IHf & IHw)].
  - repeat split; intros; intros s a s' H; discriminate.
  - split; [| split]; intros.
    + apply execute_node_more; assumption.
    + apply for_turn_more; assumption.
    + apply while_turn_more; assumption.
Qed.

Lemma execute_more (fuel fuel' : nat) (node : option ASTNode) :
  (fuel <= fuel')%nat -> returns_more (execute fuel node) (execute fuel' node).
Proof.
  induction 1 as [|fuel' _ IH]; [apply returns_more_refl |].
  intros s a s' H. apply (proj1 (execute_more_step fuel')). now apply IH.
Qed.

Lemma for_loop_more (fuel fuel' : nat) name endVal stepVal body :
  (fuel <= fuel')%nat ->
  returns_more (for_loop fuel name endVal stepVal body) (for_loop fuel' name endVal stepVal body).
Proof.
  induction 1 as [|fuel' _ IH]; [apply returns_more_refl |].
  intros s a s' H. apply (proj1 (proj2 (execute_more_step fuel'))). now apply IH.
Qed.

End Monotone.

(** *** Ordered floating-point numbers *)

Lemma SFcompare_antisym (x y : spec_float) (c : comparison) :
  SFcompare x y = Some c -> SFcompare y x = Some (CompOpp c).
Proof.
  destruct x as [sx | sx | | sx mx ex], y as [sy | sy | | sy my ey]; simpl;
    try discriminate; intros H; injection H as <-;
    try (destruct sx; reflexivity); try (destruct sy; reflexivity);
    try (destruct sx, sy; reflexivity).
  destruct sx, sy; try reflexivity.
  - rewrite (Z.compare_antisym ex ey).
    destruct (ex ?= ey); simpl; try reflexivity.
    now rewrite (Pos.compare_cont_antisym mx my Eq).
  - rewrite (Z.compare_antisym ex ey).
    destruct (ex ?= ey); simpl; try reflexivity.
    now rewrite (Pos.compare_cont_antisym mx my Eq).
Qed.

Lemma SFcompare_ordered (x y : spec_float) :
  SFeqb x x = true -> SFeqb y y = true -> exists c, SFcompare x y = Some c.
Proof.
  unfold SFeqb. destruct x, y; simpl; try discriminate; eauto.
Qed.

(** For two numbers (neither is a NaN), "not greater" is "less or equal". *)
Lemma not_ltb_leb (x y : float) :
  PrimFloat.is_nan x = false -> PrimFloat.is_nan y = false ->
  PrimFloat.ltb y x = negb (PrimFloat.leb x y).
Proof.
  unfold PrimFloat.is_nan. intros Hx Hy.
  apply negb_false_iff in Hx, Hy. rewrite FloatAxioms.eqb_spec in Hx, Hy. rewrite FloatAxioms.ltb_spec, FloatAxioms.leb_spec.
  destruct (SFcompare_ordered _ _ Hx Hy) as [c Hc].
  unfold SFltb, SFleb. rewrite Hc, (SFcompare_antisym _ _ _ Hc). now destruct c.
Qed.

Lemma loop_continues_ordered (endVal stepVal value : float) :
  PrimFloat.is_nan value = false -> PrimFloat.is_nan endVal = false ->
  ~ loop_over endVal stepVal value <->
  (PrimFloat.ltb 0%float stepVal = true -> PrimFloat.leb value endVal = true)
  /\ (PrimFloat.ltb stepVal 0%float = true -> PrimFloat.leb endVal value = true).
Proof.
  intros Hv He. unfold loop_over.
  rewrite (not_ltb_leb value endVal Hv He), (not_ltb_leb endVal value He Hv).
  destruct (PrimFloat.ltb 0%float stepVal), (PrimFloat.ltb stepVal 0%float),
    (PrimFloat.leb value endVal), (PrimFloat.leb endVal value); simpl;
    intuition congruence.
Qed.

Section ForLoops.

Import RuntimeOps.

Variable E : Externals.
Variable functions : gmap string string.
Variable dap_running : bool.

#[local] Abbreviation execute := (Runtime.execute E functions dap_running).
#[local] Abbreviation for_loop := (Runtime.for_loop E functions dap_running).
#[local] Abbreviation evaluates := (evaluates E functions dap_running).
#[local] Abbreviation for_iterates := (for_iterates E functions dap_running).

Lemma loop_over_guard (endVal stepVal value : float) :
  loop_over endVal stepVal value <->
  (PrimFloat.ltb 0%float stepVal && PrimFloat.ltb endVal value = true
   \/ PrimFloat.ltb stepVal 0%float && PrimFloat.ltb value endVal = true).
Proof. unfold loop_over. rewrite !andb_true_iff. reflexivity. Qed.

(** One turn of the loop, by cases on the test and on the body. *)
Lemma for_loop_turn (fuel : nat) name endVal stepVal body (st : RtState) :
  for_loop (S fuel) name endVal stepVal body st =
  if PrimFloat.ltb 0%float stepVal && PrimFloat.ltb endVal (loop_value name st)
  then Ok Value_default st
  else if PrimFloat.ltb stepVal 0%float && PrimFloat.ltb (loop_value name st) endVal
  then Ok Value_default st
  else
    match execute fuel body st with
    | Ok _ st1 =>
        for_loop fuel name endVal stepVal body
          (assign name (VDouble (loop_value name st + stepVal)%float) st1)
    | Throw w st1 => Throw w st1
    | OutOfFuel => OutOfFuel
    end.
Proof.
  simpl. unfold Runtime.for_turn, bind, Runtime.get_variable, loop_value. simpl.
  destruct (_ && _); [reflexivity |]. destruct (_ && _); [reflexivity |].
  destruct (execute fuel body st); reflexivity.
Qed.

Lemma for_loop_sound (fuel : nat) name endVal stepVal body (st st' : RtState) (v : Value) :
  for_loop fuel name endVal stepVal body st = Ok v st' ->
  v = Value_default /\ for_iterates name endVal stepVal body st st'.
Proof.
  revert st. induction fuel as [|fuel IH]; intros st H; [discriminate |].
  rewrite for_loop_turn in H.
  destruct (PrimFloat.ltb 0%float stepVal && PrimFloat.ltb endVal (loop_value name st)) eqn:G1.
  { injection H as <- <-. split; [reflexivity |].
    apply for_stops, loop_over_guard. now left. }
  destruct (PrimFloat.ltb stepVal 0%float && PrimFloat.ltb (loop_value name st) endVal) eqn:G2.
  { injection H as <- <-. split; [reflexivity |].
    apply for_stops, loop_over_guard. now right. }
  destruct (execute fuel body st) as [b st1 | |] eqn:Hb; try discriminate.
  destruct (IH _ H) as [-> Hrest]. split; [reflexivity |].
  eapply for_continues; [| exists fuel; exact Hb | exact Hrest].
  rewrite loop_over_guard, G1, G2. intros [? | ?]; discriminate.
Qed.

Lemma for_loop_complete name endVal stepVal body (st st' : RtState) :
  for_iterates name endVal stepVal body st st' ->
  exists fuel, for_loop fuel name endVal stepVal body st = Ok Value_default st'.
Proof.
  induction 1 as [st Hover | st st1 st2 v Hgo [fb Hb] _ [fr Hr]].
  - exists 1%nat. rewrite for_loop_turn.
    apply loop_over_guard in Hover as [G1 | G2].
    + now rewrite G1.
    + destruct (PrimFloat.ltb 0%float stepVal && _); [reflexivity |]. now rewrite G2.
  - exists (S (Nat.max fb fr)). rewrite for_loop_turn.
    rewrite loop_over_guard in Hgo.
    destruct (PrimFloat.ltb 0%float stepVal && PrimFloat.ltb endVal (loop_value name st));
      [exfalso; apply Hgo; now left |].
    destruct (PrimFloat.ltb stepVal 0%float && PrimFloat.ltb (loop_value name st) endVal);
      [exfalso; apply Hgo; now right |].
    rewrite (execute_more E functions dap_running fb (Nat.max fb fr) body (Nat.le_max_l _ _) _ _ _ Hb).
    exact (for_loop_more E functions dap_running fr (Nat.max fb fr) _ _ _ _ (Nat.le_max_r _ _) _ _ _ Hr).
Qed.

Lemma for_statement_sound (fuel : nat) line name startValue endValue stepValue body
    (st st' : RtState) (v : Value) :
  execute fuel (Some (ForStatementNode line name startValue endValue stepValue body)) st
    = Ok v st' ->
  v = Value_default
  /\ for_statement E functions dap_running name startValue endValue stepValue body st st'.
Proof.
  destruct fuel as [|fuel]; [discriminate |]. simpl. unfold bind.
  destruct (execute fuel (Some startValue) st) as [start st1 | |] eqn:H1; try discriminate.
  destruct (execute fuel (Some endValue) st1) as [end_ st2 | |] eqn:H2; try discriminate.
  destruct stepValue as [stepNode |].
  - destruct (execute fuel (Some stepNode) st2) as [step st3 | |] eqn:H3; try discriminate.
    simpl. intros H. apply for_loop_sound in H as [-> H]. split; [reflexivity |].
    exists start, end_, step, st1, st2, st3.
    repeat split; [exists fuel; exact H1 | exists fuel; exact H2 | exists fuel; exact H3 | exact H].
  - simpl. intros H. apply for_loop_sound in H as [-> H]. split; [reflexivity |].
    exists start, end_, (VInt 1), st1, st2, st2.
    repeat split; [exists fuel; exact H1 | exists fuel; exact H2 | exact H].
Qed.

Lemma for_statement_complete line name startValue endValue stepValue body (st st' : RtState) :
  for_statement E functions dap_running name startValue endValue stepValue body st st' ->
  exists fuel,
    execute fuel (Some (ForStatementNode line name startValue endValue stepValue body)) st
      = Ok Value_default st'.
Proof.
  intros (start & end_ & step & st1 & st2 & st3 & [f1 H1] & [f2 H2] & H3 & Hit).
  apply for_loop_complete in Hit as [f4 H4].
  destruct stepValue as [stepNode |].
  - destruct H3 as [f3 H3].
    set (F := Nat.max (Nat.max f1 f2) (Nat.max f3 f4)).
    exists (S F). simpl. unfold bind.
    rewrite (execute_more E functions dap_running f1 F _ ltac:(lia) _ _ _ H1).
    rewrite (execute_more E functions dap_running f2 F _ ltac:(lia) _ _ _ H2).
    rewrite (execute_more E functions dap_running f3 F _ ltac:(lia) _ _ _ H3).
    simpl. exact (for_loop_more E functions dap_running f4 F _ _ _ _ ltac:(lia) _ _ _ H4).
  - destruct H3 as [-> ->].
    set (F := Nat.max (Nat.max f1 f2) f4).
    exists (S F). simpl. unfold bind.
    rewrite (execute_more E functions dap_running f1 F _ ltac:(lia) _ _ _ H1).
    rewrite (execute_more E functions dap_running f2 F _ ltac:(lia) _ _ _ H2).
    simpl. exact (for_loop_more E functions dap_running f4 F _ _ _ _ ltac:(lia) _ _ _ H4).
Qed.


(** *** The two loops of the specification *)

Lemma for_print_turn (fuel : nat) name endVal stepVal line vars cin out (cur : float) :
  vars !! name = Some (VDouble cur) ->
  PrimFloat.ltb 0%float stepVal && PrimFloat.ltb endVal cur = false ->
  PrimFloat.ltb stepVal 0%float && PrimFloat.ltb cur endVal = false ->
  for_loop (S (S (S fuel))) name endVal stepVal
    (Some (PrintStatementNode line [IdentifierNode name])) (mkRtState vars cin out)
  = for_loop (S (S fuel)) name endVal stepVal
      (Some (PrintStatementNode line [IdentifierNode name]))
      (mkRtState (<[name := VDouble (cur + stepVal)%float]> vars) cin
         (out ++ [sink dap_running (ext_format_double E cur +:+ endl)])).
Proof.
  intros Hv G1 G2. rewrite for_loop_turn.
  unfold loop_value, Variables.get. simpl. rewrite Hv. simpl. rewrite G1, G2.
  unfold Runtime.execute_all, bind, Runtime.get_variable, Variables.get, ret. simpl.
  rewrite Hv. unfold sink. destruct dap_running; reflexivity.
Qed.

Lemma for_print_stop (fuel : nat) name endVal stepVal body vars cin out (cur : float) :
  vars !! name = Some (VDouble cur) ->
  PrimFloat.ltb 0%float stepVal && PrimFloat.ltb endVal cur
  || PrimFloat.ltb stepVal 0%float && PrimFloat.ltb cur endVal = true ->
  for_loop (S fuel) name endVal stepVal body (mkRtState vars cin out)
  = Ok Value_default (mkRtState vars cin out).
Proof.
  intros Hv G. rewrite for_loop_turn.
  unfold loop_value, Variables.get. simpl. rewrite Hv. simpl.
  destruct (PrimFloat.ltb 0%float stepVal && PrimFloat.ltb endVal cur); [reflexivity |].
  simpl in G. now rewrite G.
Qed.

Lemma execute_S (fuel : nat) (node : option ASTNode) :
  execute (S fuel) node
  = Runtime.execute_node E functions dap_running (execute fuel) (for_loop fuel)
      (Runtime.while_loop E functions dap_running fuel) node.
Proof. reflexivity. Qed.

Lemma execute_literal (fuel : nat) (v : Value) (st : RtState) :
  execute (S fuel) (Some (LiteralNode v)) st = Ok v st.
Proof. reflexivity. Qed.

Ltac turn :=
  erewrite for_print_turn;
    [| apply lookup_insert_eq | reflexivity | reflexivity ];
  rewrite insert_insert_eq; try rewrite <- app_assoc; simpl app.

Lemma for_1_to_5 (fuel : nat) (line line' : Z) (st : RtState) :
  execute (8 + fuel)
    (Some (ForStatementNode line "I" (LiteralNode (VInt 1)) (LiteralNode (VInt 5)) None
             (Some (PrintStatementNode line' [IdentifierNode "I"])))) st
  = Ok Value_default
      (mkRtState (<["I" := VDouble 6]> (rt_variables st)) (rt_cin st)
         (rt_out st ++ map (fun d => sink dap_running (ext_format_double E d +:+ endl))
                           [1; 2; 3; 4; 5]%float)).
Proof.
  destruct st as [vars cin out].
  change (8 + fuel)%nat with (S (S (S (S (S (S (S (S fuel)))))))).
  rewrite execute_S. unfold Runtime.execute_node, bind. rewrite !execute_literal.
  unfold ret, Runtime.set_variable, modify, Variables.set. cbn [rt_variables rt_cin rt_out].
  change (numeric_or 0%float (VInt 1)) with 1%float.
  change (numeric_or 0%float (VInt 5)) with 5%float.
  change (numeric_or 1%float (VInt 1)) with 1%float.
  do 5 turn.
  erewrite for_print_stop; [| apply lookup_insert_eq | reflexivity].
  reflexivity.
Qed.

Lemma for_5_down_to_1 (fuel : nat) (line line' : Z) (st : RtState) :
  execute (8 + fuel)
    (Some (ForStatementNode line "I" (LiteralNode (VInt 5)) (LiteralNode (VInt 1))
             (Some (UnaryExpressionNode MINUS (LiteralNode (VInt 1))))
             (Some (PrintStatementNode line' [IdentifierNode "I"])))) st
  = Ok Value_default
      (mkRtState (<["I" := VDouble 0]> (rt_variables st)) (rt_cin st)
         (rt_out st ++ map (fun d => sink dap_running (ext_format_double E d +:+ endl))
                           [5; 4; 3; 2; 1]%float)).
Proof.
  destruct st as [vars cin out].
  change (8 + fuel)%nat with (S (S (S (S (S (S (S (S fuel)))))))).
  rewrite execute_S. unfold Runtime.execute_node, bind. rewrite !execute_literal.
  rewrite execute_S. unfold Runtime.execute_node, bind. rewrite !execute_literal.
  unfold ret, Runtime.set_variable, modify, Variables.set. cbn [rt_variables rt_cin rt_out].
  change (numeric_or 0%float (VInt 5)) with 5%float.
  change (numeric_or 0%float (VInt 1)) with 1%float.
  change (numeric_or 1%float (Runtime.unary MINUS (VInt 1))) with (-1)%float.
  do 5 turn.
  erewrite for_print_stop; [| apply lookup_insert_eq | reflexivity].
  reflexivity.
Qed.


(** C1, as amended.  A [FOR] statement returns exactly when, and with the
    state that, the specification's reading gives: start, end and step are
    evaluated once each, in this order (the step is [1] when absent), and
    converted to [double]; the variable is assigned the start; the body runs
    until the step is positive and the value is past the end, or the step is
    negative and the value is before the end, the variable taking after each
    run its value at the head of the turn plus the step.  For numbers (no
    NaN) the loop goes on exactly while [step > 0] implies [value <= end] and
    [step < 0] implies [value >= end].  [FOR I = 1 TO 5 PRINT I] parses to a
    statement that runs its body 5 times, with [I] taking 1, 2, 3, 4, 5 in
    order, and the statement from 5 to 1 whose step evaluates to [-1] runs it
    5 times, descending. *)
Theorem for_statement_semantics :
  (forall line name startValue endValue stepValue body (st st' : RtState) (v : Value),
     (exists fuel,
        execute fuel (Some (ForStatementNode line name startValue endValue stepValue body)) st
          = Ok v st')
     <-> v = Value_default
         /\ for_statement E functions dap_running name startValue endValue stepValue body st st')
  /\ (forall endVal stepVal value : float,
        PrimFloat.is_nan value = false -> PrimFloat.is_nan endVal = false ->
        ~ loop_over endVal stepVal value <->
        (PrimFloat.ltb 0%float stepVal = true -> PrimFloat.leb value endVal = true)
        /\ (PrimFloat.ltb stepVal 0%float = true -> PrimFloat.leb endVal value = true))
  /\ (exists tokens,
        Lexer.tokenize "FOR I = 1 TO 5 PRINT I" = Return tokens
        /\ ParserEntry.parseLine E tokens
           = Ok (Some (ForStatementNode 1 "I" (LiteralNode (VInt 1)) (LiteralNode (VInt 5)) None
                         (Some (PrintStatementNode 1 [IdentifierNode "I"])))) 8%nat)
  /\ (forall (fuel : nat) (line line' : Z) (st : RtState),
        execute (8 + fuel)
          (Some (ForStatementNode line "I" (LiteralNode (VInt 1)) (LiteralNode (VInt 5)) None
                   (Some (PrintStatementNode line' [IdentifierNode "I"])))) st
        = Ok Value_default
            (mkRtState (<["I" := VDouble 6]> (rt_variables st)) (rt_cin st)
               (rt_out st ++ map (fun d => sink dap_running (ext_format_double E d +:+ endl))
                                 [1; 2; 3; 4; 5]%float)))
  /\ (forall (fuel : nat) (line line' : Z) (st : RtState),
        execute (8 + fuel)
          (Some (ForStatementNode line "I" (LiteralNode (VInt 5)) (LiteralNode (VInt 1))
                   (Some (UnaryExpressionNode MINUS (LiteralNode (VInt 1))))
                   (Some (PrintStatementNode line' [IdentifierNode "I"])))) st
        = Ok Value_default
            (mkRtState (<["I" := VDouble 0]> (rt_variables st)) (rt_cin st)
               (rt_out st ++ map (fun d => sink dap_running (ext_format_double E d +:+ endl))
                                 [5; 4; 3; 2; 1]%float))).
Proof.
  split; [| split; [| split; [| split]]].
  - intros. split.
    + intros [fuel H]. eapply for_statement_sound, H.
    + intros [-> H]. eapply for_statement_complete, H.
  - apply loop_continues_ordered.
  - eexists. split; [reflexivity |]. vm_compute. reflexivity.
  - apply for_1_to_5.
  - apply for_5_down_to_1.
Qed.

End ForLoops.

(** A witness of C1 as amended: the loop from 1 to 5 on the empty state,
    written to the console, and the test of the loop on numbers. *)
Lemma for_statement_semantics_witness :
  Runtime.execute no_externals ∅ false 8
    (Some (ForStatementNode 1 "I" (LiteralNode (VInt 1)) (LiteralNode (VInt 5)) None
             (Some (PrintStatementNode 1 [IdentifierNode "I"])))) (mkRtState ∅ [] [])
  = Ok Value_default
      (mkRtState (<["I" := VDouble 6]> ∅) []
         (map (fun d => ToConsole (ext_format_double no_externals d +:+ endl))
              [1; 2; 3; 4; 5]%float))
  /\ (~ loop_over 5 1 5 <->
      (PrimFloat.ltb 0 1 = true -> PrimFloat.leb 5 5 = true)
      /\ (PrimFloat.ltb 1 0 = true -> PrimFloat.leb 5 5 = true)).
Proof.
  destruct (for_statement_semantics no_externals ∅ false) as (_ & Hord & _ & Hup & _).
  split.
  - exact (Hup 0%nat 1 1 (mkRtState ∅ [] [])).
  - exact (Hord 5%float 1%float 5%float eq_refl eq_refl).
Defined.

(** C1, the claim as stated fails.  The line [FOR I = 5 TO 1 STEP -1 PRINT I]
    does not parse (no rule of the parser starts with [-]): the line fails
    and its body never runs.  And a loop whose end is a NaN runs its body
    although [value <= end] is false: here from 1, the body divides by zero
    and its error comes out of the loop. *)
Lemma for_statement_counterexample :
  BasicInterpreter.executeLine no_externals false 100 "FOR I = 5 TO 1 STEP -1 PRINT I"
    (BasicInterpreter.mkSession BasicInterpreter.initial [] [])
  = Ok false
      (BasicInterpreter.mkSession
         (BasicInterpreter.with_lastError_
            "Failed to parse line: FOR I = 5 TO 1 STEP -1 PRINT I" BasicInterpreter.initial)
         [] [])
  /\ PrimFloat.leb 1 PrimFloat.nan = false
  /\ Runtime.execute no_externals ∅ false 10
       (Some (ForStatementNode 1 "I" (LiteralNode (VInt 1)) (LiteralNode (VDouble PrimFloat.nan))
                None
                (Some (BinaryExpressionNode DIVIDE (LiteralNode (VInt 1)) (LiteralNode (VInt 0))))))
       (mkRtState ∅ [] [])
     = Throw "Division by zero" (mkRtState (<["I" := VDouble 1]> ∅) [] []).
Proof. repeat split; vm_compute; reflexivity. Qed.

(** ** Running a line and evaluating an expression *)

Lemma session_eta (s : BasicInterpreter.Session) :
  BasicInterpreter.mkSession
    (BasicInterpreter.with_variables_ (BasicInterpreter.variables_ (BasicInterpreter.interp s))
       (BasicInterpreter.interp s))
    (BasicInterpreter.cin s) (BasicInterpreter.written s) = s.
Proof. destruct s as [[] ? ?]. reflexivity. Qed.

Lemma execute_unfold (E : Externals) (functions : gmap string string) (dap_running : bool)
    (fuel : nat) (node : option ASTNode) :
  Runtime.execute E functions dap_running (S fuel) node
  = Runtime.execute_node E functions dap_running (Runtime.execute E functions dap_running fuel)
      (Runtime.for_loop E functions dap_running fuel)
      (Runtime.while_loop E functions dap_running fuel) node.
Proof. reflexivity. Qed.

(** Computes the closed subterm of the goal that [pattern] matches. *)
Ltac compute_call f :=
  match goal with
  | |- context [f ?a] =>
      let x := eval vm_compute in (f a) in change (f a) with x
  end.

Ltac compute_call2 f :=
  match goal with
  | |- context [f ?a ?b] =>
      let x := eval vm_compute in (f a b) in change (f a b) with x
  end.

(** Lexes and parses the closed text of the goal, up to the call of the
    runtime. *)
Ltac lex_and_parse :=
  unfold bind;
  compute_call Lexer.tokenize;
  cbv beta iota delta [lift_except ret];
  compute_call2 ParserEntry.parseLine;
  cbv beta iota; unfold get_state, BasicInterpreter.run_runtime.

(** Runs [executeLine] on the closed line [text], up to the call of the
    runtime. *)
Ltac parse_line text :=
  let v := eval vm_compute in text in
  change text with v;
  unfold BasicInterpreter.executeLine, try_catch, BasicInterpreter.executeLine_body;
  compute_call2 String.eqb; cbv beta iota;
  compute_call match_line_number; cbv beta iota;
  compute_call2 Ascii.eqb; cbv beta iota;
  lex_and_parse.

Section Evaluate.

Variable E : Externals.
Variable dap_running : bool.

(** C6, on the code.  [2+2*2] parses to a tree whose two operators are
    [NUMBER], the type of the token after the operator, and evaluates to the
    integer [0], although the runtime gives [6] on the tree with the
    operators [PLUS] and [MULTIPLY].  [LEN("abc")] throws "Function 'LEN' not
    defined" (as long as no function of that name is defined by the user),
    although the built-in computes [3]: a built-in's result that is an [int]
    is taken for "not a built-in". *)
Theorem evaluate_examples (fuel : nat) (s : BasicInterpreter.Session) :
  BasicInterpreter.functions_ (BasicInterpreter.interp s) !! "LEN" = None ->
  (exists tokens,
     Lexer.tokenize "2+2*2" = Return tokens
     /\ ParserEntry.parseLine E tokens
        = Ok (Some (BinaryExpressionNode NUMBER (LiteralNode (VInt 2))
                      (BinaryExpressionNode NUMBER (LiteralNode (VInt 2)) (LiteralNode (VInt 2)))))
             5%nat)
  /\ BasicInterpreter.evaluateExpression E dap_running (3 + fuel) "2+2*2" s = Ok (VInt 0) s
  /\ BasicInterpreter.run_runtime
       (Runtime.execute E (BasicInterpreter.functions_ (BasicInterpreter.interp s)) dap_running
          (3 + fuel)
          (Some (BinaryExpressionNode PLUS (LiteralNode (VInt 2))
                   (BinaryExpressionNode MULTIPLY (LiteralNode (VInt 2)) (LiteralNode (VInt 2))))))
       s
     = Ok (VDouble 6) s
  /\ BasicInterpreter.evaluateExpression E dap_running (3 + fuel) text_len_abc s
     = Throw "Function 'LEN' not defined" s
  /\ Functions.callBuiltin E "LEN" [VString "abc"] = Return (VInt 3).
Proof.
  intros Hlen. split; [| split; [| split; [| split]]].
  - eexists. split; [reflexivity |]. vm_compute. reflexivity.
  - unfold BasicInterpreter.evaluateExpression. lex_and_parse.
    change (3 + fuel)%nat with (S (S (S fuel))).
    rewrite execute_unfold. unfold Runtime.execute_node, bind.
    rewrite execute_unfold. unfold Runtime.execute_node at 1. unfold ret, bind.
    rewrite execute_unfold. unfold Runtime.execute_node at 1. unfold ret, bind.
    simpl. now rewrite session_eta.
  - unfold BasicInterpreter.run_runtime.
    change (3 + fuel)%nat with (S (S (S fuel))).
    rewrite execute_unfold. unfold Runtime.execute_node, bind.
    rewrite execute_unfold. unfold Runtime.execute_node at 1. unfold ret, bind.
    rewrite execute_unfold. unfold Runtime.execute_node at 1. unfold ret, bind.
    simpl. now rewrite session_eta.
  - change text_len_abc with ltac:(let v := eval vm_compute in text_len_abc in exact v).
    unfold BasicInterpreter.evaluateExpression. lex_and_parse.
    change (3 + fuel)%nat with (S (S (S fuel))).
    rewrite execute_unfold. unfold Runtime.execute_node, Runtime.execute_all, bind.
    rewrite execute_unfold. unfold Runtime.execute_node at 1. unfold ret, get_state.
    unfold Functions.call.
    set (b := Functions.callBuiltin _ _ _). vm_compute in b. subst b.
    cbv beta iota delta [index Nat.eqb negb]. cbn [rt_variables].
    rewrite Hlen. rewrite bool_decide_eq_false_2 by (intros [x Hx]; discriminate).
    simpl. now rewrite session_eta.
  - reflexivity.
Qed.

End Evaluate.

(** A witness of C6: the two expressions on the interpreter as constructed. *)
Lemma evaluate_examples_witness :
  BasicInterpreter.evaluateExpression no_externals false 3 "2+2*2" fresh_session
    = Ok (VInt 0) fresh_session
  /\ BasicInterpreter.evaluateExpression no_externals false 3 text_len_abc fresh_session
     = Throw "Function 'LEN' not defined" fresh_session.
Proof.
  destruct (evaluate_examples no_externals false 0 fresh_session eq_refl)
    as (_ & H2 & _ & H4 & _).
  split; assumption.
Defined.

(** ** Division by zero *)

Section DivisionByZero.

Import RuntimeOps.

Variable E : Externals.
Variable dap_running : bool.

(** A binary expression whose two operands evaluate runs the [switch] of
    [executeBinaryExpression] on their values. *)
Lemma execute_binary (functions : gmap string string) (fuel : nat) (operator_ : TokenType)
    (lhs rhs : ASTNode) (a b : Value) (st st1 st2 : RtState) :
  Runtime.execute E functions dap_running fuel (Some lhs) st = Ok a st1 ->
  Runtime.execute E functions dap_running fuel (Some rhs) st1 = Ok b st2 ->
  Runtime.execute E functions dap_running (S fuel) (Some (BinaryExpressionNode operator_ lhs rhs)) st
  = lift_except (Runtime.binary E operator_ a b) st2.
Proof.
  intros Hl Hr. rewrite execute_unfold. unfold Runtime.execute_node, bind.
  now rewrite Hl, Hr.
Qed.

(** C2, on the code.  The runtime does what the claim says: a binary
    expression with the operator [DIVIDE] or [MOD] whose operands evaluate to
    numbers throws when the right one compares equal to zero, and returns the
    quotient, or the remainder of [std::fmod], of the operands converted to
    [double] when it does not.  The parser never builds such a node: [7/0]
    and [7%0] parse to trees whose operator is [NUMBER], the type of the
    token after the operator, and evaluate to the integer [0] with no
    error. *)
Theorem division_by_zero_evaluation (fuel : nat) (s : BasicInterpreter.Session) :
  (forall functions (n : nat) (lhs rhs : ASTNode) (a b : Value) (st st1 st2 : RtState),
      Runtime.execute E functions dap_running n (Some lhs) st = Ok a st1 ->
      Runtime.execute E functions dap_running n (Some rhs) st1 = Ok b st2 ->
      is_numeric a = true -> is_numeric b = true ->
      let da := numeric_or 0%float a in
      let db := numeric_or 0%float b in
      let run (operator_ : TokenType) :=
        Runtime.execute E functions dap_running (S n)
          (Some (BinaryExpressionNode operator_ lhs rhs)) st in
      (PrimFloat.eqb db 0%float = true ->
       run DIVIDE = Throw "Division by zero" st2 /\ run MOD = Throw "Modulo by zero" st2)
      /\ (PrimFloat.eqb db 0%float = false ->
          run DIVIDE = Ok (VDouble (da / db)%float) st2
          /\ run MOD = Ok (VDouble (ext_fmod E da db)) st2))
  /\ (exists tokens,
         Lexer.tokenize "7/0" = Return tokens
         /\ ParserEntry.parseLine E tokens
            = Ok (Some (BinaryExpressionNode NUMBER (LiteralNode (VInt 7)) (LiteralNode (VInt 0))))
                3%nat)
  /\ (exists tokens,
         Lexer.tokenize "7%0" = Return tokens
         /\ ParserEntry.parseLine E tokens
            = Ok (Some (BinaryExpressionNode NUMBER (LiteralNode (VInt 7)) (LiteralNode (VInt 0))))
                3%nat)
  /\ BasicInterpreter.evaluateExpression E dap_running (2 + fuel) "7/0" s = Ok (VInt 0) s
  /\ BasicInterpreter.evaluateExpression E dap_running (2 + fuel) "7%0" s = Ok (VInt 0) s.
Proof.
  split; [| split; [| split; [| split]]].
  - intros functions n lhs rhs a b st st1 st2 Hl Hr Ha Hb da db run.
    destruct (divide_modulo_by_zero E a b Ha Hb) as [Hzero Hother].
    subst run. cbv beta. rewrite !(execute_binary _ _ _ _ _ _ _ _ _ _ Hl Hr).
    split; intros Hz.
    + destruct (Hzero Hz) as (_ & _ & H1 & H2). now rewrite H1, H2.
    + destruct (Hother Hz) as (_ & _ & H1 & H2). now rewrite H1, H2.
  - eexists. split; [reflexivity |]. vm_compute. reflexivity.
  - eexists. split; [reflexivity |]. vm_compute. reflexivity.
  - unfold BasicInterpreter.evaluateExpression. lex_and_parse.
    change (2 + fuel)%nat with (S (S fuel)).
    erewrite execute_binary by reflexivity.
    simpl. now rewrite session_eta.
  - unfold BasicInterpreter.evaluateExpression. lex_and_parse.
    change (2 + fuel)%nat with (S (S fuel)).
    erewrite execute_binary by reflexivity.
    simpl. now rewrite session_eta.
Qed.

End DivisionByZero.

(** ** PRINT *)

Section Printing.

Variable E : Externals.
Variable dap_running : bool.

Lemma join_values_concat (values : list Value) :
  Runtime.join_values E values = String.concat " " (map (stream_value E) values).
Proof.
  induction values as [|v [|w rest] IH]; [reflexivity | reflexivity |].
  change (Runtime.join_values E (v :: w :: rest))
    with (stream_value E v +:+ " " +:+ Runtime.join_values E (w :: rest)).
  now rewrite IH.
Qed.

Lemma print_statement functions (fuel : nat) (line : Z) (expressions : list ASTNode)
    (st st1 : RtState) (values : list Value) :
  Runtime.execute_all (Runtime.execute E functions dap_running fuel) expressions st
    = Ok values st1 ->
  Runtime.execute E functions dap_running (S fuel) (Some (PrintStatementNode line expressions)) st
  = Ok Value_default
      (mkRtState (rt_variables st1) (rt_cin st1)
         (rt_out st1
          ++ [sink dap_running (String.concat " " (map (stream_value E) values) +:+ endl)])).
Proof.
  intros H. rewrite execute_unfold. unfold Runtime.execute_node, bind. rewrite H.
  unfold Runtime.print_text. rewrite join_values_concat. unfold sink.
  destruct dap_running; reflexivity.
Qed.

Lemma print_line (fuel : nat) (s : BasicInterpreter.Session) :
  BasicInterpreter.executeLine E dap_running (2 + fuel) text_print_comma s
  = Ok true (session_wrote (sink dap_running ("Hello,  World!" +:+ endl)) s)
  /\ BasicInterpreter.executeLine E dap_running (2 + fuel) text_print_semicolon s
  = Ok true (session_wrote (sink dap_running ("Hello, " +:+ endl)) s).
Proof.
  split.
  - parse_line text_print_comma.
    change (2 + fuel)%nat with (S (S fuel)).
    erewrite print_statement by reflexivity.
    cbn [rt_variables rt_cin rt_out]. unfold session_wrote.
    destruct s as [[] ? ?]. reflexivity.
  - parse_line text_print_semicolon.
    change (2 + fuel)%nat with (S (S fuel)).
    erewrite print_statement by reflexivity.
    cbn [rt_variables rt_cin rt_out]. unfold session_wrote.
    destruct s as [[] ? ?]. reflexivity.
Qed.

End Printing.

(** ** Numeric literals *)

(** *** Digits *)

Lemma isdigit_code (c : ascii) :
  Char.isdigit c = true <-> (48 <= Char.code c <= 57)%N.
Proof.
  unfold Char.isdigit. rewrite andb_true_iff, !N.leb_le. reflexivity.
Qed.

Lemma isdigit_not_space (c : ascii) : Char.isdigit c = true -> Char.isspace c = false.
Proof.
  rewrite isdigit_code. intros [H1 H2]. unfold Char.isspace.
  apply orb_false_iff. split.
  - apply andb_false_iff. right. apply N.leb_gt. lia.
  - apply N.eqb_neq. lia.
Qed.

Lemma isdigit_not (c k : ascii) :
  Char.isdigit c = true -> Char.isdigit k = false -> Ascii.eqb c k = false.
Proof.
  intros Hc Hk. destruct (Ascii.eqb c k) eqn:H; [| reflexivity].
  apply Ascii.eqb_eq in H. subst k. congruence.
Qed.

Lemma digit_value_range (c : ascii) : Char.isdigit c = true -> 0 <= digit_value c <= 9.
Proof. rewrite isdigit_code. unfold digit_value. lia. Qed.

Lemma digit_char_value (c : ascii) : Char.isdigit c = true -> digit_char (digit_value c) = c.
Proof.
  rewrite isdigit_code. intros H. unfold digit_char, digit_value.
  replace (Z.to_N (48 + (Z.of_N (Char.code c) - 48))) with (Char.code c) by lia.
  apply ascii_N_embedding.
Qed.

Lemma scan_number_digits (s : string) (hasDecimal : bool) :
  all_digits s = true -> Lexer.scan_number s hasDecimal = (s, EmptyString).
Proof.
  induction s as [|c r IH]; simpl; [reflexivity |].
  intros H. apply andb_true_iff in H as [Hc Hr]. rewrite Hc, (IH Hr). reflexivity.
Qed.

Lemma tokenize_loop_digit (fuel : nat) (c : ascii) (rest : string) (line column : Z) :
  Char.isdigit c = true ->
  Lexer.tokenize_loop (S fuel) (String c rest) line column
  = let '(number, remaining) := Lexer.scan_number (String c rest) false in
    Lexer.emit (mkToken NUMBER number line column)
      (Lexer.tokenize_loop fuel remaining line (column + strlen number)).
Proof.
  intros Hc. cbn [Lexer.tokenize_loop].
  rewrite (isdigit_not_space c Hc), (isdigit_not c "'" Hc eq_refl), Hc. reflexivity.
Qed.

Lemma tokenize_number (s : string) :
  all_digits s = true -> s <> EmptyString ->
  Lexer.tokenize s = Return (number_tokens s).
Proof.
  intros Hs Hne. destruct s as [|c r]; [congruence |].
  pose proof Hs as Hall. simpl in Hs. apply andb_true_iff in Hs as [Hc Hr].
  unfold Lexer.tokenize. rewrite (tokenize_loop_digit _ c r 1 1 Hc).
  rewrite (scan_number_digits _ false Hall). reflexivity.
Qed.

Lemma parse_number (E : Externals) (v : string) (l c l' c' : Z) :
  ParserEntry.parseLine E [mkToken NUMBER v l c; mkToken EOF_TOKEN EmptyString l' c']
  = Ok (Some (LiteralNode (Parser.number_literal E EmptyString v))) 1%nat.
Proof. reflexivity. Qed.

Lemma stoi_digits (s : string) :
  all_digits s = true -> s <> EmptyString ->
  stoi s = if digits_value 0 s <=? INT_MAX then Some (digits_value 0 s) else None.
Proof.
  intros Hs Hne. destruct s as [|c r]; [congruence |].
  pose proof Hs as Hall. simpl in Hs. apply andb_true_iff in Hs as [Hc Hr].
  unfold stoi. cbn [skip_spaces]. rewrite (isdigit_not_space c Hc). cbv iota.
  rewrite (isdigit_not c "-" Hc eq_refl), (isdigit_not c "+" Hc eq_refl). cbv iota beta.
  rewrite Hc.
  assert (H0 : 0 <= digits_value 0 (String c r)).
  { clear. generalize (String c r). intros s.
    assert (G : forall a, 0 <= a -> 0 <= digits_value a s).
    { induction s as [|x s IH]; intros a Ha; simpl; [exact Ha |].
      destruct (Char.isdigit x) eqn:Hx; [| exact Ha].
      apply IH. pose proof (digit_value_range x Hx). lia. }
    apply G. lia. }
  replace (INT_MIN <=? digits_value 0 (String c r)) with true
    by (symmetry; apply Z.leb_le; unfold INT_MIN; lia).
  reflexivity.
Qed.

Lemma digits_value_grows (s : string) (a : Z) :
  all_digits s = true -> 1 <= a -> a + strlen s <= digits_value a s.
Proof.
  revert a. induction s as [|c r IH]; intros a Hs Ha.
  - unfold strlen. simpl. lia.
  - simpl in Hs. apply andb_true_iff in Hs as [Hc Hr].
    simpl digits_value. rewrite Hc.
    pose proof (digit_value_range c Hc).
    specialize (IH (10 * a + digit_value c) Hr ltac:(lia)).
    unfold strlen in *. simpl String.length. lia.
Qed.

Lemma digits_of_step (fuel : nat) (n : Z) (acc : string) :
  digits_of (S fuel) n acc
  = if n <? 10 then String (digit_char (n mod 10)) acc
    else digits_of fuel (n / 10) (String (digit_char (n mod 10)) acc).
Proof. reflexivity. Qed.

(** Writing the number read from [a] and then the digits [r] writes [a],
    then [r]. *)
Lemma digits_of_value (r : string) :
  all_digits r = true ->
  forall (a : Z) (fuel : nat) (acc : string),
    1 <= a ->
    digits_of (fuel + String.length r) (digits_value a r) acc = digits_of fuel a (r +:+ acc).
Proof.
  induction r as [|c r IH]; intros Hs a fuel acc Ha.
  - simpl. now rewrite Nat.add_0_r.
  - simpl in Hs. apply andb_true_iff in Hs as [Hc Hr].
    simpl digits_value. rewrite Hc.
    pose proof (digit_value_range c Hc) as Hd.
    replace (fuel + String.length (String c r))%nat with (S fuel + String.length r)%nat
      by (simpl; lia).
    rewrite (IH Hr (10 * a + digit_value c) (S fuel) acc) by lia.
    rewrite digits_of_step.
    replace (10 * a + digit_value c <? 10) with false by (symmetry; apply Z.ltb_ge; lia).
    replace ((10 * a + digit_value c) mod 10) with (digit_value c)
      by (rewrite Z.add_comm, Z.mul_comm, Z_mod_plus_full; symmetry; apply Z.mod_small; lia).
    replace ((10 * a + digit_value c) / 10) with a
      by (rewrite Z.add_comm, Z.mul_comm, Z_div_plus_full by lia;
          rewrite Z.div_small by lia; lia).
    now rewrite (digit_char_value c Hc).
Qed.

Lemma int_to_string_digits (s : string) :
  canonical_integer s = true -> int_to_string (digits_value 0 s) = s.
Proof.
  destruct s as [|c r]; [discriminate |].
  unfold canonical_integer. rewrite andb_true_iff. intros [Hs Hlead].
  pose proof Hs as Hall. simpl in Hs. apply andb_true_iff in Hs as [Hc Hr].
  pose proof (digit_value_range c Hc) as Hd.
  simpl digits_value. rewrite Hc. rewrite Z.add_0_l.
  apply orb_true_iff in Hlead as [Hnz | Hone].
  - assert (Hpos : 1 <= digit_value c).
    { destruct (Z.eq_dec (digit_value c) 0) as [H0 |]; [| lia].
      exfalso. apply negb_true_iff in Hnz.
      rewrite <- (digit_char_value c Hc), H0 in Hnz. discriminate. }
    pose proof (digits_value_grows r (digit_value c) Hr Hpos) as Hg.
    unfold int_to_string.
    replace (digits_value (digit_value c) r <? 0) with false
      by (symmetry; apply Z.ltb_ge; unfold strlen in Hg; lia).
    replace (S (Z.to_nat (digits_value (digit_value c) r)))
      with ((S (Z.to_nat (digits_value (digit_value c) r)) - String.length r)
            + String.length r)%nat
      by (unfold strlen in Hg; lia).
    rewrite (digits_of_value r Hr) by lia.
    destruct (S (Z.to_nat (digits_value (digit_value c) r)) - String.length r)%nat
      as [|fuel] eqn:Hf; [unfold strlen in Hg; lia |].
    rewrite digits_of_step.
    replace (digit_value c <? 10) with true by (symmetry; apply Z.ltb_lt; lia).
    rewrite Z.mod_small by lia. rewrite (digit_char_value c Hc).
    f_equal. clear. induction r as [|x r IH]; [reflexivity |].
    change (String x r +:+ EmptyString) with (String x (r +:+ EmptyString)). now rewrite IH.
  - apply String.eqb_eq in Hone. subst r. simpl digits_value.
    unfold int_to_string.
    replace (digit_value c <? 0) with false by (symmetry; apply Z.ltb_ge; lia).
    rewrite digits_of_step.
    replace (digit_value c <? 10) with true by (symmetry; apply Z.ltb_lt; lia).
    rewrite Z.mod_small by lia. now rewrite (digit_char_value c Hc).
Qed.

Lemma canonical_all_digits (s : string) :
  canonical_integer s = true -> all_digits s = true /\ s <> EmptyString.
Proof.
  destruct s as [|c r]; [discriminate |]. unfold canonical_integer.
  rewrite andb_true_iff. intros [H _]. split; [exact H | discriminate].
Qed.

Lemma strip_zeros_canonical (s : string) :
  all_digits s = true -> s <> EmptyString ->
  canonical_integer (strip_zeros s) = true
  /\ digits_value 0 (strip_zeros s) = digits_value 0 s.
Proof.
  induction s as [|c r IH]; intros Hs Hne; [congruence |].
  pose proof Hs as Hall. cbn [all_digits] in Hs. apply andb_true_iff in Hs as [Hc Hr].
  cbn [strip_zeros].
  destruct (Ascii.eqb c "0") eqn:H0; cbn [andb].
  - destruct (String.eqb r EmptyString) eqn:Hr0; cbn [negb].
    + split; [| reflexivity]. unfold canonical_integer. rewrite Hall, Hr0.
      now rewrite orb_true_r.
    + assert (r <> EmptyString) by (intros ->; discriminate).
      destruct (IH Hr H) as [IH1 IH2]. split; [exact IH1 |].
      rewrite IH2. apply Ascii.eqb_eq in H0. subst c. reflexivity.
  - split; [| reflexivity]. unfold canonical_integer. now rewrite Hall, H0.
Qed.

Lemma strip_zeros_id (s : string) : canonical_integer s = true -> strip_zeros s = s.
Proof.
  destruct s as [|c r]; [reflexivity |]. unfold canonical_integer.
  rewrite andb_true_iff. intros [_ H]. cbn [strip_zeros].
  destruct (Ascii.eqb c "0"); [| reflexivity]. cbn [negb orb andb] in *.
  now rewrite H.
Qed.

Section Literals.

Variable E : Externals.

(** A number token in front of a token whose text holds no dot is converted
    with [std::stoi]. *)
Lemma parsePrimary_number (tokens_ : list Token) (fuel cur : nat) (s : string) :
  (cur < length tokens_)%nat ->
  tok_type (Parser.token_at tokens_ cur) = NUMBER ->
  tok_value (Parser.token_at tokens_ cur) = s ->
  contains_char "." (tok_value (Parser.token_at tokens_ (S cur))) = false ->
  Parser.parsePrimary E tokens_ (S fuel) cur
  = Ok (LiteralNode (match stoi s with Some n => VInt n | None => VInt 0 end)) (S cur).
Proof.
  intros Hcur Htype Hvalue Hdot. cbn [Parser.parsePrimary].
  unfold bind at 1, Parser.match_, bind at 1, Parser.check, bind at 1, Parser.isAtEnd.
  replace (length tokens_ <=? cur)%nat with false by (symmetry; apply Nat.leb_gt; lia).
  rewrite Htype. cbn [orb TokenType_beq]. cbv iota beta.
  unfold bind at 1, Parser.current, ret at 1. rewrite Htype. cbn [TokenType_beq].
  cbv iota beta. unfold bind at 1, Parser.advance, bind at 1, Parser.isAtEnd.
  replace (length tokens_ <=? cur)%nat with false by (symmetry; apply Nat.leb_gt; lia).
  rewrite Htype. cbn [orb TokenType_beq]. cbv iota beta.
  unfold modify, ret, bind, Parser.last. cbn [Nat.ltb Nat.leb].
  replace (S cur - 1)%nat with cur by lia.
  unfold Parser.number_literal. now rewrite Hdot, Hvalue.
Qed.

(** C5, as amended.  A literal of decimal digits, lexed on its own, is one
    number token.  Parsed on its own, or in front of a token whose text holds
    no dot, it is the integer of its value when the value is at most
    [INT_MAX], and the integer [0] when it is above.  [std::to_string] writes
    the integer back as the digits without their leading zeros: as the
    literal itself exactly when the literal has no leading zero (or is [0])
    and its value is at most [INT_MAX].  In the lexer a second dot ends the
    number and is not consumed: it starts the next token. *)
Theorem integer_literal_round_trip :
  (forall s : string,
     canonical_integer s = true -> digits_value 0 s <= INT_MAX ->
     Lexer.tokenize s = Return (number_tokens s)
     /\ ParserEntry.parseLine E (number_tokens s)
        = Ok (Some (LiteralNode (VInt (digits_value 0 s)))) 1%nat
     /\ int_to_string (digits_value 0 s) = s)
  /\ (forall s : string,
        all_digits s = true -> s <> EmptyString -> INT_MAX < digits_value 0 s ->
        Lexer.tokenize s = Return (number_tokens s)
        /\ ParserEntry.parseLine E (number_tokens s) = Ok (Some (LiteralNode (VInt 0))) 1%nat
        /\ int_to_string 0 <> s)
  /\ (forall s : string,
        all_digits s = true -> s <> EmptyString -> digits_value 0 s <= INT_MAX ->
        Lexer.tokenize s = Return (number_tokens s)
        /\ ParserEntry.parseLine E (number_tokens s)
           = Ok (Some (LiteralNode (VInt (digits_value 0 s)))) 1%nat
        /\ int_to_string (digits_value 0 s) = strip_zeros s
        /\ (canonical_integer s = false -> int_to_string (digits_value 0 s) <> s))
  /\ (forall (tokens_ : list Token) (fuel cur : nat) (s : string),
        all_digits s = true -> s <> EmptyString ->
        (cur < length tokens_)%nat ->
        tok_type (Parser.token_at tokens_ cur) = NUMBER ->
        tok_value (Parser.token_at tokens_ cur) = s ->
        contains_char "." (tok_value (Parser.token_at tokens_ (S cur))) = false ->
        Parser.parsePrimary E tokens_ (S fuel) cur
        = Ok (LiteralNode
                (VInt (if digits_value 0 s <=? INT_MAX then digits_value 0 s else 0)))
            (S cur))
  /\ (forall rest : string,
        Lexer.scan_number (String "." rest) true = (EmptyString, String "." rest))
  /\ Lexer.tokenize "1.2.3"
     = Return [mkToken NUMBER "1.2" 1 1; mkToken NUMBER ".3" 1 4; mkToken EOF_TOKEN "" 1 6].
Proof.
  assert (Hparse : forall s, all_digits s = true -> s <> EmptyString ->
            ParserEntry.parseLine E (number_tokens s)
            = Ok (Some (LiteralNode
                          (VInt (if digits_value 0 s <=? INT_MAX then digits_value 0 s else 0))))
                1%nat).
  { intros s Hs Hne. unfold number_tokens. rewrite parse_number. unfold Parser.number_literal.
    cbn [contains_char]. rewrite (stoi_digits s Hs Hne).
    now destruct (digits_value 0 s <=? INT_MAX). }
  split; [| split; [| split; [| split; [| split]]]].
  - intros s Hc Hmax. destruct (canonical_all_digits s Hc) as [Hs Hne].
    split; [now apply tokenize_number | split; [| now apply int_to_string_digits]].
    rewrite (Hparse s Hs Hne).
    now replace (digits_value 0 s <=? INT_MAX) with true by (symmetry; apply Z.leb_le; lia).
  - intros s Hs Hne Hmax.
    split; [now apply tokenize_number |]. split.
    + rewrite (Hparse s Hs Hne).
      now replace (digits_value 0 s <=? INT_MAX) with false by (symmetry; apply Z.leb_gt; lia).
    + intros <-. vm_compute in Hmax. discriminate.
  - intros s Hs Hne Hmax. destruct (strip_zeros_canonical s Hs Hne) as [Hcan Hval].
    split; [now apply tokenize_number |]. split; [| split].
    + rewrite (Hparse s Hs Hne).
      now replace (digits_value 0 s <=? INT_MAX) with true by (symmetry; apply Z.leb_le; lia).
    + rewrite <- Hval. now apply int_to_string_digits.
    + intros Hnot Heq. rewrite <- Hval, (int_to_string_digits _ Hcan) in Heq.
      rewrite Heq in Hcan. congruence.
  - intros tokens_ fuel cur s Hs Hne Hcur Htype Hvalue Hdot.
    rewrite (parsePrimary_number tokens_ fuel cur s Hcur Htype Hvalue Hdot).
    rewrite (stoi_digits s Hs Hne). now destruct (digits_value 0 s <=? INT_MAX).
  - reflexivity.
  - reflexivity.
Qed.

End Literals.

(** A witness of C5 as amended: the literal [42]. *)
Lemma integer_literal_round_trip_witness :
  Lexer.tokenize "42" = Return (number_tokens "42")
  /\ ParserEntry.parseLine no_externals (number_tokens "42")
     = Ok (Some (LiteralNode (VInt 42))) 1%nat
  /\ int_to_string 42 = "42".
Proof.
  destruct (integer_literal_round_trip no_externals) as (H & _).
  exact (H "42" eq_refl ltac:(vm_compute; discriminate)).
Defined.

(** C5, the claim as stated fails: [2147483648] parses to the integer [0] and
    [007] to the integer [7], neither of which is written back as the
    literal; and [2.5], on its own, parses to the integer [2]. *)
Lemma integer_literal_counterexample :
  (ParserEntry.parseLine no_externals (number_tokens "2147483648")
     = Ok (Some (LiteralNode (VInt 0))) 1%nat
   /\ int_to_string 0 = "0")
  /\ (ParserEntry.parseLine no_externals (number_tokens "007")
      = Ok (Some (LiteralNode (VInt 7))) 1%nat
      /\ int_to_string 7 = "7")
  /\ (Lexer.tokenize "2.5" = Return (number_tokens "2.5")
      /\ ParserEntry.parseLine no_externals (number_tokens "2.5")
         = Ok (Some (LiteralNode (VInt 2))) 1%nat).
Proof. repeat split; vm_compute; reflexivity. Qed.

(** ** The server: what a handler may change *)

Section StepsWithin.

Import DAPServer.

Variable R : World -> World -> Prop.
Hypothesis R_refl : forall w, R w w.
Hypothesis R_trans : forall w1 w2 w3, R w1 w2 -> R w2 w3 -> R w1 w3.

Lemma steps_ret {A} (a : A) : steps_within R (ret a).
Proof. intros w. apply R_refl. Qed.

Lemma steps_throw {A} (what : string) : steps_within R (throw (A := A) what).
Proof. intros w. apply R_refl. Qed.

Lemma steps_lift_except {A} (e : Except A) : steps_within R (lift_except e).
Proof. destruct e; [apply steps_ret | apply steps_throw]. Qed.

Lemma steps_bind {A B} (m : H A) (k : A -> H B) :
  steps_within R m -> (forall a, steps_within R (k a)) -> steps_within R (bind m k).
Proof.
  intros Hm Hk w. unfold bind. specialize (Hm w).
  destruct (m w) as [a w1 | what w1 |]; [| exact Hm | exact I].
  specialize (Hk a w1). destruct (k a w1); eauto.
Qed.


Lemma steps_the_server : steps_within R the_server.
Proof. intros w. apply R_refl. Qed.

Lemma steps_the_interpreter : steps_within R the_interpreter.
Proof. intros w. apply R_refl. Qed.


Lemma steps_readFileContent (path : string) : steps_within R (readFileContent path).
Proof. intros w. apply R_refl. Qed.

End StepsWithin.

(** *** No handler sends a response *)

Section Quiet.

Import DAPServer.










End Quiet.


Section QuietHandlers.

Import DAPServer.

Variable E : Externals.
Variable fuel : nat.
Variable cleanup : BasicInterpreter.t -> BasicInterpreter.t.



End QuietHandlers.


Lemma sendMessage_after (message : DAPMessage) (w : World) :
  DAPServer.sendMessage message w = Ok tt (after_message (DAPServer.message_document message) w).
Proof.
  unfold DAPServer.sendMessage, bind, DAPServer.the_server, after_message, message_frame.
  now destruct (useNetwork_ (server w) && (0 <=? clientSocket_ (server w))).
Qed.





Section Responses.

Import DAPServer.

Variable E : Externals.
Variable fuel : nat.
Variable cleanup : BasicInterpreter.t -> BasicInterpreter.t.


End Responses.



(** ** What is written for an event *)

Section EventsSent.

Import DAPServer.

Lemma sendEvent_sent (event : string) (body : json) (w : World) :
  sendEvent event body w = Ok tt (sent (event_frames (event_document event body) w) w).
Proof.
  unfold sendEvent, bind, the_server, emit, modify, ret, sent, event_frames.
  destruct (useNetwork_ (server w)); [destruct (0 <=? clientSocket_ (server w)) |];
    try reflexivity.
  rewrite app_nil_r. now destruct w.
Qed.

Lemma deliver_sent (written : list Output) (w : World) :
  exists items, deliver written w = Ok tt (sent items w).
Proof.
  revert w. induction written as [|[text | category output] rest IH]; intros w.
  - exists []. unfold sent. rewrite app_nil_r. now destruct w.
  - cbn [deliver]. unfold bind at 1, emit, modify.
    destruct (IH (sent [StdoutText text] w)) as [items H].
    exists (StdoutText text :: items). fold (sent [StdoutText text] w). rewrite H.
    unfold sent. cbn. now rewrite <- app_assoc.
  - cbn [deliver]. unfold bind at 1, sendOutputEvent. rewrite sendEvent_sent.
    match goal with |- context [sent ?x w] => destruct (IH (sent x w)) as [items H];
      exists (x ++ items)%list end.
    rewrite H. unfold sent. cbn. now rewrite <- app_assoc.
Qed.

End EventsSent.

(** ** PRINT, on the wire *)

Section PrintOnTheWire.

Import DAPServer.

Variable E : Externals.

Lemma evaluate_print_semicolon (dap_running : bool) (fuel : nat)
    (s : BasicInterpreter.Session) :
  BasicInterpreter.evaluateExpression E dap_running (2 + fuel) text_print_semicolon s
  = Ok Value_default (session_wrote (sink dap_running ("Hello, " +:+ endl)) s).
Proof.
  change text_print_semicolon
    with ltac:(let v := eval vm_compute in text_print_semicolon in exact v).
  unfold BasicInterpreter.evaluateExpression. lex_and_parse.
  change (2 + fuel)%nat with (S (S fuel)).
  erewrite print_statement by reflexivity.
  cbn [rt_variables rt_cin rt_out]. unfold session_wrote.
  destruct s as [[] ? ?]. reflexivity.
Qed.

(** C7, on the code.  A [PRINT] statement builds the text the claim says: the
    string forms of its values joined by one space, then a line terminator;
    and without a running debug server the text is written to the console.
    With a running debug server the text is handed to [sendOutputEvent] as
    its first argument, the category, with ["stdout"] as the output: the
    event on the wire has the printed text as its [category] and [stdout] as
    its [output].  The statement ends at a semicolon: the line
    [PRINT "Hello, "; "World!"] prints [Hello, ] and the terminator, and
    nothing of [World!], where [PRINT "Hello, ", "World!"] prints
    [Hello,  World!]. *)
Theorem print_statement_on_the_wire (fuel : nat) (w : World) :
  let output_event (category output : string) : json :=
    event_document "output"
      (jobject [("category", JString category); ("output", JString output)]) in
  let run (dap_running : bool) (line : string) : H bool :=
    run_session (BasicInterpreter.executeLine E dap_running (2 + fuel) line) in
  (forall functions dap_running (n : nat) (line : Z) (expressions : list ASTNode)
          (st st1 : RtState) (values : list Value),
      Runtime.execute_all (Runtime.execute E functions dap_running n) expressions st
        = Ok values st1 ->
      let text := String.concat " " (map (stream_value E) values) +:+ endl in
      Runtime.execute E functions dap_running (S n)
        (Some (PrintStatementNode line expressions)) st
      = Ok Value_default
          (mkRtState (rt_variables st1) (rt_cin st1)
             (rt_out st1
              ++ [if dap_running then ToDebugServer text "stdout" else ToConsole text])))
  /\ (forall text,
         deliver [ToDebugServer text "stdout"] w
         = Ok tt (sent (event_frames (output_event text "stdout") w) w)
         /\ deliver [ToConsole text] w = Ok tt (sent [StdoutText text] w))
  /\ (exists w1,
         run true text_print_semicolon w = Ok true w1
         /\ w_out w1
            = (w_out w ++ event_frames (output_event ("Hello, " +:+ endl) "stdout") w)%list)
  /\ (exists w1,
         run false text_print_semicolon w = Ok true w1
         /\ w_out w1 = (w_out w ++ [StdoutText ("Hello, " +:+ endl)])%list)
  /\ (exists w1,
         run true text_print_comma w = Ok true w1
         /\ w_out w1
            = (w_out w ++ event_frames (output_event ("Hello,  World!" +:+ endl) "stdout") w)%list)
  /\ (exists w1,
         run false text_print_comma w = Ok true w1
         /\ w_out w1 = (w_out w ++ [StdoutText ("Hello,  World!" +:+ endl)])%list)
  /\ (forall cleanup id,
         exists w1,
           processMessage E (2 + fuel) cleanup
             (request "evaluate" id (JObject [("expression", JString text_print_semicolon)]))
             started_world
           = Ok tt w1
           /\ w_out w1
              = [StdoutFrame (output_event ("Hello, " +:+ endl) "stdout");
                 StdoutFrame
                   (message_document
                      (createResponse id
                         (jobject [("result", JString (ext_valueToString E Value_default));
                                   ("type", JString "number");
                                   ("variablesReference", JNumber 0)])))]).
Proof.
  cbv zeta.
  assert (Hdebug : forall text w0,
             deliver [ToDebugServer text "stdout"] w0
             = Ok tt (sent (event_frames
                              (event_document "output"
                                 (jobject [("category", JString text);
                                           ("output", JString "stdout")])) w0) w0)).
  { intros text w0. cbn [deliver]. unfold bind, sendOutputEvent. rewrite sendEvent_sent.
    reflexivity. }
  assert (Hconsole : forall text w0,
             deliver [ToConsole text] w0 = Ok tt (sent [StdoutText text] w0)).
  { intros text w0. reflexivity. }
  assert (Hrun : forall dap_running line printed,
             (forall s, BasicInterpreter.executeLine E dap_running (2 + fuel) line s
                        = Ok true (session_wrote (sink dap_running printed) s)) ->
             exists w1,
               run_session (BasicInterpreter.executeLine E dap_running (2 + fuel) line) w
               = Ok true w1
               /\ w_out w1
                  = (w_out w
                     ++ if dap_running
                        then event_frames
                               (event_document "output"
                                  (jobject [("category", JString printed);
                                            ("output", JString "stdout")])) w
                        else [StdoutText printed])%list).
  { intros dap_running line printed Hline. unfold run_session. rewrite Hline.
    unfold session_wrote, sink. cbn [BasicInterpreter.written app]. unfold bind.
    destruct dap_running.
    - rewrite Hdebug. eexists. split; [reflexivity |]. reflexivity.
    - rewrite Hconsole. eexists. split; [reflexivity |]. reflexivity. }
  split; [| split; [| split; [| split; [| split; [| split]]]]].
  - intros functions dap_running n line expressions st st1 values Hvalues.
    rewrite (print_statement E dap_running functions n line expressions st st1 values Hvalues).
    unfold sink. now destruct dap_running.
  - intros text. split; [apply Hdebug | apply Hconsole].
  - apply (Hrun true). intros s. apply (print_line E true fuel s).
  - apply (Hrun false). intros s. apply (print_line E false fuel s).
  - apply (Hrun true). intros s. apply (print_line E true fuel s).
  - apply (Hrun false). intros s. apply (print_line E false fuel s).
  - intros cleanup id.
    change (processMessage E (2 + fuel) cleanup
              (request "evaluate" id (JObject [("expression", JString text_print_semicolon)])))
      with (let* result :=
              handleEvaluate E (2 + fuel)
                (JObject [("expression", JString text_print_semicolon)]) in
            sendMessage (createResponse id result)).
    assert (Heval : exists w1,
               interpreter_evaluateExpression E (2 + fuel) text_print_semicolon started_world
               = Ok Value_default w1
               /\ w_out w1
                  = [StdoutFrame
                       (event_document "output"
                          (jobject [("category", JString ("Hello, " +:+ endl));
                                    ("output", JString "stdout")]))]
               /\ useNetwork_ (server w1) = false).
    { unfold interpreter_evaluateExpression, bind at 1, the_server, run_session.
      change (running_ (server started_world)) with true.
      rewrite evaluate_print_semicolon.
      unfold session_wrote, sink. cbn [BasicInterpreter.written app]. unfold bind.
      rewrite Hdebug. eexists. split; [reflexivity |]. split; reflexivity. }
    destruct Heval as (w1 & Heval & Hout & Hnet).
    unfold handleEvaluate.
    unfold bind, try_catch, lift_except, ret.
    cbn [Json.at_ Json.lookup String.eqb Ascii.eqb Bool.eqb Json.get_string].
    rewrite Heval. rewrite sendMessage_after. eexists. split; [reflexivity |].
    unfold after_message, message_frame. cbn [w_out]. rewrite Hout, Hnet. reflexivity.
Qed.

End PrintOnTheWire.

(** ** The server: a session after another *)

Section SessionData.

Import DAPServer.

Lemma data_refl (w : World) : same_session_data w w.
Proof. now repeat split. Qed.

Lemma data_trans (w1 w2 w3 : World) :
  same_session_data w1 w2 -> same_session_data w2 w3 -> same_session_data w1 w3.
Proof.
  intros (A1 & A2 & A3 & A4 & A5 & A6) (B1 & B2 & B3 & B4 & B5 & B6).
  repeat split; congruence.
Qed.

Lemma data_on_server (f : Server -> Server) :
  (forall s, breakpoints_ (f s) = breakpoints_ s
             /\ breakpointMap_ (f s) = breakpointMap_ s
             /\ nextBreakpointId_ (f s) = nextBreakpointId_ s
             /\ currentLine_ (f s) = currentLine_ s) ->
  steps_within same_session_data (on_server f).
Proof. intros Hf w. destruct (Hf (server w)) as (A1 & A2 & A3 & A4). now repeat split. Qed.

Lemma data_on_interpreter (f : BasicInterpreter.t -> BasicInterpreter.t) :
  (forall i, BasicInterpreter.variables_ (f i) = BasicInterpreter.variables_ i
             /\ BasicInterpreter.functions_ (f i) = BasicInterpreter.functions_ i) ->
  steps_within same_session_data (on_interpreter f).
Proof. intros Hf w. destruct (Hf (interpreter w)) as (A1 & A2). now repeat split. Qed.

Lemma data_emit (items : list Wire) : steps_within same_session_data (emit items).
Proof. intros w. now repeat split. Qed.

Lemma data_sendEvent (event : string) (body : json) :
  steps_within same_session_data (sendEvent event body).
Proof.
  unfold sendEvent. apply (steps_bind _ data_trans); [apply (steps_the_server _ data_refl) |].
  intros s. destruct (useNetwork_ s); [destruct (0 <=? clientSocket_ s) |].
  - apply data_emit.
  - apply (steps_ret _ data_refl).
  - apply data_emit.
Qed.

Lemma data_sendMessage (message : DAPMessage) :
  steps_within same_session_data (sendMessage message).
Proof.
  unfold sendMessage. apply (steps_bind _ data_trans); [apply (steps_the_server _ data_refl) |].
  intros s. destruct (_ && _); apply data_emit.
Qed.

(** [loadProgram] keeps the variables and the functions, and writes
    nothing. *)
Lemma loadProgram_keeps (E : Externals) (source : string) (s : BasicInterpreter.Session) :
  match BasicInterpreter.loadProgram E source s with
  | Ok _ s1 | Throw _ s1 =>
      BasicInterpreter.variables_ (BasicInterpreter.interp s1)
        = BasicInterpreter.variables_ (BasicInterpreter.interp s)
      /\ BasicInterpreter.functions_ (BasicInterpreter.interp s1)
         = BasicInterpreter.functions_ (BasicInterpreter.interp s)
      /\ BasicInterpreter.written s1 = BasicInterpreter.written s
  | OutOfFuel => True
  end.
Proof.
  unfold BasicInterpreter.loadProgram, bind, BasicInterpreter.on_interp, modify, ret.
  destruct (Lexer.tokenize source) as [tokens | what]; [| now repeat split].
  destruct (ParserEntry.parse E tokens) as [a n | what n |]; [| | exact I]; now repeat split.
Qed.

Lemma data_loadProgram (E : Externals) (content : string) :
  steps_within same_session_data (interpreter_loadProgram E content).
Proof.
  intros w. unfold interpreter_loadProgram, bind, the_server, run_session.
  pose proof (loadProgram_keeps E content
                (BasicInterpreter.mkSession (interpreter w) (w_cin w) [])) as H.
  destruct (BasicInterpreter.loadProgram E content _) as [a s1 | what s1 |]; [| | exact I].
  - destruct H as (A1 & A2 & A3). cbn in A3. rewrite A3. now repeat split.
  - destruct H as (A1 & A2 & A3). cbn in A3. rewrite A3. now repeat split.
Qed.

End SessionData.

Ltac data_step :=
  first
    [ apply (steps_ret _ data_refl)
    | apply (steps_throw _ data_refl)
    | apply (steps_lift_except _ data_refl)
    | apply (steps_the_server _ data_refl)
    | apply (steps_the_interpreter _ data_refl)
    | apply (steps_readFileContent _ data_refl)
    | apply data_sendEvent
    | apply data_sendMessage
    | apply data_loadProgram
    | apply data_on_server; intros ?; now repeat split
    | apply data_on_interpreter; intros ?; now repeat split
    | apply (steps_bind _ data_trans); [| intros ?]
    | match goal with
      | |- steps_within _ (if ?c then _ else _) => destruct c
      | |- steps_within _ (match ?x with _ => _ end) => destruct x
      end ].


Lemma steps_after {A B} (R : World -> World -> Prop) (m : DAPServer.H A) (k : A -> DAPServer.H B)
    (w w' : World) (a : A) :
  m w = Ok a w' -> steps_within R (k a) ->
  match bind m k w with
  | Ok _ w1 | Throw _ w1 => R w' w1
  | OutOfFuel => True
  end.
Proof. intros Hm Hk. unfold bind. rewrite Hm. apply Hk. Qed.

Section Restart.

Import DAPServer.

Variable E : Externals.
Variable fuel : nat.
Variable cleanup : BasicInterpreter.t -> BasicInterpreter.t.

Lemma launch_source_keeps (arguments : json) :
  steps_within same_session_data (launch_source arguments).
Proof. unfold launch_source, addSource. repeat data_step. Qed.

(** [handleLaunch] sets the cursor to 0 and keeps the breakpoints and the
    interpreter's variables, whether it returns or throws. *)
Lemma handleLaunch_keeps (arguments : json) (w : World) :
  match handleLaunch E arguments w with
  | Ok _ w1 | Throw _ w1 =>
      currentLine_ (server w1) = 0
      /\ breakpoints_ (server w1) = breakpoints_ (server w)
      /\ breakpointMap_ (server w1) = breakpointMap_ (server w)
      /\ BasicInterpreter.variables_ (interpreter w1) = BasicInterpreter.variables_ (interpreter w)
      /\ BasicInterpreter.functions_ (interpreter w1) = BasicInterpreter.functions_ (interpreter w)
  | OutOfFuel => True
  end.
Proof.
  unfold handleLaunch.
  match goal with
  | |- context [bind ?m ?k w] =>
      pose proof (steps_after same_session_data m k w _ tt eq_refl) as H
  end.
  match type of H with
  | ?P -> _ => assert (Hk : P); [| specialize (H Hk); clear Hk]
  end.
  { apply (steps_bind _ data_trans); [apply launch_source_keeps | intros ?].
    unfold sendInitializedEvent, sendProcessEvent, sendStoppedEvent. repeat data_step. }
  destruct (bind _ _ w) as [r w1 | what w1 |]; [| | exact I];
    destruct H as (A1 & A2 & A3 & A4 & A5 & A6); now repeat split.
Qed.

Lemma launch_keeps (id arguments : json) (w : World) :
  match processMessage E fuel cleanup (request "launch" id arguments) w with
  | Ok _ w1 | Throw _ w1 =>
      currentLine_ (server w1) = 0
      /\ breakpoints_ (server w1) = breakpoints_ (server w)
      /\ breakpointMap_ (server w1) = breakpointMap_ (server w)
      /\ BasicInterpreter.variables_ (interpreter w1) = BasicInterpreter.variables_ (interpreter w)
      /\ BasicInterpreter.functions_ (interpreter w1) = BasicInterpreter.functions_ (interpreter w)
  | OutOfFuel => True
  end.
Proof.
  pose proof (handleLaunch_keeps arguments w) as H.
  change (processMessage E fuel cleanup (request "launch" id arguments))
    with (let* result := handleLaunch E arguments in sendMessage (createResponse id result)).
  unfold bind. destruct (handleLaunch E arguments w) as [r w1 | what w1 |]; [| exact H | exact I].
  now rewrite sendMessage_after.
Qed.

Lemma disconnect_result (id arguments : json) (w : World) :
  exists w1,
    processMessage E fuel cleanup (request "disconnect" id arguments) w = Ok tt w1
    /\ currentLine_ (server w1) = 0
    /\ currentSource_ (server w1) = EmptyString
    /\ breakpoints_ (server w1) = breakpoints_ (server w)
    /\ breakpointMap_ (server w1) = breakpointMap_ (server w)
    /\ interpreter w1 = cleanup (interpreter w).
Proof.
  change (processMessage E fuel cleanup (request "disconnect" id arguments))
    with (let* result := handleDisconnect cleanup arguments in
          sendMessage (createResponse id result)).
  unfold handleDisconnect, bind, on_server, on_interpreter, modify, ret.
  rewrite sendMessage_after. eexists. split; [reflexivity |]. now repeat split.
Qed.

(** C9, as amended.  After a [disconnect] request followed by a [launch]
    request, the server's current line is 0, and the interpreter's variables
    and functions are those that [BasicInterpreter::cleanup] left at the
    disconnect (the store is empty if [cleanup] empties it); the server's
    breakpoints are all kept, those of the source of the previous session
    included. *)
Theorem disconnect_then_launch (disconnect launch : json) (w w2 : World) :
  session_restart E fuel cleanup disconnect launch w = Ok tt w2 ->
  currentLine_ (server w2) = 0
  /\ BasicInterpreter.variables_ (interpreter w2)
     = BasicInterpreter.variables_ (cleanup (interpreter w))
  /\ BasicInterpreter.functions_ (interpreter w2)
     = BasicInterpreter.functions_ (cleanup (interpreter w))
  /\ ((forall i, BasicInterpreter.variables_ (cleanup i) = ∅) ->
      BasicInterpreter.variables_ (interpreter w2) = ∅)
  /\ breakpoints_ (server w2) = breakpoints_ (server w)
  /\ breakpointMap_ (server w2) = breakpointMap_ (server w).
Proof.
  unfold session_restart. intros Hrun.
  destruct (disconnect_result (JNumber 1) disconnect w) as (w1 & H1 & _ & _ & B1 & B2 & I1).
  unfold bind in Hrun. rewrite H1 in Hrun.
  pose proof (launch_keeps (JNumber 2) launch w1) as H2. rewrite Hrun in H2.
  destruct H2 as (L & C1 & C2 & V & F). rewrite I1 in V, F.
  repeat split; try congruence.
Qed.

End Restart.

(** A witness of C9 as amended: [new.bas] is launched after a session on
    [old.bas]. *)
Lemma disconnect_then_launch_witness :
  currentLine_ (server restarted_world) = 0
  /\ BasicInterpreter.variables_ (interpreter restarted_world)
     = BasicInterpreter.variables_ (BasicInterpreter.cleanup_by_spec (interpreter previous_world))
  /\ BasicInterpreter.functions_ (interpreter restarted_world)
     = BasicInterpreter.functions_ (BasicInterpreter.cleanup_by_spec (interpreter previous_world))
  /\ ((forall i, BasicInterpreter.variables_ (BasicInterpreter.cleanup_by_spec i) = ∅) ->
      BasicInterpreter.variables_ (interpreter restarted_world) = ∅)
  /\ breakpoints_ (server restarted_world) = breakpoints_ (server previous_world)
  /\ breakpointMap_ (server restarted_world) = breakpointMap_ (server previous_world).
Proof.
  apply (disconnect_then_launch no_externals 8 BasicInterpreter.cleanup_by_spec JNull
           (launch_arguments "new.bas" "10 PRINT 1") previous_world restarted_world).
  vm_compute. reflexivity.
Defined.

(** C9, the claim as stated fails: the first session sets a breakpoint at
    line 2 of [old.bas] and launches [old.bas]; after [disconnect] and a
    launch of [new.bas], which both return, the breakpoint set still holds
    line 2 of [old.bas]. *)
Lemma breakpoint_survives_counterexample :
  first_session no_externals 8 BasicInterpreter.cleanup_by_spec started_world
    = Ok tt previous_world
  /\ currentSource_ (server previous_world) = "old.bas"
  /\ session_restart no_externals 8 BasicInterpreter.cleanup_by_spec JNull
       (launch_arguments "new.bas" "10 PRINT 1") previous_world
     = Ok tt restarted_world
  /\ currentSource_ (server restarted_world) = "new.bas"
  /\ DAPServer.hasBreakpoint "old.bas" 2 (server restarted_world) = true.
Proof.
  split; [vm_compute; reflexivity |].
  split; [vm_compute; reflexivity |].
  split; [vm_compute; reflexivity |].
  split; vm_compute; reflexivity.
Qed.

(** ** The variable table *)

Section VariableTable.

Variable variables_ : gmap string Value.

(** X1: a name reads the value last set for it, a [set] touches no other name,
    a name that was set exists, and after [clear] every name reads [0] and
    none exists. *)
Theorem variables_set_get (name other : string) (value : Value) :
  Variables.get name (Variables.set name value variables_) = value
  /\ Variables.exists_ name (Variables.set name value variables_) = true
  /\ (other <> name ->
      Variables.get other (Variables.set name value variables_) = Variables.get other variables_
      /\ Variables.exists_ other (Variables.set name value variables_)
         = Variables.exists_ other variables_)
  /\ Variables.get name (Variables.clear variables_) = VInt 0
  /\ Variables.exists_ name (Variables.clear variables_) = false.
Proof.
  unfold Variables.get, Variables.set, Variables.exists_, Variables.clear.
  split; [now rewrite lookup_insert_eq |].
  split; [rewrite lookup_insert_eq; now apply bool_decide_eq_true_2 |].
  split; [intros Hne; now rewrite lookup_insert_ne by congruence |].
  split; [now rewrite lookup_empty |].
  apply bool_decide_eq_false_2. rewrite lookup_empty. now intros [v Hv].
Qed.

End VariableTable.

(** ** String built-ins *)

Lemma wrap32_small (z : Z) : - 2 ^ 31 <= z < 2 ^ 31 -> wrap32 z = z.
Proof. intros H. unfold wrap32. rewrite Z.mod_small; lia. Qed.

Lemma wrap_size_small (z : Z) : 0 <= z < 2 ^ 64 -> Functions.wrap_size z = z.
Proof. intros H. unfold Functions.wrap_size. now rewrite Z.mod_small. Qed.

Lemma wrap_size_negative (z : Z) :
  - 2 ^ 64 <= z < 0 -> Functions.wrap_size z = 2 ^ 64 + z.
Proof.
  intros H. unfold Functions.wrap_size.
  rewrite <- (Z.mod_add z 1 (2 ^ 64)) by lia. rewrite Z.mod_small; lia.
Qed.

Lemma strlen_nonneg (s : string) : 0 <= strlen s.
Proof. unfold strlen. lia. Qed.

Lemma substring_all (s : string) : String.substring 0 (String.length s) s = s.
Proof. induction s as [|c s IH]; [reflexivity |]. simpl. now f_equal. Qed.

Lemma substring_split (s : string) (n : nat) :
  (n <= String.length s)%nat ->
  String.substring 0 n s +:+ String.substring n (String.length s - n) s = s.
Proof.
  revert n. induction s as [|c s IH]; intros [|n] Hn; simpl in Hn; try lia.
  - reflexivity.
  - change (String.substring 0 0 (String c s)) with EmptyString.
    rewrite Nat.sub_0_r. change (EmptyString +:+ ?b) with b. apply substring_all.
  - change (String.substring 0 (S n) (String c s)) with (String c (String.substring 0 n s)).
    change (String.substring (S n) (String.length (String c s) - S n) (String c s))
      with (String.substring n (String.length s - n) s).
    change (String c ?a +:+ ?b) with (String c (a +:+ b)). f_equal. apply IH. lia.
Qed.

Lemma substring_length (s : string) (n m : nat) :
  (n + m <= String.length s)%nat -> String.length (String.substring n m s) = m.
Proof.
  revert n m. induction s as [|c s IH]; intros n m H; simpl in H.
  - assert (n = 0%nat) by lia. assert (m = 0%nat) by lia. now subst.
  - destruct n as [|n]; [destruct m as [|m] |]; simpl.
    + reflexivity.
    + f_equal. apply IH. lia.
    + apply IH. lia.
Qed.

Section StringBuiltins.

Variable s : string.
Hypothesis s_short : strlen s < 2 ^ 31.

(** X2: for [0 < n < LEN(s)], [LEFT(s, n)] is the first [n] characters of [s]
    and [RIGHT(s, LEN(s) - n)] is the rest: together they are [s]; with a
    count of [LEN(s)] or more, both return [s] whole. *)
Theorem left_right_split (n : Z) :
  (0 < n < strlen s ->
   exists a b,
     Functions.left [VString s; VInt n] = Return (VString a)
     /\ Functions.right [VString s; VInt (strlen s - n)] = Return (VString b)
     /\ a +:+ b = s
     /\ strlen a = n)
  /\ (0 < n -> strlen s <= n ->
      Functions.left [VString s; VInt n] = Return (VString s)
      /\ Functions.right [VString s; VInt n] = Return (VString s)).
Proof.
  pose proof (strlen_nonneg s) as Hs.
  unfold Functions.left, Functions.right, Functions.string_or_empty, Functions.int_or_zero.
  rewrite (wrap32_small (strlen s)) by lia.
  split.
  - intros Hn.
    exists (String.substring 0 (Z.to_nat n) s),
           (String.substring (Z.to_nat n) (String.length s - Z.to_nat n) s).
    replace (n <=? 0) with false by (symmetry; apply Z.leb_gt; lia).
    replace (strlen s <=? n) with false by (symmetry; apply Z.leb_gt; lia).
    replace (strlen s - n <=? 0) with false by (symmetry; apply Z.leb_gt; lia).
    replace (strlen s <=? strlen s - n) with false by (symmetry; apply Z.leb_gt; lia).
    unfold Functions.substr, strlen in *.
    repeat split.
    + do 3 f_equal. lia.
    + do 3 f_equal; lia.
    + apply substring_split. lia.
    + rewrite substring_length by lia. lia.
  - intros Hn Hlen.
    replace (n <=? 0) with false by (symmetry; apply Z.leb_gt; lia).
    replace (strlen s <=? n) with true by (symmetry; apply Z.leb_le; lia).
    now split.
Qed.

(** X3: for [1 <= start <= LEN(s)], [MID(s, start)] is [s] from its
    character number [start] to its end, and [MID(s, start, length)] is at
    most [length] characters from there, or, when [length] is negative, again
    all the characters to the end. *)
Theorem mid_substring (start : Z) :
  1 <= start <= strlen s ->
  let rest := strlen s - start + 1 in
  Functions.mid [VString s; VInt start]
    = Return (VString (String.substring (Z.to_nat (start - 1)) (Z.to_nat rest) s))
  /\ forall length : Z,
       INT_MIN <= length <= INT_MAX ->
       Functions.mid [VString s; VInt start; VInt length]
       = Return (VString (String.substring (Z.to_nat (start - 1))
                            (Z.to_nat (if length <? 0 then rest else Z.min length rest)) s)).
Proof.
  intros Hstart rest. pose proof (strlen_nonneg s) as Hs.
  assert (Hgen : forall length : Z,
             INT_MIN <= length <= INT_MAX ->
             Functions.mid [VString s; VInt start; VInt length]
             = Return (VString (String.substring (Z.to_nat (start - 1))
                                  (Z.to_nat (if length <? 0 then rest else Z.min length rest)) s))).
  { intros length Hl. unfold INT_MIN, INT_MAX in Hl.
    unfold Functions.mid, Functions.string_or_empty, Functions.int_or_zero.
    rewrite (wrap32_small (strlen s)) by lia.
    replace (start <? 1) with false by (symmetry; apply Z.ltb_ge; lia).
    replace (strlen s <? start) with false by (symmetry; apply Z.ltb_ge; lia).
    cbn [orb]. unfold Functions.substr. do 3 f_equal.
    destruct (Z.ltb_spec length 0) as [Hneg | Hpos].
    - destruct (Z_lt_le_dec (start - 1 + length) 0) as [H1 | H1].
      + rewrite (wrap_size_negative (start - 1 + length)) by lia.
        rewrite (Z.min_r (2 ^ 64 + (start - 1 + length)) (strlen s)) by lia.
        rewrite wrap_size_small by lia. subst rest. lia.
      + rewrite (wrap_size_small (start - 1 + length)) by lia.
        rewrite (Z.min_l (start - 1 + length) (strlen s)) by lia.
        rewrite wrap_size_negative by lia. subst rest. lia.
    - rewrite (wrap_size_small (start - 1 + length)) by lia.
      destruct (Z_le_gt_dec (start - 1 + length) (strlen s)) as [H1 | H1].
      + rewrite (Z.min_l (start - 1 + length) (strlen s)) by lia.
        rewrite wrap_size_small by lia. subst rest. lia.
      + rewrite (Z.min_r (start - 1 + length) (strlen s)) by lia.
        rewrite wrap_size_small by lia. subst rest. lia. }
  split; [| exact Hgen].
  specialize (Hgen rest ltac:(subst rest; unfold INT_MIN, INT_MAX; lia)).
  replace (rest <? 0) with false in Hgen by (symmetry; apply Z.ltb_ge; subst rest; lia).
  rewrite Z.min_id in Hgen. rewrite <- Hgen.
  unfold Functions.mid, Functions.string_or_empty, Functions.int_or_zero.
  rewrite (wrap_size_small (strlen s - start + 1)) by lia.
  rewrite (wrap32_small (strlen s - start + 1)) by lia. reflexivity.
Qed.

End StringBuiltins.

(** A witness of [left_right_split]: [LEFT("HELLO", 2)] and
    [RIGHT("HELLO", 3)]. *)
Lemma left_right_split_witness :
  exists a b,
    Functions.left [VString "HELLO"; VInt 2] = Return (VString a)
    /\ Functions.right [VString "HELLO"; VInt (strlen "HELLO" - 2)] = Return (VString b)
    /\ a +:+ b = "HELLO"
    /\ strlen a = 2.
Proof.
  apply (proj1 (left_right_split "HELLO" ltac:(vm_compute; reflexivity) 2)).
  vm_compute. split; reflexivity.
Defined.

(** A witness of [mid_substring]: [MID("HELLO", 2, -1)] is ["ELLO"]. *)
Lemma mid_substring_witness :
  Functions.mid [VString "HELLO"; VInt 2; VInt (-1)] = Return (VString "ELLO").
Proof.
  apply (proj2 (mid_substring "HELLO" ltac:(vm_compute; reflexivity) 2
                  ltac:(vm_compute; split; discriminate)) (-1)).
  vm_compute. split; discriminate.
Defined.

(** ** The lexer ends, and what it returns *)

Lemma left_of_refl (s : string) : left_of s s.
Proof. now exists EmptyString. Qed.

Lemma left_of_cons (c : ascii) (r s : string) : left_of r s -> left_of r (String c s).
Proof. intros [p ->]. now exists (String c p). Qed.

Lemma left_of_length (r s : string) :
  left_of r s -> (String.length r <= String.length s)%nat.
Proof.
  intros [p ->]. induction p as [|c p IH]; [apply Nat.le_refl |].
  change (String c p +:+ r) with (String c (p +:+ r)). simpl. lia.
Qed.

Lemma left_of_contains (ch : ascii) (r s : string) :
  left_of r s -> contains_char ch r = true -> contains_char ch s = true.
Proof.
  intros [p ->] H. induction p as [|c p IH]; [exact H |].
  change (String c p +:+ r) with (String c (p +:+ r)). simpl. rewrite IH. apply orb_true_r.
Qed.

Lemma skip_comment_left (s : string) : left_of (Lexer.skip_comment s) s.
Proof.
  induction s as [|c s IH]; [apply left_of_refl |]. simpl.
  destruct (Ascii.eqb c Char.newline); [apply left_of_refl | now apply left_of_cons].
Qed.

Lemma scan_number_left (s : string) (hasDecimal : bool) :
  left_of (Lexer.scan_number s hasDecimal).2 s.
Proof.
  revert hasDecimal. induction s as [|c s IH]; intros h; [apply left_of_refl |]. simpl.
  destruct (Char.isdigit c).
  - specialize (IH h). destruct (Lexer.scan_number s h). now apply left_of_cons.
  - destruct (Ascii.eqb c "." && negb h).
    + specialize (IH true). destruct (Lexer.scan_number s true). now apply left_of_cons.
    + apply left_of_refl.
Qed.

Lemma scan_identifier_left (s : string) : left_of (Lexer.scan_identifier s).2 s.
Proof.
  induction s as [|c s IH]; [apply left_of_refl |]. simpl.
  destruct (Char.isalnum c || Ascii.eqb c "_").
  - destruct (Lexer.scan_identifier s). now apply left_of_cons.
  - apply left_of_refl.
Qed.

Lemma scan_string_left (s : string) : left_of (Lexer.scan_string s).2 s.
Proof.
  assert (H : forall n s, (String.length s < n)%nat -> left_of (Lexer.scan_string s).2 s).
  { clear s. induction n as [|n IH]; intros s Hn; [lia |].
    destruct s as [|c s]; [apply left_of_refl |]. simpl in *.
    destruct (Ascii.eqb c Char.quote); [apply left_of_refl |].
    destruct (Ascii.eqb c "\").
    - destruct s as [|e s]; [now exists (String c EmptyString) |].
      specialize (IH s ltac:(simpl in Hn; lia)).
      destruct (Lexer.scan_string s) as [[str k] remaining].
      now apply left_of_cons, left_of_cons.
    - specialize (IH s ltac:(lia)).
      destruct (Lexer.scan_string s) as [[str k] remaining]. now apply left_of_cons. }
  apply (H (S (String.length s))). lia.
Qed.

Lemma scan_operator_left (ch : ascii) (rest : string) (t : TokenType) (value remaining : string) :
  Lexer.scan_operator ch rest = Some (t, value, remaining) ->
  left_of remaining rest /\ lexed_type t = true.
Proof.
  unfold Lexer.scan_operator.
  repeat match goal with
         | |- context [if ?b then _ else _] => destruct b
         | |- context [match ?r with EmptyString => _ | String _ _ => _ end] =>
             destruct r as [|[[] [] [] [] [] [] [] []] ?]
         end;
  intros [= <- <- <-]; (split; [| reflexivity]);
  first [apply left_of_refl | apply left_of_cons, left_of_refl].
Qed.

Lemma find_keyword_lexed (identifier : string) (t : TokenType) :
  Lexer.find_keyword Lexer.keywords_ identifier = Some t -> lexed_type t = true.
Proof.
  unfold Lexer.keywords_. cbn [Lexer.find_keyword].
  repeat match goal with
         | |- context [if ?b then _ else _] => destruct b
         end;
  now intros [= <-].
Qed.

Lemma scan_operator_unknown (ch : ascii) (rest : string) :
  Lexer.scan_operator ch rest = None -> Lexer.scan_operator ch EmptyString = None.
Proof.
  unfold Lexer.scan_operator.
  repeat match goal with
         | |- context [if ?b then _ else _] => destruct b
         | |- context [match ?r with EmptyString => _ | String _ _ => _ end] =>
             destruct r as [|[[] [] [] [] [] [] [] []] ?]
         end; congruence.
Qed.

Lemma lexed_left (r s : string) (o : option (Except (list Token))) :
  left_of r s -> lexed r o -> lexed s o.
Proof.
  intros Hl. destruct o as [[tokens | what] |]; simpl; auto.
  intros (ch & Hc & Hu & Hw). exists ch. split; [| now split].
  now apply (left_of_contains ch r s).
Qed.

Lemma lexed_emit (t : Token) (r s : string) (o : option (Except (list Token))) :
  lexed_type (tok_type t) = true -> left_of r s -> lexed r o -> lexed s (Lexer.emit t o).
Proof.
  intros Ht Hl Ho. apply (lexed_left r s _ Hl).
  destruct o as [[tokens | what] |]; simpl in *; auto.
  destruct Ho as (body & line & column & -> & Hb).
  exists (t :: body), line, column. split; [reflexivity | now constructor].
Qed.

Lemma tokenize_loop_lexed (fuel : nat) (input : string) (line column : Z) :
  (String.length input < fuel)%nat -> lexed input (Lexer.tokenize_loop fuel input line column).
Proof.
  revert input line column. induction fuel as [|fuel IH]; intros input line column Hf; [lia |].
  destruct input as [|ch rest]; cbn [Lexer.tokenize_loop].
  { exists [], line, column. split; [reflexivity | constructor]. }
  simpl in Hf.
  assert (Hrest : forall r l c, left_of r rest -> lexed r (Lexer.tokenize_loop fuel r l c)).
  { intros r l c Hr. apply IH. pose proof (left_of_length r rest Hr). lia. }
  destruct (Char.isspace ch) eqn:Hspace.
  { destruct (Ascii.eqb ch Char.newline);
      (apply (lexed_left rest); [apply left_of_cons, left_of_refl |]);
      apply Hrest, left_of_refl. }
  destruct (Ascii.eqb ch "'") eqn:Hcomment.
  { assert (Hl : left_of (Lexer.skip_comment (String ch rest)) rest).
    { simpl. destruct (Ascii.eqb_spec ch Char.newline) as [-> | _]; [discriminate |].
      apply skip_comment_left. }
    apply (lexed_left _ _ _ (left_of_cons ch _ _ Hl)). now apply Hrest. }
  destruct (Char.isdigit ch || Ascii.eqb ch ".") eqn:Hnumber.
  { assert (Hl : left_of (Lexer.scan_number (String ch rest) false).2 rest).
    { simpl. destruct (Char.isdigit ch).
      - pose proof (scan_number_left rest false) as H.
        now destruct (Lexer.scan_number rest false).
      - simpl in Hnumber. rewrite Hnumber. cbn [negb andb].
        pose proof (scan_number_left rest true) as H.
        now destruct (Lexer.scan_number rest true). }
    destruct (Lexer.scan_number (String ch rest) false) as [number remaining].
    apply (lexed_emit _ remaining); [reflexivity | now apply left_of_cons | now apply Hrest]. }
  destruct (Ascii.eqb ch Char.quote) eqn:Hquote.
  { pose proof (scan_string_left rest) as Hl.
    destruct (Lexer.scan_string rest) as [[str n] remaining]. cbn [snd] in Hl.
    destruct remaining as [|q remaining'].
    - apply (lexed_emit _ EmptyString); [reflexivity | now apply left_of_cons | now apply Hrest].
    - assert (Hl' : left_of remaining' rest).
      { destruct Hl as [p ->]. exists (p +:+ String q EmptyString).
        clear. induction p as [|c p IHp]; [reflexivity |].
        change (String c p +:+ ?x) with (String c (p +:+ x)). now rewrite IHp. }
      apply (lexed_emit _ remaining'); [reflexivity | now apply left_of_cons | now apply Hrest]. }
  destruct (Char.isalpha ch || Ascii.eqb ch "_") eqn:Hident.
  { assert (Hl : left_of (Lexer.scan_identifier (String ch rest)).2 rest).
    { simpl. unfold Char.isalnum.
      replace (Char.isalpha ch || Char.isdigit ch || Ascii.eqb ch "_") with true
        by (destruct (Char.isalpha ch), (Char.isdigit ch), (Ascii.eqb ch "_"); auto; discriminate).
      pose proof (scan_identifier_left rest) as H.
      now destruct (Lexer.scan_identifier rest). }
    destruct (Lexer.scan_identifier (String ch rest)) as [identifier remaining].
    apply (lexed_emit _ remaining); [| now apply left_of_cons | now apply Hrest].
    cbn [tok_type].
    destruct (Lexer.find_keyword Lexer.keywords_ identifier) as [k |] eqn:Hk; [| reflexivity].
    now apply (find_keyword_lexed identifier). }
  destruct (Lexer.scan_operator ch rest) as [[[tokenType value] remaining] |] eqn:Hop.
  { destruct (scan_operator_left _ _ _ _ _ Hop) as [Hl Ht].
    apply (lexed_emit _ remaining); [exact Ht | now apply left_of_cons | now apply Hrest]. }
  exists ch. split; [simpl; now rewrite Ascii.eqb_refl |].
  split; [| reflexivity].
  repeat split; try assumption. now apply (scan_operator_unknown ch rest).
Qed.

(** X4: [tokenize] ends on every text.  It returns a token vector whose last
    token is its only end-of-input token and whose other tokens are never of
    type [EQUAL], [AND], [OR], [NOT], [NEWLINE] or [UNKNOWN]; or it throws
    [Unknown character: c] for a character [c] of the text that is not a
    blank, a quote, an apostrophe, a dot, a digit, a letter, an underscore or
    an operator. *)
Theorem tokenize_ends_input (input : string) :
  match Lexer.tokenize input with
  | Return tokens => ends_input tokens
  | Raise what =>
      exists ch, contains_char ch input = true /\ unknown_character ch
                 /\ what = "Unknown character: " +:+ string_of_char ch
  end.
Proof.
  unfold Lexer.tokenize.
  pose proof (tokenize_loop_lexed (S (String.length input)) input 1 1 (Nat.lt_succ_diag_r _)) as H.
  destruct (Lexer.tokenize_loop _ input 1 1) as [[tokens | what] |]; [exact H | exact H | destruct H].
Qed.

(** ** String literals and comments *)

Lemma append_cons (c : ascii) (a b : string) : String c a +:+ b = String c (a +:+ b).
Proof. reflexivity. Qed.

Lemma append_empty_r (a : string) : a +:+ EmptyString = a.
Proof. induction a as [|c a IH]; [reflexivity |]. now rewrite append_cons, IH. Qed.

Lemma strlen_cons (c : ascii) (s : string) : strlen (String c s) = 1 + strlen s.
Proof. unfold strlen. simpl String.length. lia. Qed.

Lemma scan_string_plain (s r : string) :
  contains_char Char.quote s = false -> contains_char "\" s = false ->
  Lexer.scan_string (s +:+ r)
  = let '(str, n, remaining) := Lexer.scan_string r in (s +:+ str, strlen s + n, remaining).
Proof.
  induction s as [|c s IH]; intros Hq Hb.
  - change (EmptyString +:+ r) with r. destruct (Lexer.scan_string r) as [[str n] remaining].
    reflexivity.
  - simpl in Hq, Hb. apply orb_false_iff in Hq as [Hq1 Hq2]. apply orb_false_iff in Hb as [Hb1 Hb2].
    rewrite append_cons. cbn [Lexer.scan_string]. rewrite Hq1, Hb1, (IH Hq2 Hb2).
    destruct (Lexer.scan_string r) as [[str n] remaining].
    rewrite append_cons, strlen_cons. f_equal. f_equal. lia.
Qed.

(** X5: a string literal without a backslash is one [STRING] token that holds
    the text between the quotes, whatever that text is (a line end included,
    and the line count does not move).  A literal that is not closed before
    the end of the text is accepted in the same way: no error is raised. *)
Theorem tokenize_string_literal (s : string) :
  contains_char Char.quote s = false -> contains_char "\" s = false ->
  Lexer.tokenize (String Char.quote (s +:+ string_of_char Char.quote))
    = Return [mkToken STRING s 1 1; mkToken EOF_TOKEN EmptyString 1 (strlen s + 3)]
  /\ Lexer.tokenize (String Char.quote s)
     = Return [mkToken STRING s 1 1; mkToken EOF_TOKEN EmptyString 1 (strlen s + 2)].
Proof.
  intros Hq Hb. unfold Lexer.tokenize. split.
  - cbn [String.length Lexer.tokenize_loop].
    change (Char.isspace Char.quote) with false.
    change (Ascii.eqb Char.quote "'") with false.
    change (Char.isdigit Char.quote || Ascii.eqb Char.quote ".") with false.
    rewrite Ascii.eqb_refl. cbv iota.
    rewrite (scan_string_plain s _ Hq Hb). unfold string_of_char.
    cbn [Lexer.scan_string]. rewrite Ascii.eqb_refl.
    rewrite append_empty_r.
    destruct (String.length (s +:+ String Char.quote EmptyString)) eqn:Hlen.
    + destruct s; discriminate.
    + cbn [Lexer.tokenize_loop Lexer.emit]. do 4 f_equal. lia.
  - cbn [String.length Lexer.tokenize_loop].
    change (Char.isspace Char.quote) with false.
    change (Ascii.eqb Char.quote "'") with false.
    change (Char.isdigit Char.quote || Ascii.eqb Char.quote ".") with false.
    rewrite Ascii.eqb_refl. cbv iota.
    rewrite <- (append_empty_r s) at 1. rewrite (scan_string_plain s _ Hq Hb).
    cbn [Lexer.scan_string]. rewrite append_empty_r.
    destruct (String.length s); cbn [Lexer.tokenize_loop Lexer.emit]; do 4 f_equal; lia.
Qed.

(** A witness of [tokenize_string_literal]: the literal of [Hello, ]. *)
Lemma tokenize_string_literal_witness :
  Lexer.tokenize (String Char.quote ("Hello, " +:+ string_of_char Char.quote))
    = Return [mkToken STRING "Hello, " 1 1; mkToken EOF_TOKEN EmptyString 1 (strlen "Hello, " + 3)]
  /\ Lexer.tokenize (String Char.quote "Hello, ")
     = Return [mkToken STRING "Hello, " 1 1; mkToken EOF_TOKEN EmptyString 1 (strlen "Hello, " + 2)].
Proof. apply (tokenize_string_literal "Hello, "); reflexivity. Defined.

Lemma tokenize_loop_S (fuel : nat) (input : string) (line column : Z) :
  Lexer.tokenize_loop (S fuel) input line column
  = match input with
    | EmptyString => Some (Return [mkToken EOF_TOKEN "" line column])
    | String ch rest =>
        if Char.isspace ch then
          if Ascii.eqb ch Char.newline then Lexer.tokenize_loop fuel rest (line + 1) 1
          else Lexer.tokenize_loop fuel rest line (column + 1)
        else if Ascii.eqb ch "'" then
          Lexer.tokenize_loop fuel (Lexer.skip_comment input) line column
        else if Char.isdigit ch || Ascii.eqb ch "." then
          let '(number, remaining) := Lexer.scan_number input false in
          Lexer.emit (mkToken NUMBER number line column)
            (Lexer.tokenize_loop fuel remaining line (column + strlen number))
        else if Ascii.eqb ch Char.quote then
          let '(str, n, remaining) := Lexer.scan_string rest in
          match remaining with
          | String _ remaining' =>
              Lexer.emit (mkToken STRING str line column)
                (Lexer.tokenize_loop fuel remaining' line (column + 1 + n + 1))
          | EmptyString =>
              Lexer.emit (mkToken STRING str line column)
                (Lexer.tokenize_loop fuel EmptyString line (column + 1 + n))
          end
        else if Char.isalpha ch || Ascii.eqb ch "_" then
          let '(identifier, remaining) := Lexer.scan_identifier input in
          let t := match Lexer.find_keyword Lexer.keywords_ identifier with
                   | Some k => k
                   | None => IDENTIFIER
                   end in
          Lexer.emit (mkToken t identifier line column)
            (Lexer.tokenize_loop fuel remaining line (column + strlen identifier))
        else
          match Lexer.scan_operator ch rest with
          | Some (tokenType, value, remaining) =>
              Lexer.emit (mkToken tokenType value line column)
                (Lexer.tokenize_loop fuel remaining line (column + strlen value))
          | None => Some (Raise ("Unknown character: " +:+ string_of_char ch))
          end
    end.
Proof. reflexivity. Qed.

Lemma tokenize_loop_more (fuel : nat) :
  forall (input : string) (line column : Z) (r : Except (list Token)),
    Lexer.tokenize_loop fuel input line column = Some r ->
    Lexer.tokenize_loop (S fuel) input line column = Some r.
Proof.
  induction fuel as [|fuel IH]; intros input line column r; [discriminate |].
  assert (He : forall t i l c o,
             Lexer.emit t (Lexer.tokenize_loop fuel i l c) = Some o ->
             Lexer.emit t (Lexer.tokenize_loop (S fuel) i l c) = Some o).
  { intros t i l c o. destruct (Lexer.tokenize_loop fuel i l c) as [x |] eqn:Hx; [| discriminate].
    now rewrite (IH _ _ _ _ Hx). }
  rewrite (tokenize_loop_S (S fuel)), (tokenize_loop_S fuel).
  destruct input as [|ch rest]; [auto |].
  repeat match goal with
         | |- context [if ?b then _ else _] => destruct b
         | |- context [let '(_, _) := ?x in _] => destruct x
         | |- context [match ?x with EmptyString => _ | String _ _ => _ end] => destruct x
         | |- context [match ?x with Some _ => _ | None => _ end] => destruct x
         end; auto.
Qed.

Lemma tokenize_loop_enough (fuel : nat) (input : string) (line column : Z) :
  (String.length input < fuel)%nat ->
  Lexer.tokenize_loop fuel input line column = Some (tokenize_from input line column).
Proof.
  intros Hf. unfold tokenize_from.
  pose proof (tokenize_loop_lexed (S (String.length input)) input line column
                (Nat.lt_succ_diag_r _)) as Hl.
  destruct (Lexer.tokenize_loop (S (String.length input)) input line column) as [r |] eqn:Hr;
    [| destruct Hl].
  clear Hl. induction Hf as [|fuel Hf IH]; [exact Hr | now apply tokenize_loop_more].
Qed.

Lemma tokenize_from_start (input : string) : Lexer.tokenize input = tokenize_from input 1 1.
Proof. reflexivity. Qed.

Lemma skip_comment_line (c rest : string) :
  contains_char Char.newline c = false ->
  Lexer.skip_comment (c +:+ rest) = Lexer.skip_comment rest.
Proof.
  induction c as [|x c IH]; intros H; [reflexivity |].
  simpl in H. apply orb_false_iff in H as [H1 H2].
  rewrite append_cons. cbn [Lexer.skip_comment]. rewrite H1. now apply IH.
Qed.

(** X6: a comment runs from an apostrophe to the end of its line and gives no
    token: the tokens of the text are those of the next line on, and a
    comment that ends the text leaves the end-of-input token where the
    apostrophe was. *)
Theorem tokenize_comment (c rest : string) (line column : Z) :
  contains_char Char.newline c = false ->
  tokenize_from (String "'" (c +:+ String Char.newline rest)) line column
    = tokenize_from rest (line + 1) 1
  /\ tokenize_from (String "'" c) line column
     = Return [mkToken EOF_TOKEN EmptyString line column].
Proof.
  intros Hc. split; unfold tokenize_from at 1.
  - rewrite tokenize_loop_S.
    change (Char.isspace "'") with false. change (Ascii.eqb "'" "'") with true. cbv iota.
    cbn [Lexer.skip_comment]. change (Ascii.eqb "'" Char.newline) with false. cbv iota.
    rewrite (skip_comment_line c _ Hc). cbn [Lexer.skip_comment]. rewrite Ascii.eqb_refl.
    cbn [String.length]. rewrite tokenize_loop_S.
    change (Char.isspace Char.newline) with true. rewrite Ascii.eqb_refl. cbv iota.
    rewrite (tokenize_loop_enough _ rest); [reflexivity |].
    clear Hc. induction c as [|x c IH].
    + change (EmptyString +:+ ?r) with r. simpl. lia.
    + rewrite append_cons. simpl. lia.
  - rewrite tokenize_loop_S.
    change (Char.isspace "'") with false. change (Ascii.eqb "'" "'") with true. cbv iota.
    cbn [Lexer.skip_comment]. change (Ascii.eqb "'" Char.newline) with false. cbv iota.
    rewrite <- (append_empty_r c). rewrite (skip_comment_line c _ Hc).
    cbn [String.length Lexer.skip_comment]. now rewrite tokenize_loop_S.
Qed.

(** A witness of [tokenize_comment]: a remark before a statement. *)
Lemma tokenize_comment_witness :
  tokenize_from (String "'" (" a remark" +:+ String Char.newline "PRINT 1")) 1 1
    = tokenize_from "PRINT 1" (1 + 1) 1
  /\ tokenize_from (String "'" " a remark") 1 1 = Return [mkToken EOF_TOKEN EmptyString 1 1].
Proof. apply (tokenize_comment " a remark" "PRINT 1" 1 1). reflexivity. Defined.

(** ** Names of token types *)

(** X7: the names [tokenTypeToString] gives are pairwise distinct, and the
    name of a type is lexed back to a token of that type exactly for the
    types of the keyword table; the name of any other type is lexed as an
    identifier. *)
Theorem tokenTypeToString_keywords (a b : TokenType) :
  (tokenTypeToString a = tokenTypeToString b -> a = b)
  /\ Lexer.tokenize (tokenTypeToString a)
     = Return [mkToken (if is_keyword a then a else IDENTIFIER) (tokenTypeToString a) 1 1;
               mkToken EOF_TOKEN EmptyString 1 (1 + strlen (tokenTypeToString a))].
Proof.
  split.
  - assert (H : String.eqb (tokenTypeToString a) (tokenTypeToString b) = TokenType_beq a b)
      by (destruct a, b; vm_compute; reflexivity).
    intros Heq. rewrite Heq, String.eqb_refl in H. symmetry in H.
    now apply internal_TokenType_dec_bl.
  - destruct a; vm_compute; reflexivity.
Qed.

(** ** What the parser builds *)

Lemma bind_Ok {S A B} (m : M S A) (k : A -> M S B) (s s2 : S) (b : B) :
  bind m k s = Ok b s2 -> exists a s1, m s = Ok a s1 /\ k a s1 = Ok b s2.
Proof. unfold bind. destruct (m s) as [a s1 | |]; try discriminate. eauto. Qed.

Lemma try_catch_Ok {S A} (m : M S A) (h : string -> M S A) (s s2 : S) (a : A) :
  try_catch m h s = Ok a s2 ->
  m s = Ok a s2 \/ exists what s1, m s = Throw what s1 /\ h what s1 = Ok a s2.
Proof. unfold try_catch. destruct (m s) as [x s1 | what s1 |]; try discriminate; eauto. Qed.

Section Shapes.

Variable E : Externals.
Variable tokens_ : list Token.

#[local] Abbreviation current := (Parser.current tokens_).
#[local] Abbreviation match_ := (Parser.match_ tokens_).
#[local] Abbreviation check := (Parser.check tokens_).

Lemma current_Ok (cur cur1 : nat) (t : Token) :
  current cur = Ok t cur1 -> t = Parser.token_at tokens_ cur /\ cur1 = cur.
Proof. unfold Parser.current. now intros [= <- <-]. Qed.

Lemma check_true (type : TokenType) (cur cur1 : nat) :
  check type cur = Ok true cur1 ->
  tok_type (Parser.token_at tokens_ cur) = type /\ cur1 = cur.
Proof.
  unfold Parser.check, bind, Parser.isAtEnd, ret, Parser.current.
  destruct (_ || _); [discriminate |].
  intros Heq. injection Heq as H1 H2. split; [now apply internal_TokenType_dec_bl | now symmetry].
Qed.

Lemma match_true (type : TokenType) (cur cur1 : nat) :
  match_ type cur = Ok true cur1 -> tok_type (Parser.token_at tokens_ cur) = type.
Proof.
  unfold Parser.match_. intros H. apply bind_Ok in H as (c & s1 & Hc & H).
  destruct c; [| discriminate]. now apply check_true in Hc as [Hc _].
Qed.

Lemma match_false (type : TokenType) (cur cur1 : nat) :
  match_ type cur = Ok false cur1 -> cur1 = cur.
Proof.
  unfold Parser.match_. intros H. apply bind_Ok in H as (c & s1 & Hc & H).
  destruct c.
  - apply bind_Ok in H as (u & s2 & _ & H). discriminate.
  - injection H as <-. revert Hc.
    unfold Parser.check, bind, Parser.isAtEnd, ret, Parser.current.
    destruct (_ || _); intros Heq; now inversion Heq.
Qed.

End Shapes.

Ltac invert_ok :=
  repeat match goal with
         | H : bind _ _ _ = Ok _ _ |- _ =>
             let a := fresh "a" in let s := fresh "s" in let H1 := fresh "Hm" in
             apply bind_Ok in H as (a & s & H1 & H)
         | H : ret _ _ = Ok _ _ |- _ => unfold ret in H; inversion H; subst; clear H
         | H : throw _ _ = Ok _ _ |- _ => discriminate H
         | H : (if ?b then _ else _) _ = Ok _ _ |- _ => destruct b eqn:?
         | H : (if negb ?b then _ else _) _ = Ok _ _ |- _ => destruct b eqn:?; cbn [negb] in H
         end.

Section ShapeInduction.

Variable E : Externals.
Variable tokens_ : list Token.

Ltac fold_parser H :=
  fold (Parser.parseStatement E tokens_) (Parser.parseLetStatement E tokens_)
       (Parser.parseIfStatement E tokens_) (Parser.parseForStatement E tokens_)
       (Parser.parseWhileStatement E tokens_) (Parser.parsePrintStatement E tokens_)
       (Parser.parsePrintStatement_loop E tokens_) (Parser.parseFunctionCall E tokens_)
       (Parser.parseFunctionCall_loop E tokens_) (Parser.parseExpression E tokens_)
       (Parser.parseExpression_loop E tokens_) (Parser.parseTerm E tokens_)
       (Parser.parseTerm_loop E tokens_) (Parser.parseFactor E tokens_)
       (Parser.parseFactor_loop E tokens_) (Parser.parsePrimary E tokens_) in H.

Lemma parseInputStatement_shaped (cur cur' : nat) (n : ASTNode) :
  Parser.parseInputStatement tokens_ cur = Ok n cur' -> parser_shaped n = true.
Proof. unfold Parser.parseInputStatement. intros H. now invert_ok. Qed.

Ltac shaped_goal :=
  cbn [parser_shaped shaped_option forallb];
  repeat (apply andb_true_intro; split);
  eauto.

Lemma shapes_at_all (fuel : nat) : shapes_at E tokens_ fuel.
Proof.
  induction fuel as [|fuel IH].
  { unfold shapes_at. repeat split; intros; discriminate. }
  destruct IH as (Istmt & Ilet & Iif & Ifor & Iwhile & Iprint & Iprints & Icall & Icalls
                  & Iexpr & Iexprs & Iterm & Iterms & Ifactor & Ifactors & Iprimary).
  assert (Iexpr1 : forall cur cur' n,
             Parser.parseExpression E tokens_ fuel cur = Ok n cur' -> parser_shaped n = true)
    by (intros ? ? ? Hx; exact (proj1 (Iexpr _ _ _ Hx))).
  assert (Iterm1 : forall cur cur' n,
             Parser.parseTerm E tokens_ fuel cur = Ok n cur' -> parser_shaped n = true)
    by (intros ? ? ? Hx; exact (proj1 (Iterm _ _ _ Hx))).
  assert (Ifactor1 : forall cur cur' n,
             Parser.parseFactor E tokens_ fuel cur = Ok n cur' -> parser_shaped n = true)
    by (intros ? ? ? Hx; exact (proj1 (Ifactor _ _ _ Hx))).
  assert (Iprimary1 : forall cur cur' n,
             Parser.parsePrimary E tokens_ fuel cur = Ok n cur' -> parser_shaped n = true)
    by (intros ? ? ? Hx; exact (proj1 (Iprimary _ _ _ Hx))).
  assert (Istmt1 : forall cur cur' o,
             Parser.parseStatement E tokens_ fuel cur = Ok o cur' ->
             match o with Some n => parser_shaped n | None => true end = true)
    by exact Istmt.
  pose proof parseInputStatement_shaped as Iinput.
  unfold shapes_at.
  repeat match goal with |- _ /\ _ => split end.
  - (* parseStatement *)
    intros cur cur' o H. cbn [Parser.parseStatement] in H. fold_parser H.
    apply bind_Ok in H as (e & s & _ & H). destruct e; [now invert_ok |].
    apply try_catch_Ok in H as [H | (what & s1 & _ & H)]; [| now invert_ok].
    invert_ok; shaped_goal.
  - (* parseLetStatement *)
    intros cur cur' n H. cbn [Parser.parseLetStatement] in H. fold_parser H.
    invert_ok; shaped_goal.
  - (* parseIfStatement *)
    intros cur cur' n H. cbn [Parser.parseIfStatement] in H. fold_parser H.
    invert_ok; shaped_goal.
  - (* parseForStatement *)
    intros cur cur' n H. cbn [Parser.parseForStatement] in H. fold_parser H.
    invert_ok; shaped_goal.
  - (* parseWhileStatement *)
    intros cur cur' n H. cbn [Parser.parseWhileStatement] in H. fold_parser H.
    invert_ok; shaped_goal.
  - (* parsePrintStatement *)
    intros cur cur' n H. cbn [Parser.parsePrintStatement] in H. fold_parser H.
    invert_ok; shaped_goal.
  - (* parsePrintStatement_loop *)
    intros cur cur' l H. cbn [Parser.parsePrintStatement_loop] in H. fold_parser H.
    invert_ok; shaped_goal.
  - (* parseFunctionCall *)
    intros cur cur' n H. cbn [Parser.parseFunctionCall] in H. fold_parser H.
    invert_ok; shaped_goal.
  - (* parseFunctionCall_loop *)
    intros cur cur' l H. cbn [Parser.parseFunctionCall_loop] in H. fold_parser H.
    invert_ok; shaped_goal.
  - (* parseExpression *)
    intros cur cur' n H. cbn [Parser.parseExpression] in H. fold_parser H.
    invert_ok. split; [eauto | exact (proj2 (Iterm _ _ _ Hm))].
  - (* parseExpression_loop *)
    intros lhs cur cur' n Hl H. cbn [Parser.parseExpression_loop] in H. fold_parser H.
    invert_ok; [| assumption].
    apply current_Ok in Hm0 as [-> ->].
    eapply Iexprs; [| exact H]. shaped_goal.
    rewrite (proj2 (Iterm _ _ _ Hm1)). apply orb_true_r.
  - (* parseTerm *)
    intros cur cur' n H. cbn [Parser.parseTerm] in H. fold_parser H.
    invert_ok. split; [eauto | exact (proj2 (Ifactor _ _ _ Hm))].
  - (* parseTerm_loop *)
    intros lhs cur cur' n Hl H. cbn [Parser.parseTerm_loop] in H. fold_parser H.
    invert_ok; [| assumption].
    apply current_Ok in Hm0 as [-> ->].
    eapply Iterms; [| exact H]. shaped_goal.
    rewrite (proj2 (Ifactor _ _ _ Hm1)). apply orb_true_r.
  - (* parseFactor *)
    intros cur cur' n H. cbn [Parser.parseFactor] in H. fold_parser H.
    invert_ok. split; [eauto | exact (proj2 (Iprimary _ _ _ Hm))].
  - (* parseFactor_loop *)
    intros lhs cur cur' n Hl H. cbn [Parser.parseFactor_loop] in H. fold_parser H.
    invert_ok; [| assumption].
    eapply Ifactors; [| exact H]. shaped_goal.
  - (* parsePrimary *)
    intros cur cur' n H. cbn [Parser.parsePrimary] in H. fold_parser H.
    invert_ok.
    + split; [reflexivity |]. now rewrite (match_true _ _ _ _ Hm).
    + apply match_false in Hm as ->.
      split; [reflexivity |]. now rewrite (match_true _ _ _ _ Hm0).
    + apply match_false in Hm as ->. apply match_false in Hm0 as ->.
      split; [reflexivity |]. now rewrite (match_true _ _ _ _ Hm1).
    + apply match_false in Hm as ->. apply match_false in Hm0 as ->.
      apply match_false in Hm1 as ->.
      split; [eauto | now rewrite (match_true _ _ _ _ Hm2)].
Qed.

End ShapeInduction.

Section ParserOperators.

Variable E : Externals.
Variable tokens : list Token.

Lemma parseProgram_loop_shaped (n cur cur' : nat) (l : list ASTNode) :
  ParserEntry.parseProgram_loop E tokens n cur = Ok l cur' -> forallb parser_shaped l = true.
Proof.
  revert cur l. induction n as [|n IH]; intros cur l H; [discriminate |].
  cbn [ParserEntry.parseProgram_loop] in H. invert_ok; [reflexivity |].
  pose proof (shapes_at_all E tokens (ParserEntry.depth tokens)) as (Istmt & _).
  match goal with
  | Hs : Parser.parseStatement _ _ _ _ = Ok ?st _,
    Hl : ParserEntry.parseProgram_loop _ _ _ _ = Ok ?more _ |- _ =>
      specialize (Istmt _ _ _ Hs); specialize (IH _ _ Hl); destruct st as [st |]; [| exact IH];
      cbn [forallb]; cbn [shaped_option] in Istmt; now rewrite Istmt, IH
  end.
Qed.

(** X8: whatever the tokens, the tree [parseLine] or [parse] returns has no
    unary node, and the operator of each of its binary nodes is [POWER] or the
    type of the token its right operand starts with ([NUMBER], [STRING],
    [IDENTIFIER] or [LPAREN]), never the operator that was written; the
    runtime gives [Value{}] for a binary node with such an operator, so that
    no parsed statement adds, subtracts, multiplies, divides or compares. *)
Theorem parser_operators :
  (forall (cur : nat) (o : option ASTNode),
      ParserEntry.parseLine E tokens = Ok o cur -> shaped_option o = true)
  /\ (forall (cur : nat) (program : ASTNode),
         ParserEntry.parse E tokens = Ok program cur -> parser_shaped program = true)
  /\ (forall (operator_ : TokenType) (l r : Value),
         starts_primary operator_ = true ->
         Runtime.binary E operator_ l r = Return Value_default).
Proof.
  split; [| split].
  - intros cur o H.
    pose proof (shapes_at_all E tokens (ParserEntry.depth tokens)) as (Istmt & _).
    exact (Istmt _ _ _ H).
  - intros cur program H. unfold ParserEntry.parse in H. invert_ok.
    cbn [parser_shaped]. now apply parseProgram_loop_shaped in Hm.
  - intros operator_ l r H. now destruct operator_.
Qed.

End ParserOperators.

(** A witness of [parser_operators]: the tree of [1 + 2 * 3]. *)
Lemma parser_operators_witness :
  shaped_option
    (Some (BinaryExpressionNode NUMBER (LiteralNode (VInt 1))
             (BinaryExpressionNode NUMBER (LiteralNode (VInt 2)) (LiteralNode (VInt 3)))))
  = true.
Proof.
  apply (proj1 (parser_operators no_externals
                  [mkToken NUMBER "1" 1 1; mkToken PLUS "+" 1 3; mkToken NUMBER "2" 1 5;
                   mkToken MULTIPLY "*" 1 7; mkToken NUMBER "3" 1 9;
                   mkToken EOF_TOKEN EmptyString 1 10]) 5%nat).
  vm_compute. reflexivity.
Defined.

Section NoThrow.

Variable E : Externals.
Variable tokens_ : list Token.

Lemma advance_Ok (cur : nat) : exists cur', Parser.advance tokens_ cur = Ok tt cur'.
Proof.
  unfold Parser.advance, bind, Parser.isAtEnd, ret, modify.
  destruct (_ || _); eauto.
Qed.

Lemma synchronize_loop_no_throw (n cur : nat) (what : string) (cur' : nat) :
  Parser.synchronize_loop tokens_ n cur <> Throw what cur'.
Proof.
  revert cur. induction n as [|n IH]; intros cur; [discriminate |].
  cbn [Parser.synchronize_loop]. unfold bind at 1, Parser.isAtEnd.
  destruct (_ || _); [discriminate |].
  unfold bind at 1, Parser.current.
  destruct (tok_type (Parser.token_at tokens_ cur));
    try discriminate;
    try (destruct (advance_Ok cur) as [c Hc]; rewrite Hc; discriminate);
    unfold bind; destruct (advance_Ok cur) as [c Hc]; rewrite Hc; apply IH.
Qed.

Lemma parseStatement_no_throw (fuel cur : nat) (what : string) (cur' : nat) :
  Parser.parseStatement E tokens_ fuel cur <> Throw what cur'.
Proof.
  destruct fuel as [|fuel]; [discriminate |].
  cbn [Parser.parseStatement].
  unfold bind at 1, Parser.isAtEnd. destruct (_ || _); [discriminate |].
  unfold try_catch.
  match goal with |- context [match ?m cur with _ => _ end] => destruct (m cur) as [a s | w s |] end;
    try discriminate.
  unfold bind, Parser.synchronize. unfold bind.
  destruct (advance_Ok s) as [c Hc]. rewrite Hc.
  pose proof (synchronize_loop_no_throw (S (length tokens_)) c) as H.
  destruct (Parser.synchronize_loop tokens_ (S (length tokens_)) c) as [[] s2 | w2 s2 |];
    try discriminate.
  now destruct (H w2 s2).
Qed.

Lemma parse_no_throw (what : string) (cur : nat) :
  ParserEntry.parse E tokens_ <> Throw what cur.
Proof.
  unfold ParserEntry.parse.
  assert (H : forall n c w c', ParserEntry.parseProgram_loop E tokens_ n c <> Throw w c').
  { induction n as [|n IH]; intros c w c'; [discriminate |].
    cbn [ParserEntry.parseProgram_loop]. unfold bind at 1, Parser.isAtEnd.
    destruct (_ || _); [discriminate |].
    unfold bind at 1.
    pose proof (parseStatement_no_throw (ParserEntry.depth tokens_) c) as Hs.
    destruct (Parser.parseStatement E tokens_ (ParserEntry.depth tokens_) c)
      as [st s | w1 s |]; [| now destruct (Hs w1 s) | discriminate].
    unfold bind. specialize (IH s).
    destruct (ParserEntry.parseProgram_loop E tokens_ n s) as [more s2 | w2 s2 |];
      [discriminate | now destruct (IH w2 s2) | discriminate]. }
  unfold bind. specialize (H (S (length tokens_)) 0%nat).
  destruct (ParserEntry.parseProgram_loop E tokens_ (S (length tokens_)) 0%nat)
    as [l s | w s |]; [discriminate | now destruct (H w s) | discriminate].
Qed.

End NoThrow.

(** ** The parser ends *)

Section ParserSteps.

Variable tokens_ : list Token.

Lemma at_end_false (cur : nat) : at_end tokens_ cur = false -> (cur < length tokens_)%nat.
Proof.
  unfold at_end. intros H. apply orb_false_iff in H as [H _].
  apply Nat.leb_gt in H. exact H.
Qed.

Lemma back_ret {A} (base cur : nat) (a : A) (Q : A -> nat -> Prop) :
  Q a cur -> comes_back base (ret a) cur Q.
Proof. intros H. exact H. Qed.

Lemma back_throw {A} (base cur : nat) (what : string) (Q : A -> nat -> Prop) :
  (base <= cur)%nat -> comes_back base (throw what) cur Q.
Proof. intros H. exact H. Qed.

Lemma back_bind {A B} (base cur : nat) (m : Parser.P A) (k : A -> Parser.P B)
    (Q : B -> nat -> Prop) :
  comes_back base m cur (fun a c => comes_back base (k a) c Q) ->
  comes_back base (bind m k) cur Q.
Proof.
  unfold comes_back, bind. destruct (m cur) as [a c | what c |]; auto.
Qed.

Lemma back_weaken {A} (base base' cur : nat) (m : Parser.P A) (Q Q' : A -> nat -> Prop) :
  comes_back base' m cur Q' -> (base <= base')%nat -> (forall a c, Q' a c -> Q a c) ->
  comes_back base m cur Q.
Proof.
  unfold comes_back. destruct (m cur) as [a c | what c |]; auto. lia.
Qed.

(** A call of a parsing function inside another one. *)
Lemma back_call {A B} (base cur : nat) (m : Parser.P A) (k : A -> Parser.P B)
    (Q' : A -> nat -> Prop) (Q : B -> nat -> Prop) :
  comes_back cur m cur Q' -> (base <= cur)%nat ->
  (forall a c, Q' a c -> comes_back base (k a) c Q) ->
  comes_back base (bind m k) cur Q.
Proof.
  intros Hm Hb Hk. apply back_bind. apply (back_weaken base cur cur m _ Q' Hm Hb Hk).
Qed.

Lemma back_isAtEnd (base cur : nat) (Q : bool -> nat -> Prop) :
  (at_end tokens_ cur = true -> Q true cur) -> (at_end tokens_ cur = false -> Q false cur) ->
  comes_back base (Parser.isAtEnd tokens_) cur Q.
Proof.
  intros H1 H2. unfold comes_back, Parser.isAtEnd.
  fold (at_end tokens_ cur). destruct (at_end tokens_ cur) eqn:He; auto.
Qed.

Lemma back_check (base cur : nat) (type : TokenType) (Q : bool -> nat -> Prop) :
  (at_end tokens_ cur = false -> Q true cur) -> Q false cur ->
  comes_back base (Parser.check tokens_ type) cur Q.
Proof.
  intros H1 H2. unfold comes_back, Parser.check, bind, Parser.isAtEnd, ret,
    Parser.current.
  fold (at_end tokens_ cur). destruct (at_end tokens_ cur) eqn:He; [exact H2 |].
  destruct (TokenType_beq _ type); auto.
Qed.

Lemma back_advance (base cur : nat) (Q : unit -> nat -> Prop) :
  (at_end tokens_ cur = true -> Q tt cur) -> (at_end tokens_ cur = false -> Q tt (S cur)) ->
  comes_back base (Parser.advance tokens_) cur Q.
Proof.
  intros H1 H2. unfold comes_back, Parser.advance, bind, Parser.isAtEnd, ret, modify.
  fold (at_end tokens_ cur). destruct (at_end tokens_ cur) eqn:He; auto.
Qed.

Lemma back_match (base cur : nat) (type : TokenType) (Q : bool -> nat -> Prop) :
  (at_end tokens_ cur = false -> Q true (S cur)) -> Q false cur ->
  comes_back base (Parser.match_ tokens_ type) cur Q.
Proof.
  intros H1 H2. unfold Parser.match_. apply back_bind, back_check.
  - intros He. apply back_bind, back_advance; [congruence |]. intros _. now apply H1.
  - exact H2.
Qed.

Lemma back_match_any (base cur : nat) (types : list TokenType) (Q : bool -> nat -> Prop) :
  (at_end tokens_ cur = false -> Q true (S cur)) -> Q false cur ->
  comes_back base (Parser.match_any tokens_ types) cur Q.
Proof.
  intros H1 H2. induction types as [|t types IH]; [exact H2 |].
  cbn [Parser.match_any]. apply back_bind, back_match.
  - intros He. now apply H1.
  - exact IH.
Qed.

Lemma back_consume (base cur : nat) (type : TokenType) (message : string)
    (Q : unit -> nat -> Prop) :
  (at_end tokens_ cur = false -> Q tt (S cur)) -> (base <= cur)%nat ->
  comes_back base (Parser.consume tokens_ type message) cur Q.
Proof.
  intros H1 H2. unfold Parser.consume. apply back_bind, back_check.
  - intros He. apply back_advance; [congruence | exact H1].
  - exact H2.
Qed.

Lemma back_current (base cur : nat) (Q : Token -> nat -> Prop) :
  Q (Parser.token_at tokens_ cur) cur -> comes_back base (Parser.current tokens_) cur Q.
Proof. intros H. exact H. Qed.

Lemma back_last (base cur : nat) (Q : Token -> nat -> Prop) :
  (forall t, Q t cur) -> comes_back base (Parser.last tokens_) cur Q.
Proof.
  intros H. unfold comes_back, Parser.last. destruct (0 <? cur)%nat; apply H.
Qed.

Lemma back_synchronize (base cur : nat) (Q : unit -> nat -> Prop) :
  (forall c, (cur <= c)%nat -> (at_end tokens_ cur = false -> (cur < c)%nat) -> Q tt c) ->
  comes_back base (Parser.synchronize tokens_) cur Q.
Proof.
  intros HQ.
  assert (Hloop : forall n c (Q' : unit -> nat -> Prop),
             (length tokens_ - c < n)%nat -> (forall c', (c <= c')%nat -> Q' tt c') ->
             comes_back base (Parser.synchronize_loop tokens_ n) c Q').
  { induction n as [|n IH]; intros c Q' Hn HQ'; [lia |].
    cbn [Parser.synchronize_loop]. apply back_bind, back_isAtEnd.
    - intros _. apply back_ret, HQ'. lia.
    - intros He. pose proof (at_end_false c He) as Hlt.
      apply back_bind, back_current.
      assert (Hadv : comes_back base (Parser.advance tokens_) c Q').
      { apply back_advance; [congruence |]. intros _. apply HQ'. lia. }
      assert (Hnext : comes_back base
                        (let* _ := Parser.advance tokens_ in Parser.synchronize_loop tokens_ n)
                        c Q').
      { apply back_bind, back_advance; [congruence |]. intros _.
        apply IH; [lia |]. intros c' Hc'. apply HQ'. lia. }
      destruct (tok_type (Parser.token_at tokens_ c));
        first [exact Hadv | exact Hnext | apply back_ret, HQ'; lia]. }
  unfold Parser.synchronize. apply back_bind, back_advance.
  - intros He. apply Hloop.
    + unfold at_end in He. lia.
    + intros c Hc. apply HQ; [exact Hc | congruence].
  - intros He. pose proof (at_end_false cur He). apply Hloop; [lia |].
    intros c Hc. apply HQ; lia.
Qed.

End ParserSteps.

Section ParserEnds.

Variable E : Externals.
Variable tokens_ : list Token.

Ltac fold_parser_goal :=
  fold (Parser.parseStatement E tokens_) (Parser.parseLetStatement E tokens_)
       (Parser.parseIfStatement E tokens_) (Parser.parseForStatement E tokens_)
       (Parser.parseWhileStatement E tokens_) (Parser.parsePrintStatement E tokens_)
       (Parser.parsePrintStatement_loop E tokens_) (Parser.parseFunctionCall E tokens_)
       (Parser.parseFunctionCall_loop E tokens_) (Parser.parseExpression E tokens_)
       (Parser.parseExpression_loop E tokens_) (Parser.parseTerm E tokens_)
       (Parser.parseTerm_loop E tokens_) (Parser.parseFactor E tokens_)
       (Parser.parseFactor_loop E tokens_) (Parser.parsePrimary E tokens_).

Lemma back_modify (base cur : nat) (f : nat -> nat) (Q : unit -> nat -> Prop) :
  Q tt (f cur) -> comes_back base (modify f) cur Q.
Proof. intros H. exact H. Qed.

Ltac not_at_end :=
  let He := fresh "He" in
  intros He; pose proof (at_end_false tokens_ _ He).

Ltac arith :=
  unfold need in *; cbv beta in *;
  first [lia | split; [lia | intros; first [congruence | lia]]].

(** One step of a parsing function; [call] closes the calls of the parsing
    functions by the hypotheses on them. *)
Ltac back_step call :=
  cbv beta iota; cbn [negb andb orb];
  try solve [exfalso; congruence];
  lazymatch goal with
  | |- comes_back _ (bind _ _) _ _ => apply back_bind
  | |- comes_back _ (ret _) _ _ => apply back_ret; cbv beta; try arith
  | |- comes_back _ (throw _) _ _ => apply back_throw; arith
  | |- comes_back _ (Parser.current _) _ _ => apply back_current
  | |- comes_back _ (Parser.last _) _ _ => apply back_last; intros ?
  | |- comes_back _ (Parser.isAtEnd _) _ _ => apply back_isAtEnd; [intros ? | not_at_end]
  | |- comes_back _ (Parser.check _ _) _ _ => apply back_check; [not_at_end |]
  | |- comes_back _ (Parser.advance _) _ _ => apply back_advance; [intros ? | not_at_end]
  | |- comes_back _ (Parser.match_ _ _) _ _ => apply back_match; [not_at_end |]
  | |- comes_back _ (Parser.match_any _ _) _ _ => apply back_match_any; [not_at_end |]
  | |- comes_back _ (Parser.consume _ _ _) _ _ => apply back_consume; [not_at_end | arith]
  | |- comes_back _ (modify Nat.pred) _ _ => apply back_modify; cbn [Nat.pred]
  | |- comes_back _ _ _ _ =>
      eapply back_weaken; [call; arith | arith | intros ? ? ?]
  | |- _ => arith
  end.

Lemma back_try_catch {A} (base cur : nat) (m : Parser.P A) (h : string -> Parser.P A)
    (Q : A -> nat -> Prop) :
  comes_back cur m cur Q ->
  (forall what c, (cur <= c)%nat -> comes_back base (h what) c Q) ->
  comes_back base (try_catch m h) cur Q.
Proof.
  unfold comes_back, try_catch. intros Hm Hh.
  destruct (m cur) as [a c | what c |]; [exact Hm | | exact Hm].
  now apply Hh.
Qed.

Lemma parseInputStatement_back (cur : nat) :
  comes_back cur (Parser.parseInputStatement tokens_) cur (fun _ c => (cur <= c)%nat).
Proof.
  unfold Parser.parseInputStatement.
  repeat back_step ltac:(fail).
Qed.

Lemma parses_within_all (fuel : nat) : parses_within E tokens_ fuel.
Proof.
  induction fuel as [|fuel IH].
  { unfold parses_within. repeat split; intros; unfold need in *; lia. }
  destruct IH as (Istmt & Ilet & Iif & Ifor & Iwhile & Iprint & Iprints & Icall & Icalls
                  & Iexpr & Iexprs & Iterm & Iterms & Ifactor & Ifactors & Iprimary).
  unfold parses_within.
  repeat match goal with |- _ /\ _ => split end.
  - (* parseStatement *)
    intros cur Hneed. cbn [Parser.parseStatement]. fold_parser_goal.
    apply back_bind, back_isAtEnd; [intros He; apply back_ret; split; [lia | congruence] |].
    intros He. pose proof (at_end_false tokens_ _ He) as Hlt. cbv beta iota.
    apply back_try_catch.
    2: { intros what c Hc. apply back_bind, back_synchronize. intros c' H1 H2.
         apply back_ret. split; [lia |]. intros _.
         destruct (Nat.eq_dec c cur) as [-> | Hne]; [apply H2 in He; lia | lia]. }
    repeat back_step ltac:(first [apply parseInputStatement_back | apply Istmt | apply Ilet | apply Iif | apply Ifor | apply Iwhile | apply Iprint | apply Iprints | apply Icall | apply Icalls | apply Iexpr | apply Iexprs | apply Iterm | apply Iterms | apply Ifactor | apply Ifactors | apply Iprimary]).
  - (* parseLetStatement *)
    intros cur Hneed. cbn [Parser.parseLetStatement]. fold_parser_goal.
    repeat back_step ltac:(first [apply parseInputStatement_back | apply Istmt | apply Ilet | apply Iif | apply Ifor | apply Iwhile | apply Iprint | apply Iprints | apply Icall | apply Icalls | apply Iexpr | apply Iexprs | apply Iterm | apply Iterms | apply Ifactor | apply Ifactors | apply Iprimary]).
  - (* parseIfStatement *)
    intros cur Hneed. cbn [Parser.parseIfStatement]. fold_parser_goal.
    repeat back_step ltac:(first [apply parseInputStatement_back | apply Istmt | apply Ilet | apply Iif | apply Ifor | apply Iwhile | apply Iprint | apply Iprints | apply Icall | apply Icalls | apply Iexpr | apply Iexprs | apply Iterm | apply Iterms | apply Ifactor | apply Ifactors | apply Iprimary]).
  - (* parseForStatement *)
    intros cur Hneed. cbn [Parser.parseForStatement]. fold_parser_goal.
    repeat back_step ltac:(first [apply parseInputStatement_back | apply Istmt | apply Ilet | apply Iif | apply Ifor | apply Iwhile | apply Iprint | apply Iprints | apply Icall | apply Icalls | apply Iexpr | apply Iexprs | apply Iterm | apply Iterms | apply Ifactor | apply Ifactors | apply Iprimary]).
  - (* parseWhileStatement *)
    intros cur Hneed. cbn [Parser.parseWhileStatement]. fold_parser_goal.
    repeat back_step ltac:(first [apply parseInputStatement_back | apply Istmt | apply Ilet | apply Iif | apply Ifor | apply Iwhile | apply Iprint | apply Iprints | apply Icall | apply Icalls | apply Iexpr | apply Iexprs | apply Iterm | apply Iterms | apply Ifactor | apply Ifactors | apply Iprimary]).
  - (* parsePrintStatement *)
    intros cur Hneed. cbn [Parser.parsePrintStatement]. fold_parser_goal.
    repeat back_step ltac:(first [apply parseInputStatement_back | apply Istmt | apply Ilet | apply Iif | apply Ifor | apply Iwhile | apply Iprint | apply Iprints | apply Icall | apply Icalls | apply Iexpr | apply Iexprs | apply Iterm | apply Iterms | apply Ifactor | apply Ifactors | apply Iprimary]).
  - (* parsePrintStatement_loop *)
    intros cur Hneed. cbn [Parser.parsePrintStatement_loop]. fold_parser_goal.
    repeat back_step ltac:(first [apply parseInputStatement_back | apply Istmt | apply Ilet | apply Iif | apply Ifor | apply Iwhile | apply Iprint | apply Iprints | apply Icall | apply Icalls | apply Iexpr | apply Iexprs | apply Iterm | apply Iterms | apply Ifactor | apply Ifactors | apply Iprimary]).
  - (* parseFunctionCall *)
    intros cur Hneed. cbn [Parser.parseFunctionCall]. fold_parser_goal.
    repeat back_step ltac:(first [apply parseInputStatement_back | apply Istmt | apply Ilet | apply Iif | apply Ifor | apply Iwhile | apply Iprint | apply Iprints | apply Icall | apply Icalls | apply Iexpr | apply Iexprs | apply Iterm | apply Iterms | apply Ifactor | apply Ifactors | apply Iprimary]).
  - (* parseFunctionCall_loop *)
    intros cur Hneed. cbn [Parser.parseFunctionCall_loop]. fold_parser_goal.
    repeat back_step ltac:(first [apply parseInputStatement_back | apply Istmt | apply Ilet | apply Iif | apply Ifor | apply Iwhile | apply Iprint | apply Iprints | apply Icall | apply Icalls | apply Iexpr | apply Iexprs | apply Iterm | apply Iterms | apply Ifactor | apply Ifactors | apply Iprimary]).
  - (* parseExpression *)
    intros cur Hneed. cbn [Parser.parseExpression]. fold_parser_goal.
    repeat back_step ltac:(first [apply parseInputStatement_back | apply Istmt | apply Ilet | apply Iif | apply Ifor | apply Iwhile | apply Iprint | apply Iprints | apply Icall | apply Icalls | apply Iexpr | apply Iexprs | apply Iterm | apply Iterms | apply Ifactor | apply Ifactors | apply Iprimary]).
  - (* parseExpression_loop *)
    intros lhs cur Hneed. cbn [Parser.parseExpression_loop]. fold_parser_goal.
    repeat back_step ltac:(first [apply parseInputStatement_back | apply Istmt | apply Ilet | apply Iif | apply Ifor | apply Iwhile | apply Iprint | apply Iprints | apply Icall | apply Icalls | apply Iexpr | apply Iexprs | apply Iterm | apply Iterms | apply Ifactor | apply Ifactors | apply Iprimary]).
  - (* parseTerm *)
    intros cur Hneed. cbn [Parser.parseTerm]. fold_parser_goal.
    repeat back_step ltac:(first [apply parseInputStatement_back | apply Istmt | apply Ilet | apply Iif | apply Ifor | apply Iwhile | apply Iprint | apply Iprints | apply Icall | apply Icalls | apply Iexpr | apply Iexprs | apply Iterm | apply Iterms | apply Ifactor | apply Ifactors | apply Iprimary]).
  - (* parseTerm_loop *)
    intros lhs cur Hneed. cbn [Parser.parseTerm_loop]. fold_parser_goal.
    repeat back_step ltac:(first [apply parseInputStatement_back | apply Istmt | apply Ilet | apply Iif | apply Ifor | apply Iwhile | apply Iprint | apply Iprints | apply Icall | apply Icalls | apply Iexpr | apply Iexprs | apply Iterm | apply Iterms | apply Ifactor | apply Ifactors | apply Iprimary]).
  - (* parseFactor *)
    intros cur Hneed. cbn [Parser.parseFactor]. fold_parser_goal.
    repeat back_step ltac:(first [apply parseInputStatement_back | apply Istmt | apply Ilet | apply Iif | apply Ifor | apply Iwhile | apply Iprint | apply Iprints | apply Icall | apply Icalls | apply Iexpr | apply Iexprs | apply Iterm | apply Iterms | apply Ifactor | apply Ifactors | apply Iprimary]).
  - (* parseFactor_loop *)
    intros lhs cur Hneed. cbn [Parser.parseFactor_loop]. fold_parser_goal.
    repeat back_step ltac:(first [apply parseInputStatement_back | apply Istmt | apply Ilet | apply Iif | apply Ifor | apply Iwhile | apply Iprint | apply Iprints | apply Icall | apply Icalls | apply Iexpr | apply Iexprs | apply Iterm | apply Iterms | apply Ifactor | apply Ifactors | apply Iprimary]).
  - (* parsePrimary *)
    intros cur Hneed. cbn [Parser.parsePrimary]. fold_parser_goal.
    repeat back_step ltac:(first [apply parseInputStatement_back | apply Istmt | apply Ilet | apply Iif | apply Ifor | apply Iwhile | apply Iprint | apply Iprints | apply Icall | apply Icalls | apply Iexpr | apply Iexprs | apply Iterm | apply Iterms | apply Ifactor | apply Ifactors | apply Iprimary]).
Qed.

End ParserEnds.

Section ParserComesBack.

Variable E : Externals.
Variable tokens_ : list Token.

Lemma parseStatement_comes_back (cur : nat) :
  exists node c,
    Parser.parseStatement E tokens_ (ParserEntry.depth tokens_) cur = Ok node c
    /\ (cur <= c)%nat /\ (at_end tokens_ cur = false -> (cur < c)%nat).
Proof.
  destruct (parses_within_all E tokens_ (ParserEntry.depth tokens_)) as [H _].
  specialize (H cur). unfold comes_back, need, ParserEntry.depth in H.
  pose proof (parseStatement_no_throw E tokens_ (ParserEntry.depth tokens_) cur) as Hn.
  unfold ParserEntry.depth in *.
  destruct (Parser.parseStatement E tokens_ (8 * length tokens_ + 16) cur)
    as [node c | what c |].
  - exists node, c. split; [reflexivity |]. apply H. lia.
  - now destruct (Hn what c).
  - destruct H. lia.
Qed.

Lemma parseProgram_loop_comes_back (n cur : nat) :
  (length tokens_ - cur < n)%nat ->
  exists statements c,
    ParserEntry.parseProgram_loop E tokens_ n cur = Ok statements c
    /\ at_end tokens_ c = true.
Proof.
  revert cur. induction n as [|n IH]; intros cur Hn; [lia |].
  cbn [ParserEntry.parseProgram_loop]. unfold bind at 1, Parser.isAtEnd.
  fold (at_end tokens_ cur). destruct (at_end tokens_ cur) eqn:He.
  - exists [], cur. now split.
  - destruct (parseStatement_comes_back cur) as (node & c & Hs & _ & Hlt).
    specialize (Hlt He). pose proof (at_end_false tokens_ cur He).
    unfold bind at 1. rewrite Hs.
    destruct (IH c ltac:(lia)) as (more & c' & Hm & He').
    unfold bind, ret. rewrite Hm. eauto.
Qed.

Lemma parse_comes_back :
  exists statements c,
    ParserEntry.parse E tokens_ = Ok (ProgramNode statements) c
    /\ at_end tokens_ c = true.
Proof.
  unfold ParserEntry.parse.
  destruct (parseProgram_loop_comes_back (S (length tokens_)) 0 ltac:(lia))
    as (statements & c & H & He).
  unfold bind, ret. rewrite H. eauto.
Qed.

End ParserComesBack.

(** X9: [Parser::parse] and [Parser::parseLine] come back with a result for
    every token vector.  No exception leaves them: what a statement throws is
    caught in [parseStatement].  [parse] gives a program node and stops at
    the end of the tokens or at an [EOF] token; [parseLine] does not
    move back, and moves on when it starts at a token that is not [EOF]. *)
Theorem parser_comes_back (E : Externals) (tokens : list Token) :
  (exists statements cur,
      ParserEntry.parse E tokens = Ok (ProgramNode statements) cur
      /\ at_end tokens cur = true)
  /\ (exists node cur,
         ParserEntry.parseLine E tokens = Ok node cur
         /\ (at_end tokens 0 = false -> (0 < cur)%nat)).
Proof.
  split; [apply parse_comes_back |].
  destruct (parseStatement_comes_back E tokens 0) as (node & c & H & _ & Hlt).
  exists node, c. split; [exact H | exact Hlt].
Qed.

(** ** Assignments *)

Section Assignments.

Variable E : Externals.
Variable functions : gmap string string.
Variable dap_running : bool.

(** X10: [LET name = number] sets the variable [name].  The same statement
    without [LET] does not: its target is read after the [=] was passed, so
    that the variable set is the one named by the text of the number, and
    [name] is left as it was. *)
Theorem assignment_target (t_let t_name t_assign t_number t_end : Token) (fuel : nat)
    (st : RtState) :
  tok_type t_let = LET -> tok_type t_name = IDENTIFIER -> tok_type t_assign = ASSIGN ->
  tok_type t_number = NUMBER -> tok_type t_end = EOF_TOKEN ->
  let value := Parser.number_literal E (tok_value t_end) (tok_value t_number) in
  let with_let := LetStatementNode (tok_line t_name) (tok_value t_name) (LiteralNode value) in
  let without_let (line : Z) :=
    LetStatementNode line (tok_value t_number) (LiteralNode value) in
  ParserEntry.parseLine E [t_let; t_name; t_assign; t_number; t_end] = Ok (Some with_let) 4%nat
  /\ Runtime.execute E functions dap_running (S (S fuel)) (Some with_let) st
     = Ok value (assign (tok_value t_name) value st)
  /\ (exists line,
         ParserEntry.parseLine E [t_name; t_assign; t_number; t_end]
         = Ok (Some (without_let line)) 3%nat)
  /\ (forall line,
         Runtime.execute E functions dap_running (S (S fuel)) (Some (without_let line)) st
         = Ok value (assign (tok_value t_number) value st))
  /\ (tok_value t_name <> tok_value t_number ->
      Variables.get (tok_value t_name)
        (rt_variables (assign (tok_value t_number) value st))
      = Variables.get (tok_value t_name) (rt_variables st)).
Proof.
  destruct t_let as [ty1 v1 l1 c1], t_name as [ty2 v2 l2 c2], t_assign as [ty3 v3 l3 c3],
    t_number as [ty4 v4 l4 c4], t_end as [ty5 v5 l5 c5].
  cbn [tok_type tok_value tok_line]. intros -> -> -> -> ->.
  split; [reflexivity |].
  split; [reflexivity |].
  split; [eexists; reflexivity |].
  split; [intros line; reflexivity |].
  intros Hne. unfold assign, Variables.get, Variables.set. cbn [rt_variables].
  now rewrite lookup_insert_ne by congruence.
Qed.

End Assignments.

(** A witness of [assignment_target]: the tokens of [LET X = 5] and of
    [X = 5]. *)
Lemma assignment_target_witness :
  exists line,
    ParserEntry.parseLine no_externals
      [mkToken IDENTIFIER "X" 1 1; mkToken ASSIGN "=" 1 3; mkToken NUMBER "5" 1 5;
       mkToken EOF_TOKEN EmptyString 1 6]
    = Ok (Some (LetStatementNode line "5" (LiteralNode (VInt 5)))) 3%nat.
Proof.
  apply (assignment_target no_externals ∅ false
           (mkToken LET "LET" 1 1) (mkToken IDENTIFIER "X" 1 1) (mkToken ASSIGN "=" 1 3)
           (mkToken NUMBER "5" 1 5) (mkToken EOF_TOKEN EmptyString 1 6) 0
           (mkRtState ∅ [] []));
    reflexivity.
Defined.

(** ** Built-ins through [call] *)

Section BuiltinCalls.

Variable E : Externals.
Variable functions_ : gmap string string.
Variable variables : gmap string Value.

(** X11: [call] takes an [int] result of a built-in for "not a built-in".
    With no user function of the name, [LEN] of any value, [ABS] of an [int]
    and [VAL] of a text without a dot end in [Function ... not defined],
    whereas [ABS] of a [double] and [STR] return their results. *)
Theorem call_int_results_lost :
  functions_ !! "LEN" = None -> functions_ !! "ABS" = None -> functions_ !! "VAL" = None ->
  (forall v, Functions.call E functions_ "LEN" [v] variables
             = Raise "Function 'LEN' not defined")
  /\ (forall z, Functions.call E functions_ "ABS" [VInt z] variables
                = Raise "Function 'ABS' not defined")
  /\ (forall s, contains_char "." s = false ->
                Functions.call E functions_ "VAL" [VString s] variables
                = Raise "Function 'VAL' not defined")
  /\ (forall d, Functions.call E functions_ "ABS" [VDouble d] variables
                = Return (VDouble (PrimFloat.abs d)))
  /\ (forall v, Functions.call E functions_ "STR" [v] variables
                = Return (VString (stream_value E v))).
Proof.
  intros Hlen Habs Hval. unfold Functions.call.
  repeat split.
  - intros v. change (Functions.callBuiltin E "LEN" [v]) with (Functions.len [v]).
    destruct v; cbn [Functions.len index Nat.eqb negb]; now rewrite Hlen.
  - intros z. change (Functions.callBuiltin E "ABS" [VInt z]) with (Functions.abs [VInt z]).
    cbn [Functions.abs index Nat.eqb negb]. now rewrite Habs.
  - intros s Hs. change (Functions.callBuiltin E "VAL" [VString s]) with (Functions.val E [VString s]).
    unfold Functions.val. cbn [Functions.string_or_empty]. rewrite Hs.
    destruct (stoi s); cbn [index Nat.eqb negb]; now rewrite Hval.
Qed.

End BuiltinCalls.

(** A witness of [call_int_results_lost]: [LEN("abc")] with no user
    function. *)
Lemma call_int_results_lost_witness :
  Functions.call no_externals ∅ "LEN" [VString "abc"] ∅ = Raise "Function 'LEN' not defined".
Proof.
  apply (call_int_results_lost no_externals ∅ ∅); reflexivity.
Defined.

(** ** Loops that do not end *)

Section WhileLoops.

Variable E : Externals.
Variable functions : gmap string string.
Variable dap_running : bool.

#[local] Abbreviation execute := (Runtime.execute E functions dap_running).
#[local] Abbreviation while_loop := (Runtime.while_loop E functions dap_running).

Lemma while_loop_S (fuel : nat) (condition : ASTNode) (body : option ASTNode) :
  while_loop (S fuel) condition body
  = Runtime.while_turn (execute fuel) (while_loop fuel) condition body.
Proof. reflexivity. Qed.

(** X12: a [WHILE] statement whose condition is true whenever it returns never
    returns: a run of it ends only by an exception of the condition or of the
    body.  So does [WHILE] on a literal that is true. *)
Theorem while_never_returns (line : Z) (condition : ASTNode) (body : option ASTNode) :
  (forall fuel st c st',
      execute fuel (Some condition) st = Ok c st' -> RuntimeOps.isTruthy c = true) ->
  forall fuel st result st',
    execute fuel (Some (WhileStatementNode line condition body)) st <> Ok result st'.
Proof.
  intros Htrue.
  assert (Hloop : forall fuel st result st', while_loop fuel condition body st <> Ok result st').
  { induction fuel as [|fuel IH]; intros st result st'; [discriminate |].
    rewrite while_loop_S. unfold Runtime.while_turn, bind.
    destruct (execute fuel (Some condition) st) as [c s1 | |] eqn:Hc; try discriminate.
    rewrite (Htrue _ _ _ _ Hc).
    destruct (execute fuel body s1) as [v s2 | |]; try discriminate. apply IH. }
  intros [|fuel] st result st'; [discriminate |]. apply Hloop.
Qed.

End WhileLoops.

(** A witness of [while_never_returns]: [WHILE 1] with an empty body does
    not return within 100 steps. *)
Lemma while_never_returns_witness :
  Runtime.execute no_externals ∅ false 100
    (Some (WhileStatementNode 1 (LiteralNode (VInt 1)) None)) (mkRtState ∅ [] [])
  <> Ok Value_default (mkRtState ∅ [] []).
Proof.
  apply (while_never_returns no_externals ∅ false 1 (LiteralNode (VInt 1)) None).
  intros [|fuel] st c st' H; [discriminate |].
  injection H as <- _. reflexivity.
Defined.

(** ** The line read by [INPUT] *)

Lemma digits_value_prefix (d t : string) (a : Z) :
  all_digits d = true ->
  match t with String c _ => Char.isdigit c = false | EmptyString => True end ->
  digits_value a (d +:+ t) = digits_value a d.
Proof.
  revert a. induction d as [|x d IH]; intros a Hd Ht.
  - change (EmptyString +:+ t) with t. destruct t as [|c t]; [reflexivity |].
    simpl. now rewrite Ht.
  - simpl in Hd. apply andb_true_iff in Hd as [Hx Hd].
    rewrite append_cons. simpl. rewrite Hx. now apply IH.
Qed.

Lemma contains_char_append (c : ascii) (a b : string) :
  contains_char c (a +:+ b) = contains_char c a || contains_char c b.
Proof.
  induction a as [|x a IH]; [reflexivity |].
  rewrite append_cons. simpl. rewrite IH. apply orb_assoc.
Qed.

Section InputConversion.

Variable E : Externals.

(** X13: the line [INPUT] reads is stored as an [int] as soon as it starts
    with decimal digits of an [int] and holds no dot, whatever follows the
    digits; a line without a dot that starts with a character that is not a
    blank, a sign or a digit is stored as the string it is, and so is the
    empty line that the end of the input gives. *)
Theorem input_value_prefix :
  (forall d t : string,
      all_digits d = true -> d <> EmptyString -> digits_value 0 d <= INT_MAX ->
      match t with String c _ => Char.isdigit c = false | EmptyString => True end ->
      contains_char "." t = false ->
      Runtime.input_value E (d +:+ t) = VInt (digits_value 0 d))
  /\ (forall (c : ascii) (rest : string),
         Char.isspace c = false -> Char.isdigit c = false -> c <> "-"%char -> c <> "+"%char ->
         contains_char "." (String c rest) = false ->
         Runtime.input_value E (String c rest) = VString (String c rest))
  /\ Runtime.input_value E EmptyString = VString EmptyString.
Proof.
  split; [| split; [| reflexivity]].
  - intros d t Hd Hne Hmax Ht Hdot.
    unfold Runtime.input_value.
    assert (Hnodot : contains_char "." d = false).
    { clear Hne Hmax. induction d as [|x d IH]; [reflexivity |].
      simpl in Hd. apply andb_true_iff in Hd as [Hx Hd]. simpl.
      rewrite (IH Hd), orb_false_r.
      destruct (Ascii.eqb_spec x ".") as [-> | _]; [discriminate | reflexivity]. }
    rewrite contains_char_append, Hnodot, Hdot. cbn [orb].
    destruct d as [|x d]; [congruence |].
    pose proof Hd as Hall. simpl in Hd. apply andb_true_iff in Hd as [Hx Hd].
    unfold stoi. rewrite append_cons. cbn [skip_spaces].
    rewrite (isdigit_not_space x Hx). cbv iota.
    rewrite (isdigit_not x "-" Hx eq_refl), (isdigit_not x "+" Hx eq_refl). cbv iota beta.
    rewrite Hx. rewrite <- append_cons. rewrite (digits_value_prefix _ t 0 Hall Ht).
    pose proof (stoi_digits (String x d) Hall ltac:(discriminate)) as Hs.
    unfold stoi in Hs. cbn [skip_spaces] in Hs.
    rewrite (isdigit_not_space x Hx) in Hs. cbv iota in Hs.
    rewrite (isdigit_not x "-" Hx eq_refl), (isdigit_not x "+" Hx eq_refl) in Hs.
    cbv iota beta in Hs. rewrite Hx in Hs. rewrite Hs.
    now replace (digits_value 0 (String x d) <=? INT_MAX) with true
      by (symmetry; apply Z.leb_le; lia).
  - intros c rest Hspace Hdigit Hminus Hplus Hdot.
    unfold Runtime.input_value. rewrite Hdot.
    unfold stoi. cbn [skip_spaces]. rewrite Hspace.
    destruct (Ascii.eqb_spec c "-") as [-> | _]; [congruence |].
    destruct (Ascii.eqb_spec c "+") as [-> | _]; [congruence |].
    now rewrite Hdigit.
Qed.

End InputConversion.

(** A witness of [input_value_prefix]: the line [12abc]. *)
Lemma input_value_prefix_witness :
  Runtime.input_value no_externals ("12" +:+ "abc") = VInt (digits_value 0 "12").
Proof.
  apply (proj1 (input_value_prefix no_externals) "12" "abc"); try reflexivity.
  - discriminate.
  - vm_compute. discriminate.
Defined.

(** ** The lines of a program *)

Lemma append_assoc (a b c : string) : (a +:+ b) +:+ c = a +:+ (b +:+ c).
Proof. induction a as [|x a IH]; [reflexivity |]. now rewrite !append_cons, IH. Qed.

Lemma split_lines_from_line (current l rest : string) :
  contains_char Char.newline l = false ->
  split_lines_from current (l +:+ String Char.newline rest)
  = (current +:+ l) :: split_lines_from EmptyString rest.
Proof.
  revert current. induction l as [|c l IH]; intros current Hl.
  - change (EmptyString +:+ ?x) with x. cbn [split_lines_from]. rewrite Ascii.eqb_refl.
    now rewrite append_empty_r.
  - simpl in Hl. apply orb_false_iff in Hl as [Hc Hl].
    rewrite append_cons. cbn [split_lines_from]. rewrite Hc. rewrite (IH _ Hl).
    unfold string_of_char. now rewrite append_assoc.
Qed.

Lemma split_lines_from_last (current l : string) :
  contains_char Char.newline l = false ->
  split_lines_from current l
  = if String.eqb (current +:+ l) EmptyString then [] else [current +:+ l].
Proof.
  revert current. induction l as [|c l IH]; intros current Hl.
  - cbn [split_lines_from]. now rewrite append_empty_r.
  - simpl in Hl. apply orb_false_iff in Hl as [Hc Hl].
    cbn [split_lines_from]. rewrite Hc. rewrite (IH _ Hl).
    unfold string_of_char. now rewrite append_assoc.
Qed.

(** X14: [loadProgram] splits the text at the line ends: the text of lines
    that each end with a line end gives back those lines, a last line without
    its line end is a line too, and a line end at the end of the text adds no
    empty line. *)
Theorem split_lines_unlines (lines : list string) (last : string) :
  Forall (fun l => contains_char Char.newline l = false) lines ->
  contains_char Char.newline last = false ->
  split_lines (unlines lines) = lines
  /\ split_lines (unlines lines +:+ last)
     = (lines ++ if String.eqb last EmptyString then [] else [last])%list.
Proof.
  intros Hlines Hlast. unfold split_lines.
  induction Hlines as [|l lines Hl _ IH]; cbn [unlines].
  - split; [reflexivity |]. change (EmptyString +:+ last) with last.
    now rewrite (split_lines_from_last _ _ Hlast).
  - destruct IH as [IH1 IH2]. rewrite append_assoc, append_cons.
    rewrite !(split_lines_from_line _ _ _ Hl). change (EmptyString +:+ l) with l.
    now rewrite IH1, IH2.
Qed.

(** A witness of [split_lines_unlines]: two lines, and a third one without
    its line end. *)
Lemma split_lines_unlines_witness :
  split_lines (unlines ["10 LET A = 1"; "20 PRINT A"]) = ["10 LET A = 1"; "20 PRINT A"]
  /\ split_lines (unlines ["10 LET A = 1"; "20 PRINT A"] +:+ "30 END")
     = (["10 LET A = 1"; "20 PRINT A"] ++ if String.eqb "30 END" EmptyString then [] else ["30 END"])%list.
Proof.
  apply (split_lines_unlines ["10 LET A = 1"; "20 PRINT A"] "30 END"); [| reflexivity].
  repeat constructor.
Defined.

Section LoadProgram.

Variable E : Externals.

(** X15: [loadProgram] never throws.  It sets the text, its lines and the
    cursor 0, and keeps the variables, the functions and the breakpoints.  It
    returns [false], with the lexer's message as the last error, exactly when
    the lexer refuses the text; a text that the lexer accepts is loaded with
    [true] and no error, whatever the parser makes of it. *)
Theorem loadProgram_lexical (source : string) (s : BasicInterpreter.Session) :
  let result (b : bool) (error : string) : Outcome BasicInterpreter.Session bool :=
    Ok b (BasicInterpreter.mkSession (loaded source error (BasicInterpreter.interp s))
            (BasicInterpreter.cin s) (BasicInterpreter.written s)) in
  BasicInterpreter.loadProgram E source s
  = match Lexer.tokenize source with
    | Raise what => result false what
    | Return _ => result true EmptyString
    end.
Proof.
  cbv zeta. unfold BasicInterpreter.loadProgram.
  destruct (Lexer.tokenize source) as [tokens | what]; [| reflexivity].
  destruct (parse_comes_back E tokens) as (statements & cur & H & _).
  now rewrite H.
Qed.

End LoadProgram.

(** ** Running a line *)

Lemma same_program_refl (i : BasicInterpreter.t) : same_program i i.
Proof. now repeat split. Qed.

Lemma same_program_trans (i1 i2 i3 : BasicInterpreter.t) :
  same_program i1 i2 -> same_program i2 i3 -> same_program i1 i3.
Proof.
  intros (A1 & A2 & A3 & A4 & A5 & A6 & A7 & A8) (B1 & B2 & B3 & B4 & B5 & B6 & B7 & B8).
  repeat split; congruence.
Qed.

Section ExecuteLine.

Variable E : Externals.
Variable dap_running : bool.
Variable fuel : nat.

#[local] Abbreviation executeLine := (BasicInterpreter.executeLine E dap_running fuel).
#[local] Abbreviation executeLine_body := (BasicInterpreter.executeLine_body E dap_running fuel).

Lemma run_runtime_same {A} (m : Runtime.R A) (s : BasicInterpreter.Session) :
  match BasicInterpreter.run_runtime m s with
  | Ok _ s' | Throw _ s' =>
      same_program (BasicInterpreter.interp s) (BasicInterpreter.interp s')
      /\ BasicInterpreter.lastError_ (BasicInterpreter.interp s')
         = BasicInterpreter.lastError_ (BasicInterpreter.interp s)
  | OutOfFuel => True
  end.
Proof.
  unfold BasicInterpreter.run_runtime.
  destruct (m _) as [a r | what r |]; [| | exact I]; now repeat split.
Qed.

(** The [try] block of [executeLine]: it returns [false] only after it has
    set [Failed to parse line], and touches the error in no other case. *)
Lemma executeLine_body_same (line : string) (s : BasicInterpreter.Session) :
  match executeLine_body line s with
  | Ok b s' =>
      same_program (BasicInterpreter.interp s) (BasicInterpreter.interp s')
      /\ BasicInterpreter.lastError_ (BasicInterpreter.interp s')
         = (if b then BasicInterpreter.lastError_ (BasicInterpreter.interp s)
            else "Failed to parse line: " +:+ line)
  | Throw _ s' => same_program (BasicInterpreter.interp s) (BasicInterpreter.interp s')
  | OutOfFuel => True
  end.
Proof.
  unfold BasicInterpreter.executeLine_body.
  destruct (match match_line_number line with Some c => c | None => line end) as [|c code];
    [split; [apply same_program_refl | reflexivity] |].
  destruct (Ascii.eqb c "'"); [split; [apply same_program_refl | reflexivity] |].
  unfold bind at 1.
  destruct (Lexer.tokenize (String c code)) as [tokens | what]; cbn [lift_except];
    [| apply same_program_refl].
  unfold ret at 1.
  destruct tokens as [|t tokens]; [split; [apply same_program_refl | reflexivity] |].
  destruct (ParserEntry.parseLine E (t :: tokens)) as [[ast |] cur | what cur |];
    [| | apply same_program_refl | exact I].
  - unfold bind, get_state.
    pose proof (run_runtime_same
                  (Runtime.execute E (BasicInterpreter.functions_ (BasicInterpreter.interp s))
                     dap_running fuel (Some ast)) s) as H.
    destruct (BasicInterpreter.run_runtime _ s) as [v s' | what s' |]; [| | exact I].
    + exact H.
    + exact (proj1 H).
  - now repeat split.
Qed.

(** [executeLine] lets no exception out, and keeps the program. *)
Lemma executeLine_same (line : string) (s : BasicInterpreter.Session) :
  match executeLine line s with
  | Ok _ s' => same_program (BasicInterpreter.interp s) (BasicInterpreter.interp s')
  | Throw _ _ => False
  | OutOfFuel => True
  end.
Proof.
  unfold BasicInterpreter.executeLine.
  destruct (String.eqb line EmptyString); [apply same_program_refl |].
  unfold try_catch. pose proof (executeLine_body_same line s) as H.
  destruct (executeLine_body line s) as [b s' | what s' |]; [| | exact I].
  - exact (proj1 H).
  - cbn. destruct H as (A1 & A2 & A3 & A4 & A5 & A6 & A7 & A8). now repeat split.
Qed.

(** X16: [executeLine] never throws.  It leaves the program, the cursor, the
    breakpoints and the functions as they are; when it returns [true] the
    last error is untouched (an earlier error is not cleared), and when it
    returns [false] the last error is [Failed to parse line: ] with the line,
    or [Error executing line: ] with the text of the exception. *)
Theorem executeLine_errors (line : string) (s : BasicInterpreter.Session) :
  match executeLine line s with
  | Ok b s' =>
      same_program (BasicInterpreter.interp s) (BasicInterpreter.interp s')
      /\ (b = true ->
          BasicInterpreter.lastError_ (BasicInterpreter.interp s')
          = BasicInterpreter.lastError_ (BasicInterpreter.interp s))
      /\ (b = false ->
          BasicInterpreter.lastError_ (BasicInterpreter.interp s')
            = "Failed to parse line: " +:+ line
          \/ exists what,
               BasicInterpreter.lastError_ (BasicInterpreter.interp s')
               = "Error executing line: " +:+ what)
  | Throw _ _ => False
  | OutOfFuel => True
  end.
Proof.
  unfold BasicInterpreter.executeLine.
  destruct (String.eqb line EmptyString).
  { split; [apply same_program_refl |]. split; [reflexivity | discriminate]. }
  unfold try_catch. pose proof (executeLine_body_same line s) as H.
  destruct (executeLine_body line s) as [b s' | what s' |]; [| | exact I].
  - destruct H as [H1 H2]. split; [exact H1 |].
    split; intros ->; [exact H2 | now left].
  - cbn. split; [| split; [discriminate | intros _; right; now exists what]].
    destruct H as (A1 & A2 & A3 & A4 & A5 & A6 & A7 & A8). now repeat split.
Qed.

End ExecuteLine.

Lemma span_while_append (p : ascii -> bool) (a b : string) :
  all_chars p a = true ->
  match b with String c _ => p c = false | EmptyString => True end ->
  span_while p (a +:+ b) = (a, b).
Proof.
  intros Ha Hb. induction a as [|x a IH].
  - change (EmptyString +:+ b) with b. destruct b as [|c b]; [reflexivity |].
    simpl. now rewrite Hb.
  - simpl in Ha. apply andb_true_iff in Ha as [Hx Ha].
    rewrite append_cons. simpl. now rewrite Hx, (IH Ha).
Qed.

Lemma all_digits_chars (d : string) : all_digits d = all_chars Char.isdigit d.
Proof. induction d as [|c d IH]; [reflexivity |]. simpl. now rewrite IH. Qed.

Lemma match_line_number_numbered (d blanks code : string) :
  all_digits d = true -> d <> EmptyString -> all_chars Char.isspace blanks = true ->
  all_chars (fun c => negb (is_line_terminator c)) code = true ->
  match code with String c _ => Char.isspace c = false | EmptyString => True end ->
  match blanks +:+ code with String c _ => Char.isdigit c = false | EmptyString => True end ->
  match_line_number (d +:+ (blanks +:+ code)) = Some code.
Proof.
  intros Hd Hne Hb Hc Hcode Hnext. unfold match_line_number.
  destruct d as [|x d]; [congruence |].
  pose proof Hd as Hall. simpl in Hd. apply andb_true_iff in Hd as [Hx _].
  rewrite append_cons. cbn [span_while]. rewrite (isdigit_not_space x Hx).
  rewrite <- append_cons.
  rewrite all_digits_chars in Hall.
  rewrite (span_while_append Char.isdigit (String x d) (blanks +:+ code) Hall Hnext).
  destruct (String.eqb_spec (String x d) EmptyString) as [? | _]; [discriminate |].
  rewrite (span_while_append Char.isspace _ _ Hb Hcode).
  rewrite <- (append_empty_r code) at 1.
  now rewrite (span_while_append _ _ EmptyString Hc I).
Qed.

Section SkippedLines.

Variable E : Externals.
Variable dap_running : bool.
Variable fuel : nat.

(** X17: [executeLine] returns [true] and changes nothing on the empty line,
    on a line that starts with an apostrophe, on a line that is a line number
    alone, and on a line number followed by a comment. *)
Theorem executeLine_skips (s : BasicInterpreter.Session) :
  BasicInterpreter.executeLine E dap_running fuel EmptyString s = Ok true s
  /\ (forall rest,
         BasicInterpreter.executeLine E dap_running fuel (String "'" rest) s = Ok true s)
  /\ (forall d blanks comment,
         all_digits d = true -> d <> EmptyString -> all_chars Char.isspace blanks = true ->
         all_chars (fun c => negb (is_line_terminator c)) comment = true ->
         BasicInterpreter.executeLine E dap_running fuel (d +:+ blanks) s = Ok true s
         /\ BasicInterpreter.executeLine E dap_running fuel
              (d +:+ (blanks +:+ String "'" comment)) s = Ok true s).
Proof.
  split; [reflexivity |]. split; [reflexivity |].
  intros d blanks comment Hd Hne Hb Hc.
  assert (Hnot : forall r, match blanks +:+ r with
                           | String c _ => Char.isdigit c = false \/ r = blanks +:+ r
                           | EmptyString => True
                           end).
  { intros r. destruct blanks as [|b blanks]; [change (EmptyString +:+ r) with r |].
    - destruct r; [exact I | now right].
    - rewrite append_cons. left. simpl in Hb. apply andb_true_iff in Hb as [Hb _].
      destruct (Char.isdigit b) eqn:Hdb; [| reflexivity].
      now rewrite (isdigit_not_space b Hdb) in Hb. }
  assert (Hlines : forall line, line <> EmptyString ->
             (match match_line_number line with Some c => c | None => line end = EmptyString
              \/ exists r, match match_line_number line with Some c => c | None => line end
                           = String "'" r) ->
             BasicInterpreter.executeLine E dap_running fuel line s = Ok true s).
  { intros line Hline Hcode. unfold BasicInterpreter.executeLine.
    destruct (String.eqb_spec line EmptyString) as [? | _]; [congruence |].
    unfold try_catch, BasicInterpreter.executeLine_body.
    destruct Hcode as [-> | [r ->]]; reflexivity. }
  split.
  - apply Hlines; [destruct d; [congruence | discriminate] |]. left.
    rewrite <- (append_empty_r blanks).
    rewrite (match_line_number_numbered d blanks EmptyString Hd Hne Hb eq_refl I); [reflexivity |].
    specialize (Hnot EmptyString). destruct (blanks +:+ EmptyString); [exact I |].
    destruct Hnot as [H | H]; [exact H | discriminate].
  - apply Hlines; [destruct d; [congruence | discriminate] |]. right. exists comment.
    rewrite (match_line_number_numbered d blanks (String "'" comment) Hd Hne Hb);
      [reflexivity | exact Hc | reflexivity |].
    specialize (Hnot (String "'" comment)). destruct (blanks +:+ String "'" comment); [exact I |].
    destruct Hnot as [H | H]; [exact H | injection H as <- _; reflexivity].
Qed.

End SkippedLines.

(** A witness of [executeLine_skips]: the line [10 ' a remark]. *)
Lemma executeLine_skips_witness :
  BasicInterpreter.executeLine no_externals false 0 ("10" +:+ " ") fresh_session
    = Ok true fresh_session
  /\ BasicInterpreter.executeLine no_externals false 0 ("10" +:+ (" " +:+ String "'" " a remark"))
       fresh_session
     = Ok true fresh_session.
Proof.
  apply (proj2 (proj2 (executeLine_skips no_externals false 0 fresh_session)) "10" " " " a remark");
    try reflexivity.
  discriminate.
Defined.

(** ** Stepping *)

(** The conversion of the cursor, an [int], to [size_t], on a program of
    fewer than [2^63] lines: the converted cursor is before the end exactly
    when the cursor is a line of the program. *)
Lemma cursor_position (cursor : Z) (lines : nat) :
  INT_MIN <= cursor <= INT_MAX -> Z.of_nat lines < 2 ^ 63 ->
  (Functions.wrap_size cursor <? Z.of_nat lines)
  = (0 <=? cursor) && (cursor <? Z.of_nat lines)
  /\ (0 <= cursor -> Functions.wrap_size cursor = cursor).
Proof.
  unfold INT_MIN, INT_MAX. intros Hc Hl. destruct (Z.leb_spec 0 cursor) as [Hpos | Hneg].
  - rewrite wrap_size_small by lia. cbn [andb]. split; [reflexivity | reflexivity].
  - rewrite wrap_size_negative by lia. cbn [andb]. split; [| lia].
    apply Z.ltb_ge. lia.
Qed.

Section Stepping.

Variable E : Externals.
Variable dap_running : bool.
Variable fuel : nat.

#[local] Abbreviation step := (BasicInterpreter.step E dap_running fuel).

(** What [step] does to the cursor; it lets no exception out. *)
Lemma step_cursor (s : BasicInterpreter.Session) :
  match step s with
  | Ok _ s' =>
      let i := BasicInterpreter.interp s in
      let i' := BasicInterpreter.interp s' in
      BasicInterpreter.currentLine_ i'
      = BasicInterpreter.currentLine_ i
        + (if BasicInterpreter.paused_ i
              && (Functions.wrap_size (BasicInterpreter.currentLine_ i)
                  <? Z.of_nat (length (BasicInterpreter.lines_ i)))
           then 1 else 0)
      /\ BasicInterpreter.paused_ i' = BasicInterpreter.paused_ i
      /\ BasicInterpreter.source_ i' = BasicInterpreter.source_ i
      /\ BasicInterpreter.lines_ i' = BasicInterpreter.lines_ i
      /\ BasicInterpreter.breakpoints_ i' = BasicInterpreter.breakpoints_ i
      /\ BasicInterpreter.functions_ i' = BasicInterpreter.functions_ i
  | Throw _ _ => False
  | OutOfFuel => True
  end.
Proof.
  destruct s as [i cin written]. cbn [BasicInterpreter.interp]. cbv zeta.
  unfold BasicInterpreter.step, bind, get_state. cbn [BasicInterpreter.interp].
  destruct (BasicInterpreter.paused_ i) eqn:Hp; [| cbn; rewrite Hp; repeat split; lia].
  cbn [andb].
  destruct (Functions.wrap_size (BasicInterpreter.currentLine_ i)
            <? Z.of_nat (length (BasicInterpreter.lines_ i)));
    [| cbn; repeat split; lia].
  unfold BasicInterpreter.on_interp at 1, modify at 1. cbn [BasicInterpreter.interp
    BasicInterpreter.cin BasicInterpreter.written].
  match goal with
  | |- context [BasicInterpreter.executeLine E dap_running fuel ?l ?s1] =>
      pose proof (executeLine_same E dap_running fuel l s1) as H;
      destruct (BasicInterpreter.executeLine E dap_running fuel l s1) as [b s2 | what s2 |]
  end; [| destruct H | exact I].
  destruct H as (A1 & A2 & A3 & A4 & A5 & A6 & A7 & A8).
  cbn in A1, A2, A3, A6, A8 |- *. rewrite A3. auto 10.
Qed.

(** X18: [step] does nothing unless the interpreter is paused, and nothing when
    the cursor is at or past the end of the program, or negative.  On a line
    of the program it runs the line and moves the cursor to the next one,
    paused again, also when the line has failed: it never throws, and the
    program, the breakpoints and the functions stay as they are. *)
Theorem step_advances (s : BasicInterpreter.Session) :
  let i := BasicInterpreter.interp s in
  let lines := Z.of_nat (length (BasicInterpreter.lines_ i)) in
  (BasicInterpreter.paused_ i = false -> step s = Ok tt s)
  /\ (BasicInterpreter.paused_ i = true ->
      lines <= BasicInterpreter.currentLine_ i <= INT_MAX ->
      step s = Ok tt s)
  /\ (BasicInterpreter.paused_ i = true ->
      INT_MIN <= BasicInterpreter.currentLine_ i < 0 -> lines < 2 ^ 63 ->
      step s = Ok tt s)
  /\ (BasicInterpreter.paused_ i = true ->
      0 <= BasicInterpreter.currentLine_ i < lines ->
      BasicInterpreter.currentLine_ i < INT_MAX ->
      match step s with
      | Ok _ s' =>
          let i' := BasicInterpreter.interp s' in
          BasicInterpreter.currentLine_ i' = BasicInterpreter.currentLine_ i + 1
          /\ BasicInterpreter.paused_ i' = true
          /\ BasicInterpreter.source_ i' = BasicInterpreter.source_ i
          /\ BasicInterpreter.lines_ i' = BasicInterpreter.lines_ i
          /\ BasicInterpreter.breakpoints_ i' = BasicInterpreter.breakpoints_ i
          /\ BasicInterpreter.functions_ i' = BasicInterpreter.functions_ i
      | Throw _ _ => False
      | OutOfFuel => True
      end).
Proof.
  cbv zeta.
  assert (Hnone : BasicInterpreter.paused_ (BasicInterpreter.interp s) = true ->
                  (Functions.wrap_size (BasicInterpreter.currentLine_ (BasicInterpreter.interp s))
                   <? Z.of_nat (length (BasicInterpreter.lines_ (BasicInterpreter.interp s))))
                  = false ->
                  step s = Ok tt s).
  { destruct s as [i cin written]. cbn [BasicInterpreter.interp].
    unfold BasicInterpreter.step, bind, get_state. cbn [BasicInterpreter.interp].
    intros Hp Hend. rewrite Hp, Hend. destruct i. cbn in Hp. subst. reflexivity. }
  split; [| split; [| split]].
  - destruct s as [i cin written]. cbn [BasicInterpreter.interp].
    unfold BasicInterpreter.step, bind, get_state. cbn [BasicInterpreter.interp].
    intros ->. reflexivity.
  - unfold INT_MAX. intros Hp Hend. apply (Hnone Hp).
    rewrite wrap_size_small by lia. apply Z.ltb_ge. lia.
  - unfold INT_MIN. intros Hp Hneg Hlines. apply (Hnone Hp).
    rewrite wrap_size_negative by lia. apply Z.ltb_ge. lia.
  - unfold INT_MAX. intros Hp Hin Hmax. pose proof (step_cursor s) as H.
    destruct (step s) as [[] s' | what s' |]; [| exact H | exact I].
    cbv zeta in H. rewrite Hp in H. rewrite wrap_size_small in H by lia.
    replace (BasicInterpreter.currentLine_ (BasicInterpreter.interp s)
             <? Z.of_nat (length (BasicInterpreter.lines_ (BasicInterpreter.interp s))))
      with true in H by (symmetry; apply Z.ltb_lt; lia).
    exact H.
Qed.

End Stepping.

(** A witness of [step_advances]: the step on a line that fails moves the
    cursor as well. *)
Lemma step_advances_witness :
  match BasicInterpreter.step no_externals false 8 refused_line_session with
  | Ok _ s' =>
      BasicInterpreter.currentLine_ (BasicInterpreter.interp s') = 0 + 1
      /\ BasicInterpreter.paused_ (BasicInterpreter.interp s') = true
      /\ BasicInterpreter.source_ (BasicInterpreter.interp s') = "@"
      /\ BasicInterpreter.lines_ (BasicInterpreter.interp s') = ["@"]
      /\ BasicInterpreter.breakpoints_ (BasicInterpreter.interp s') = ∅
      /\ BasicInterpreter.functions_ (BasicInterpreter.interp s') = ∅
  | Throw _ _ => False
  | OutOfFuel => True
  end.
Proof.
  apply (proj2 (proj2 (proj2 (step_advances no_externals false 8 refused_line_session))));
    [reflexivity | vm_compute; split; [discriminate | reflexivity] | vm_compute; reflexivity].
Defined.

(** ** Breakpoints of the server *)

Section ServerBreakpoints.

Import DAPServer.

Variable w : World.
Variable source : string.
Variable line : Z.

(** X19: after [setBreakpoint(source, line)] the server has that breakpoint,
    stored under the id that was next, and has the other breakpoints as
    before; [shouldPauseAt(line)] is then true, whatever the source that is
    running.  [removeBreakpoint] takes the line out of the set of the source
    and leaves the entry of [breakpointMap_] in place. *)
Theorem setBreakpoint_hasBreakpoint :
  let w1 := world_after (setBreakpoint source line) w in
  let w2 := world_after (removeBreakpoint source line) w1 in
  hasBreakpoint source line (server w1) = true
  /\ (forall source' line',
         (source', line') <> (source, line) ->
         hasBreakpoint source' line' (server w1) = hasBreakpoint source' line' (server w))
  /\ breakpointMap_ (server w1) !! nextBreakpointId_ (server w)
     = Some (mkBreakpoint (nextBreakpointId_ (server w)) true EmptyString line 0 source)
  /\ shouldPauseAt line (server w1) = true
  /\ hasBreakpoint source line (server w2) = false
  /\ (forall source' line',
         (source', line') <> (source, line) ->
         hasBreakpoint source' line' (server w2) = hasBreakpoint source' line' (server w))
  /\ breakpointMap_ (server w2) = breakpointMap_ (server w1).
Proof.
  cbv zeta.
  assert (Hset : forall source' line',
             hasBreakpoint source' line' (server (world_after (setBreakpoint source line) w))
             = (String.eqb source' source && (line' =? line))
               || hasBreakpoint source' line' (server w)).
  { intros source' line'. unfold hasBreakpoint. cbn.
    destruct (String.eqb_spec source' source) as [-> | Hs].
    - rewrite lookup_insert_eq. cbn [andb].
      destruct (breakpoints_ (server w) !! source) as [lines |];
        destruct (Z.eqb_spec line' line) as [-> | Hl]; cbn [orb].
      + apply bool_decide_eq_true_2. set_solver.
      + apply bool_decide_ext. set_solver.
      + apply bool_decide_eq_true_2. set_solver.
      + apply bool_decide_eq_false_2. set_solver.
    - now rewrite lookup_insert_ne by congruence. }
  assert (Hrem : forall w1 source' line',
             hasBreakpoint source' line' (server (world_after (removeBreakpoint source line) w1))
             = negb (String.eqb source' source && (line' =? line))
               && hasBreakpoint source' line' (server w1)).
  { intros w1 source' line'. unfold hasBreakpoint. cbn.
    destruct (breakpoints_ (server w1) !! source) as [lines |] eqn:Hlines; cbn.
    - destruct (String.eqb_spec source' source) as [-> | Hs].
      + rewrite lookup_insert_eq, Hlines. cbn [andb].
        destruct (Z.eqb_spec line' line) as [-> | Hl]; cbn [negb andb].
        * apply bool_decide_eq_false_2. set_solver.
        * apply bool_decide_ext. set_solver.
      + now rewrite lookup_insert_ne by congruence.
    - destruct (String.eqb_spec source' source) as [-> | Hs]; [| reflexivity].
      rewrite Hlines. now rewrite andb_false_r. }
  assert (Hother : forall source' line',
             (source', line') <> (source, line) ->
             String.eqb source' source && (line' =? line) = false).
  { intros source' line' Hne.
    destruct (String.eqb_spec source' source) as [-> | _]; [| reflexivity].
    destruct (Z.eqb_spec line' line) as [-> | _]; [congruence | reflexivity]. }
  split; [rewrite Hset; now rewrite String.eqb_refl, Z.eqb_refl |].
  split; [intros source' line' Hne; now rewrite Hset, (Hother _ _ Hne) |].
  split; [cbn; now rewrite lookup_insert_eq |].
  split.
  { unfold shouldPauseAt. apply orb_true_iff. right. apply bool_decide_eq_true_2.
    apply Exists_exists. eexists (source, _). split.
    - apply elem_of_map_to_list. cbn. apply lookup_insert_eq.
    - cbn. set_solver. }
  split; [rewrite Hrem; now rewrite String.eqb_refl, Z.eqb_refl |].
  split; [intros source' line' Hne; now rewrite Hrem, Hset, (Hother _ _ Hne) |].
  cbn. now rewrite lookup_insert_eq.
Qed.

End ServerBreakpoints.

(** ** Where the server writes *)

Section Channels.

Import DAPServer.

Variable w : World.


End Channels.


(** ** Errors of an evaluation *)

Section Evaluate.

Import DAPServer.

Variable E : Externals.
Variable fuel : nat.
Variable cleanup : BasicInterpreter.t -> BasicInterpreter.t.





End Evaluate.


(** ** Messages written and read back *)

Section MessageRoundTrip.

Import DAPServer.

(** X22: the document [sendMessage] builds for an event is read back by
    [receiveMessage] as an event with the same name and body.  The document
    of a response is read back with its command, id, body and error when the
    command is not empty; with an empty command, as [createResponse] and
    [createErrorResponse] leave it, the document has no [command] member and
    reading it fails. *)
Theorem sendMessage_decode (message : DAPMessage) :
  (msg_type message = EVENT ->
   decode (message_document message)
   = Return (mkDAPMessage EVENT EmptyString JNull JNull JNull JNull
               (msg_event message) (msg_body message)))
  /\ (msg_type message = RESPONSE -> msg_command message <> EmptyString ->
      decode (message_document message)
      = Return (mkDAPMessage RESPONSE (msg_command message) JNull (msg_id message)
                  (msg_result message) (msg_error message) EmptyString JNull))
  /\ (msg_type message = RESPONSE -> msg_command message = EmptyString ->
      Json.contains (message_document message) "command" = false
      /\ exists what, decode (message_document message) = Raise what)
  /\ (forall id result,
        exists what, decode (message_document (createResponse id result)) = Raise what)
  /\ (forall id code text,
        exists what,
          decode (message_document (createErrorResponse id code text)) = Raise what).
Proof.
  assert (Hempty : msg_type message = RESPONSE -> msg_command message = EmptyString ->
                   Json.contains (message_document message) "command" = false
                   /\ exists what, decode (message_document message) = Raise what).
  { destruct message as [type command arguments id result error event body].
    cbn [msg_type msg_command]. intros -> ->.
    unfold message_document.
    cbn [msg_type msg_command msg_result msg_error msg_id String.eqb negb].
    destruct result, error; cbn; (split; [reflexivity | eexists; reflexivity]). }
  split; [| split; [| split; [exact Hempty | split]]].
  - destruct message as [type command arguments id result error event body].
    cbn [msg_type msg_event msg_body]. intros ->.
    unfold message_document. cbn [msg_type msg_event msg_body].
    destruct body; reflexivity.
  - destruct message as [type command arguments id result error event body].
    cbn [msg_type msg_command msg_id msg_result msg_error]. intros -> Hc.
    unfold message_document.
    cbn [msg_type msg_command msg_result msg_error msg_id].
    destruct (String.eqb command EmptyString) eqn:He; [apply String.eqb_eq in He; congruence |].
    cbn [negb]. destruct result, error; reflexivity.
  - intros id result. destruct result; eexists; reflexivity.
  - intros id code text. eexists. reflexivity.
Qed.

End MessageRoundTrip.

(** ** Requests for breakpoints *)

Section SetBreakpoints.

Import DAPServer.

Variable path : string.

Lemma hasBreakpoint_setBreakpoint (w : World) (line : Z) (source' : string) (line' : Z) :
  hasBreakpoint source' line' (server (world_after (setBreakpoint path line) w))
  = (String.eqb source' path && (line' =? line)) || hasBreakpoint source' line' (server w).
Proof.
  unfold hasBreakpoint. cbn.
  destruct (String.eqb_spec source' path) as [-> | Hs].
  - rewrite lookup_insert_eq. cbn [andb].
    destruct (breakpoints_ (server w) !! path) as [lines |];
      destruct (Z.eqb_spec line' line) as [-> | Hl]; cbn [orb].
    + apply bool_decide_eq_true_2. set_solver.
    + apply bool_decide_ext. set_solver.
    + apply bool_decide_eq_true_2. set_solver.
    + apply bool_decide_eq_false_2. set_solver.
  - now rewrite lookup_insert_ne by congruence.
Qed.

Lemma setBreakpoints_loop_cons (line : Z) (rest : list json) (acc : list json) (w : World) :
  setBreakpoints_loop path (line_object line :: rest) (JArray acc) w
  = setBreakpoints_loop path rest
      (JArray (acc ++ [JObject [("id", JNumber (wrap32 (nextBreakpointId_ (server w) + 1)));
                                ("verified", JBool true); ("line", JNumber (wrap32 line))]]))
      (world_after (breakpoint_turn path (wrap32 line)) w).
Proof. reflexivity. Qed.

Lemma setBreakpoints_loop_reported (lines : list Z) :
  forall (acc : list json) (w : World),
    Forall (fun line => INT_MIN <= line <= INT_MAX) lines ->
    0 <= nextBreakpointId_ (server w) ->
    nextBreakpointId_ (server w) + 2 * Z.of_nat (length lines) <= INT_MAX ->
    exists w',
      setBreakpoints_loop path (map line_object lines) (JArray acc) w
      = Ok (JArray (acc ++ reported (nextBreakpointId_ (server w)) lines)) w'
      /\ looped path lines w w'.
Proof.
  induction lines as [|line rest IH]; intros acc w Hlines Hid Hmax.
  - exists w. cbn [map setBreakpoints_loop reported]. rewrite app_nil_r.
    split; [reflexivity |]. unfold looped. cbn [length].
    split; [lia |]. split.
    { intros source' line'. rewrite bool_decide_eq_false_2 by set_solver.
      now rewrite andb_false_r. }
    split; [intros i l Hl; now rewrite lookup_nil in Hl |].
    now repeat split.
  - apply Forall_cons in Hlines as [Hline Hrest]. unfold INT_MIN, INT_MAX in *.
    cbn [map length] in *. rewrite setBreakpoints_loop_cons.
    rewrite (wrap32_small line) by lia.
    rewrite (wrap32_small (nextBreakpointId_ (server w) + 1)) by lia.
    set (w1 := world_after (breakpoint_turn path line) w).
    assert (Hnext : nextBreakpointId_ (server w1) = nextBreakpointId_ (server w) + 2).
    { subst w1. cbn. rewrite (wrap32_small (nextBreakpointId_ (server w) + 1)) by lia.
      rewrite wrap32_small by lia. lia. }
    destruct (IH (acc ++ [JObject [("id", JNumber (nextBreakpointId_ (server w) + 1));
                                   ("verified", JBool true); ("line", JNumber line)]])%list w1
                Hrest ltac:(lia) ltac:(lia))
      as (w' & Hrun & Hid' & Hhas & Hstored & Hothers & Hout & Hint).
    exists w'. split.
    { rewrite Hrun, Hnext. cbn [reported]. now rewrite <- app_assoc. }
    unfold looped. cbn [length]. rewrite Hnext in *.
    split; [lia |]. split.
    { intros source' line'. rewrite Hhas.
      change (server w1) with
        (set_nextBreakpointId_
           (wrap32 (nextBreakpointId_ (server (world_after (setBreakpoint path line) w)) + 1))
           (server (world_after (setBreakpoint path line) w))).
      change (hasBreakpoint source' line' (set_nextBreakpointId_ ?x ?s))
        with (hasBreakpoint source' line' s).
      rewrite hasBreakpoint_setBreakpoint.
      destruct (String.eqb source' path); cbn [andb orb]; [| reflexivity].
      destruct (Z.eqb_spec line' line) as [-> | Hne].
      - rewrite orb_true_r. symmetry.
        rewrite (bool_decide_eq_true_2 (line ∈ line :: rest)) by set_solver. reflexivity.
      - cbn [orb]. f_equal. apply bool_decide_ext. set_solver. }
    split.
    { intros [|i] l Hl.
      - cbn in Hl. injection Hl as <-. rewrite Hothers by (intros i _; lia).
        subst w1. cbn. rewrite Z.add_0_r. apply lookup_insert_eq.
      - cbn in Hl.
        replace (nextBreakpointId_ (server w) + 2 * Z.of_nat (S i))
          with (nextBreakpointId_ (server w) + 2 + 2 * Z.of_nat i) by lia.
        now apply Hstored. }
    split.
    { intros j Hj. rewrite Hothers.
      - subst w1. cbn. apply lookup_insert_ne. specialize (Hj 0%nat ltac:(lia)). lia.
      - intros i Hi. specialize (Hj (S i) ltac:(lia)). lia. }
    split; [now rewrite Hout | now rewrite Hint].
Qed.

(** X23: [handleSetBreakpoints] adds the requested lines to the breakpoints of
    the source: what was set before stays.  Each breakpoint takes two ids: it
    is stored under the next id and reported under the one after it, so that
    no breakpoint is stored under an id this request reports.  Nothing is
    sent, and the interpreter, with its own breakpoints, is left as it is. *)
Theorem handleSetBreakpoints_ids (lines : list Z) (w : World) :
  let id := nextBreakpointId_ (server w) in
  Forall (fun line => INT_MIN <= line <= INT_MAX) lines ->
  0 <= id -> id + 2 * Z.of_nat (length lines) <= INT_MAX ->
  exists w',
    handleSetBreakpoints (breakpoints_arguments path lines) w
    = Ok (jobject [("breakpoints", JArray (reported id lines))]) w'
    /\ nextBreakpointId_ (server w') = id + 2 * Z.of_nat (length lines)
    /\ (forall source' line',
           hasBreakpoint source' line' (server w')
           = (String.eqb source' path && bool_decide (line' ∈ lines))
             || hasBreakpoint source' line' (server w))
    /\ (forall i line,
           lines !! i = Some line ->
           breakpointMap_ (server w') !! (id + 2 * Z.of_nat i)
           = Some (mkBreakpoint (id + 2 * Z.of_nat i) true EmptyString line 0 path)
           /\ breakpointMap_ (server w') !! (id + 2 * Z.of_nat i + 1)
              = breakpointMap_ (server w) !! (id + 2 * Z.of_nat i + 1))
    /\ w_out w' = w_out w
    /\ interpreter w' = interpreter w.
Proof.
  cbv zeta. intros Hlines Hid Hmax.
  destruct (setBreakpoints_loop_reported lines [] w Hlines Hid Hmax)
    as (w' & Hrun & Hid' & Hhas & Hstored & Hothers & Hout & Hint).
  exists w'. split.
  { change (handleSetBreakpoints (breakpoints_arguments path lines) w)
      with ((let* response := setBreakpoints_loop path (map line_object lines) (JArray []) in
             ret (jobject [("breakpoints", response)])) w).
    unfold bind. rewrite Hrun. reflexivity. }
  split; [exact Hid' |]. split; [exact Hhas |]. split.
  { intros i line Hl. split; [now apply Hstored |].
    apply Hothers. intros i' _. lia. }
  split; [exact Hout | exact Hint].
Qed.

End SetBreakpoints.

(** A witness of [handleSetBreakpoints_ids]: lines 3 and 5 on the started
    server are stored under the ids 1 and 3 and reported under 2 and 4. *)
Lemma handleSetBreakpoints_ids_witness :
  exists w',
    DAPServer.handleSetBreakpoints (breakpoints_arguments "a.bas" [3; 5]) started_world
    = Ok (DAPServer.jobject
            [("breakpoints",
              JArray (reported (nextBreakpointId_ (server started_world)) [3; 5]))]) w'
    /\ nextBreakpointId_ (server w')
       = nextBreakpointId_ (server started_world) + 2 * Z.of_nat (length [3; 5]).
Proof.
  destruct (handleSetBreakpoints_ids "a.bas" [3; 5] started_world) as (w' & H1 & H2 & _).
  - repeat constructor; vm_compute; discriminate.
  - vm_compute. discriminate.
  - vm_compute. discriminate.
  - exists w'. split; [exact H1 | exact H2].
Defined.

(** ** Numbers written and read back *)

Lemma digit_char_digit (d : Z) :
  0 <= d <= 9 -> Char.isdigit (digit_char d) = true /\ digit_value (digit_char d) = d.
Proof.
  intros Hd. unfold digit_char, digit_value.
  assert (Hc : Char.code (ascii_of_N (Z.to_N (48 + d))) = Z.to_N (48 + d)).
  { unfold Char.code. apply N_ascii_embedding. lia. }
  split.
  - apply isdigit_code. rewrite Hc. lia.
  - rewrite Hc. lia.
Qed.

(** The digits [digits_of] writes before [acc] are read back as the
    number. *)
Lemma digits_of_read (fuel : nat) :
  forall (n : Z) (acc : string),
    0 <= n < 10 ^ Z.of_nat fuel -> (1 <= fuel)%nat ->
    (exists c r, digits_of fuel n acc = String c r /\ Char.isdigit c = true)
    /\ (all_digits acc = true -> all_digits (digits_of fuel n acc) = true)
    /\ exists k, 0 <= k /\ forall a,
         digits_value a (digits_of fuel n acc) = digits_value (a * 10 ^ k + n) acc.
Proof.
  induction fuel as [|fuel IH]; intros n acc Hn Hf; [lia |].
  rewrite digits_of_step.
  pose proof (Z.mod_pos_bound n 10 ltac:(lia)) as Hm.
  destruct (digit_char_digit (n mod 10) ltac:(lia)) as [Hd Hv].
  destruct (Z.ltb_spec n 10) as [Hlt | Hge].
  - rewrite Z.mod_small in * by lia.
    split; [eauto |]. split.
    + intros Ha. cbn [all_digits]. now rewrite Hd, Ha.
    + exists 1. split; [lia |]. intros a. cbn [digits_value]. rewrite Hd, Hv.
      f_equal; lia.
  - assert (Hq : 0 <= n / 10) by (apply Z.div_pos; lia).
    replace (Z.of_nat (S fuel)) with (Z.of_nat fuel + 1) in Hn by lia.
    rewrite Z.pow_add_r in Hn by lia.
    assert (Hq2 : n / 10 < 10 ^ Z.of_nat fuel) by (apply Z.div_lt_upper_bound; lia).
    assert (Hf1 : (1 <= fuel)%nat).
    { destruct fuel; [simpl in Hn; lia | lia]. }
    destruct (IH (n / 10) (String (digit_char (n mod 10)) acc) ltac:(lia) Hf1)
      as (Hfirst & Hall & k & Hk0 & Hk).
    split; [exact Hfirst |]. split.
    + intros Ha. apply Hall. cbn [all_digits]. now rewrite Hd, Ha.
    + exists (k + 1). split; [lia |]. intros a. rewrite Hk.
      cbn [digits_value]. rewrite Hd, Hv.
      f_equal. rewrite Z.pow_add_r by lia. pose proof (Z.div_mod n 10 ltac:(lia)). lia.
Qed.

Lemma all_digits_no_point (s : string) : all_digits s = true -> contains_char "." s = false.
Proof.
  induction s as [|c s IH]; [reflexivity |].
  cbn [all_digits contains_char]. intros H. apply andb_true_iff in H as [Hc Hs].
  rewrite (isdigit_not c "." Hc eq_refl). now apply IH.
Qed.

(** [std::stoi] reads back what [std::to_string] writes for an [int]. *)
Lemma stoi_int_to_string (n : Z) :
  INT_MIN <= n <= INT_MAX ->
  stoi (int_to_string n) = Some n /\ contains_char "." (int_to_string n) = false.
Proof.
  intros Hn. unfold int_to_string. destruct (Z.ltb_spec n 0) as [Hneg | Hpos].
  - destruct (digits_of_read (Z.to_nat (- n)) (- n) EmptyString)
      as ((c & r & Hcr & Hc) & Hall & k & Hk0 & Hk).
    { rewrite Z2Nat.id by lia. split; [lia |]. apply Z.pow_gt_lin_r; lia. }
    { lia. }
    specialize (Hall eq_refl). specialize (Hk 0). cbn [digits_value] in Hk.
    rewrite Z.mul_0_l, Z.add_0_l in Hk.
    split.
    + unfold stoi. cbn [skip_spaces]. change (Char.isspace "-") with false. cbv iota.
      change (Ascii.eqb "-" "-") with true. cbv iota beta.
      rewrite Hcr, Hc, <- Hcr, Hk, Z.opp_involutive.
      replace (INT_MIN <=? n) with true by (symmetry; apply Z.leb_le; lia).
      replace (n <=? INT_MAX) with true by (symmetry; apply Z.leb_le; lia).
      reflexivity.
    + cbn [contains_char]. change (Ascii.eqb "-" ".") with false.
      now apply all_digits_no_point.
  - destruct (digits_of_read (S (Z.to_nat n)) n EmptyString)
      as ((c & r & Hcr & Hc) & Hall & k & Hk0 & Hk).
    { split; [lia |]. rewrite Nat2Z.inj_succ, Z2Nat.id by lia.
      pose proof (Z.pow_gt_lin_r 10 (Z.succ n) ltac:(lia) ltac:(lia)). lia. }
    { lia. }
    specialize (Hall eq_refl). specialize (Hk 0). cbn [digits_value] in Hk.
    rewrite Z.mul_0_l, Z.add_0_l in Hk.
    split; [| now apply all_digits_no_point].
    rewrite stoi_digits; [| exact Hall | rewrite Hcr; discriminate].
    rewrite Hk. replace (n <=? INT_MAX) with true by (symmetry; apply Z.leb_le; lia).
    reflexivity.
Qed.

Section ValStr.

Variable E : Externals.

(** X24: [VAL(STR(n))] is [n] for every [int] [n]: what [STR] writes for an
    [int] has no decimal point and is read back by [VAL] as the same [int].
    [STR] of a string is the string itself, and both functions throw unless
    they get exactly one argument. *)
Theorem val_str_round_trip (n : Z) :
  INT_MIN <= n <= INT_MAX ->
  (exists text,
      Functions.str E [VInt n] = Return (VString text)
      /\ Functions.val E [VString text] = Return (VInt n))
  /\ (forall s, Functions.str E [VString s] = Return (VString s))
  /\ Functions.str E [] = Raise "STR function requires exactly 1 argument"
  /\ Functions.val E [] = Raise "VAL function requires exactly 1 argument"
  /\ (forall a b rest,
        Functions.str E (a :: b :: rest) = Raise "STR function requires exactly 1 argument"
        /\ Functions.val E (a :: b :: rest) = Raise "VAL function requires exactly 1 argument").
Proof.
  intros Hn. destruct (stoi_int_to_string n Hn) as [Hs Hp].
  split.
  - exists (int_to_string n). split; [reflexivity |].
    unfold Functions.val, Functions.string_or_empty. now rewrite Hp, Hs.
  - repeat split; reflexivity.
Qed.

End ValStr.

(** A witness of [val_str_round_trip]: [VAL(STR(-42))]. *)
Lemma val_str_round_trip_witness :
  exists text,
    Functions.str no_externals [VInt (-42)] = Return (VString text)
    /\ Functions.val no_externals [VString text] = Return (VInt (-42)).
Proof.
  apply (val_str_round_trip no_externals (-42)). vm_compute. split; discriminate.
Defined.

(** ** The request [next] *)

Section HandleNext.

Import DAPServer.

Variable E : Externals.
Variable fuel : nat.

(** X25: [handleNext] lets the interpreter take its step and reports where the
    interpreter then is: the line of the server, and of the [stopped] event,
    is the cursor of the interpreter plus one, whatever the server had as its
    line.  The cursor has moved by one when the interpreter was paused on a
    line of the program, and not at all otherwise (not paused, or a cursor
    that is negative or at the end).  The event is sent after the output of
    the line, also when no line was run.  The request does not throw. *)
Theorem handleNext_reports_cursor (arguments : json) (w : World) :
  let i := interpreter w in
  let cursor := BasicInterpreter.currentLine_ i in
  let lines := Z.of_nat (length (BasicInterpreter.lines_ i)) in
  INT_MIN <= cursor < INT_MAX - 1 -> lines < 2 ^ 63 ->
  match handleNext E fuel arguments w with
  | Ok result w' =>
      let moved :=
        if BasicInterpreter.paused_ i && (0 <=? cursor) && (cursor <? lines)
        then 1 else 0 in
      result = jobject []
      /\ BasicInterpreter.currentLine_ (interpreter w') = cursor + moved
      /\ currentLine_ (server w') = cursor + moved + 1
      /\ exists output,
           w_out w'
           = (w_out w ++ output
              ++ event_frames
                   (stopped_at (currentThread_ (server w)) (cursor + moved + 1)) w)%list
  | Throw _ _ => False
  | OutOfFuel => True
  end.
Proof.
  cbv zeta. intros Hcursor Hlines.
  assert (Hint : INT_MIN <= BasicInterpreter.currentLine_ (interpreter w) <= INT_MAX) by lia.
  destruct (cursor_position _ _ Hint Hlines) as [Hposition _].
  unfold handleNext.
  unfold bind at 1, on_server at 1, modify at 1.
  unfold bind at 1, interpreter_step. unfold bind at 1, the_server at 1.
  unfold run_session.
  match goal with
  | |- context [BasicInterpreter.step E ?r fuel ?s] =>
      pose proof (step_cursor E r fuel s) as Hstep;
      destruct (BasicInterpreter.step E r fuel s) as [[] s' | what s' |]
  end; [| destruct Hstep | exact I].
  cbn [BasicInterpreter.interp interpreter] in Hstep. cbv zeta in Hstep.
  destruct Hstep as [Hstep _]. rewrite Hposition, andb_assoc in Hstep.
  unfold bind at 1.
  match goal with
  | |- context [deliver ?written ?w1] => destruct (deliver_sent written w1) as [output Hd]
  end.
  rewrite Hd. unfold ret at 1.
  unfold bind, the_interpreter, on_server, modify, the_server, sendStoppedEvent.
  rewrite sendEvent_sent. unfold ret.
  cbn. unfold BasicInterpreter.getCurrentLine. rewrite Hstep.
  split; [reflexivity |]. split; [reflexivity |]. split; [reflexivity |].
  exists output. unfold event_frames, stopped_at. cbn. rewrite <- app_assoc. reflexivity.
Qed.

End HandleNext.

(** A witness of [handleNext_reports_cursor]: on the first line of a program
    of one line, the server's line after the request is 2. *)
Lemma handleNext_reports_cursor_witness :
  match DAPServer.handleNext no_externals 8 JNull paused_world with
  | Ok result w' =>
      result = DAPServer.jobject []
      /\ BasicInterpreter.currentLine_ (interpreter w') = 0 + 1
      /\ currentLine_ (server w') = 0 + 1 + 1
  | Throw _ _ => False
  | OutOfFuel => True
  end.
Proof.
  pose proof (handleNext_reports_cursor no_externals 8 JNull paused_world
                ltac:(vm_compute; split; [discriminate | reflexivity])
                ltac:(vm_compute; reflexivity)) as H.
  destruct (DAPServer.handleNext no_externals 8 JNull paused_world) as [result w' | what w' |];
    [| exact H | exact I].
  destruct H as (H1 & H2 & H3 & _). split; [exact H1 |]. split; [exact H2 | exact H3].
Defined.

(** ** The request [variables] *)

Section HandleVariables.

Import DAPServer.

Variable E : Externals.

Lemma entry_le_total {A} : Total (@entry_le A).
Proof. intros a b. unfold entry_le. apply String.leb_total. Qed.

(** X26: [handleVariables] answers the references 1 (Local) and 2 (Global)
    with the same list: every variable of the interpreter, once, in the order
    of the names, with its value written by [valueToString] and its type;
    any other reference gets the empty list.  The world is not changed. *)
Theorem handleVariables_scopes (reference : Z) (w : World) :
  INT_MIN <= reference <= INT_MAX ->
  let variables_ := BasicInterpreter.variables_ (interpreter w) in
  exists variables,
    handleVariables E (JObject [("variablesReference", JNumber reference)]) w
    = Ok (jobject [("variables", JArray variables)]) w
    /\ (reference <> 1 -> reference <> 2 -> variables = [])
    /\ (reference = 1 \/ reference = 2 ->
        length variables = size variables_
        /\ (forall v, In v variables <->
                      exists name value,
                        variables_ !! name = Some value
                        /\ v = Variable_toJson E name value)
        /\ Sorted name_before variables).
Proof.
  intros Href variables_. unfold INT_MIN, INT_MAX in Href.
  unfold handleVariables.
  unfold bind, lift_except, the_interpreter, ret.
  cbn [Json.at_ Json.lookup String.eqb Ascii.eqb Bool.eqb Json.get_int].
  rewrite (wrap32_small reference) by lia.
  eexists. split; [reflexivity |]. fold variables_. split.
  - intros H1 H2.
    replace (reference =? 1) with false by (symmetry; apply Z.eqb_neq; lia).
    replace (reference =? 2) with false by (symmetry; apply Z.eqb_neq; lia).
    reflexivity.
  - intros Hr.
    replace ((reference =? 1) || (reference =? 2)) with true
      by (symmetry; apply orb_true_iff; destruct Hr as [-> | ->]; auto).
    pose proof (@merge_sort_Permutation _ entry_le entry_le_dec (map_to_list variables_))
      as Hperm.
    fold (entries variables_) in Hperm.
    split; [| split].
    + rewrite length_map, Hperm. apply length_map_to_list.
    + intros v. rewrite in_map_iff. split.
      * intros ([name value] & <- & Hin). exists name, value. split; [| reflexivity].
        apply elem_of_map_to_list. rewrite <- Hperm. now apply list_elem_of_In.
      * intros (name & value & Hl & ->). exists (name, value). split; [reflexivity |].
        apply list_elem_of_In. rewrite Hperm. now apply elem_of_map_to_list.
    + apply (Sorted_fmap _ entry_le name_before).
      * intros [na va] [nb vb] Hle. exists na, nb. now repeat split.
      * apply (@Sorted_merge_sort _ entry_le entry_le_dec), entry_le_total.
Qed.

End HandleVariables.

(** A witness of [handleVariables_scopes]: the reference 3. *)
Lemma handleVariables_scopes_witness :
  exists variables,
    DAPServer.handleVariables no_externals (JObject [("variablesReference", JNumber 3)])
      started_world
    = Ok (DAPServer.jobject [("variables", JArray variables)]) started_world
    /\ variables = [].
Proof.
  destruct (handleVariables_scopes no_externals 3 started_world) as (variables & H1 & H2 & _).
  - vm_compute. split; discriminate.
  - exists variables. split; [exact H1 |]. apply H2; discriminate.
Defined.

(** ** Sources of the server *)

Section Sources.

Import DAPServer.

Variable w : World.
Variable path content : string.

(** X27: after a [loadSource] request with a path and a content, a [source]
    request for the path, given as [path] or as [source.path], returns the
    content; the other paths return what they did, and a path that was never
    loaded the empty text.  [loadSource] does not throw on such arguments,
    sends one event and no more, and makes the path the current source. *)
Theorem loadSource_source :
  let load := JObject [("path", JString path); ("content", JString content)] in
  let w1 := world_after (handleLoadSource load) w in
  let answer (text : string) : Outcome World json :=
    Ok (jobject [("content", JString text)]) w1 in
  handleLoadSource load w
  = Ok (jobject [("success", JBool true); ("path", JString path)]) w1
  /\ handleSource (JObject [("path", JString path)]) w1 = answer content
  /\ handleSource (JObject [("source", JObject [("path", JString path)])]) w1 = answer content
  /\ (forall other,
         other <> path ->
         handleSource (JObject [("path", JString other)]) w1 = answer (getSource other (server w))
         /\ (sources_ (server w) !! other = None ->
             handleSource (JObject [("path", JString other)]) w1 = answer EmptyString))
  /\ currentSource_ (server w1) = path
  /\ w_out w1
     = (w_out w
        ++ event_frames
             (event_document "loadedSource"
                (jobject [("reason", JString "new");
                          ("source", Source_toJson path EmptyString 0)])) w)%list
  /\ interpreter w1 = interpreter w.
Proof.
  cbv zeta.
  assert (Hload : handleLoadSource (JObject [("path", JString path); ("content", JString content)]) w
                  = Ok (jobject [("success", JBool true); ("path", JString path)])
                      (sent (event_frames
                               (event_document "loadedSource"
                                  (jobject [("reason", JString "new");
                                            ("source", Source_toJson path EmptyString 0)])) w)
                         (world_after (addSource path content) w))).
  { unfold handleLoadSource.
    unfold bind, lift_except, ret.
    cbn [Json.at_ Json.lookup String.eqb Ascii.eqb Bool.eqb Json.get_string].
    unfold addSource at 1, on_server at 1, modify at 1.
    unfold sendLoadedSourceEvent. rewrite sendEvent_sent. reflexivity. }
  unfold world_after. rewrite Hload.
  split; [reflexivity |].
  unfold handleSource, bind, lift_except, ret, the_server, getSource.
  split.
  { cbn. now rewrite lookup_insert_eq. }
  split.
  { cbn. now rewrite lookup_insert_eq. }
  split.
  { intros other Hne. cbn. rewrite lookup_insert_ne by congruence.
    split; [reflexivity |]. now intros ->. }
  split; [reflexivity |]. split; [reflexivity | reflexivity].
Qed.

End Sources.
